(** * quote0: a shallow embedding of the Go SDK's request dispatch pipeline

    The development follows the package file by file: the helpers of the Go
    standard library the package calls ([strings], [encoding/base64],
    [strconv], [encoding/json]), then [errors.go], the rate limiter, the
    request schemas, and [Client] with [doJSON], [SendText] and [SendImage].

    Go values are represented as follows.
    - [string] is a Go string: a sequence of bytes (one [ascii] per byte).
    - [list byte] is a [[]byte]; [String.string_of_list_byte] is the
      conversion [string(b)].
    - [Z] is an [int], a [time.Duration] (nanoseconds) or a [time.Time]
      (nanoseconds counted from the zero [Time]).
    - an [error] interface value is [option error]; [None] is [nil]. *)

From Stdlib Require Import ZArith Lia Bool Ascii Strings.Byte DecimalString.
From Stdlib Require Import Floats.SpecFloat.
From stdpp Require Import base option list strings gmap.

Local Open Scope Z_scope.

(** ** Bytes *)

Definition ascii_code (c : ascii) : Z := Z.of_N (N_of_ascii c).
Definition byte_code (b : byte) : Z := Z.of_N (Byte.to_N b).

Definition go_string (b : list byte) : string := String.string_of_list_byte b.
Definition go_bytes (s : string) : list byte := String.list_byte_of_string s.

Definition chars (s : string) : list ascii := String.list_ascii_of_string s.
Definition of_chars (l : list ascii) : string := String.string_of_list_ascii l.

(** ** package strings *)

Module strings.

(** The six ASCII bytes of [asciiSpace]. *)
Definition asciiSpace (a : ascii) : bool :=
  let c := ascii_code a in
  (c =? 9) || (c =? 10) || (c =? 11) || (c =? 12) || (c =? 13) || (c =? 32).

(** [unicode.IsSpace] on a rune that UTF-8 encodes in two bytes: U+0085
    (NEL) and U+00A0 (NBSP). *)
Definition space2 (a b : ascii) : bool :=
  (ascii_code a =? 194) && ((ascii_code b =? 133) || (ascii_code b =? 160)).

(** [unicode.IsSpace] on a rune that UTF-8 encodes in three bytes: U+1680,
    U+2000..U+200A, U+2028, U+2029, U+202F, U+205F and U+3000. *)
Definition space3 (a b c : ascii) : bool :=
  let '(x, y, z) := (ascii_code a, ascii_code b, ascii_code c) in
  ((x =? 225) && (y =? 154) && (z =? 128))
  || ((x =? 226) && (y =? 128)
      && (((128 <=? z) && (z <=? 138)) || (z =? 168) || (z =? 169) || (z =? 175)))
  || ((x =? 226) && (y =? 129) && (z =? 159))
  || ((x =? 227) && (y =? 128) && (z =? 128)).

(** Trimming from one end.  [TrimSpace] decodes runes from the left and
    then from the right; a white-space rune is always a well-formed
    encoding, so decoding it forwards or backwards amounts to recognising
    its bytes.  [s1], [s2] and [s3] recognise the white-space runes of one,
    two and three bytes in the order in which the scan meets their bytes. *)
Section Strip.
Variable s1 : ascii -> bool.
Variable s2 : ascii -> ascii -> bool.
Variable s3 : ascii -> ascii -> ascii -> bool.

Fixpoint strip (l : list ascii) : list ascii :=
  match l with
  | [] => []
  | a :: l1 =>
      if s1 a then strip l1 else
      match l1 with
      | [] => l
      | b :: l2 =>
          if s2 a b then strip l2 else
          match l2 with
          | [] => l
          | c :: l3 => if s3 a b c then strip l3 else l
          end
      end
  end.

(** Does [l] begin with a white-space rune? *)
Definition lead (l : list ascii) : bool :=
  match l with
  | [] => false
  | a :: l1 =>
      s1 a ||
      match l1 with
      | [] => false
      | b :: l2 =>
          s2 a b || match l2 with [] => false | c :: _ => s3 a b c end
      end
  end.
End Strip.

Definition trimLeft : list ascii -> list ascii := strip asciiSpace space2 space3.
Definition leadLeft : list ascii -> bool := lead asciiSpace space2 space3.

Definition space2r (b a : ascii) : bool := space2 a b.
Definition space3r (c b a : ascii) : bool := space3 a b c.

Definition trimRight (l : list ascii) : list ascii :=
  rev (strip asciiSpace space2r space3r (rev l)).

(** [strings.TrimSpace]. *)
Definition TrimSpace (s : string) : string :=
  of_chars (trimRight (trimLeft (chars s))).

Fixpoint prefix_of (p l : list ascii) : bool :=
  match p, l with
  | [], _ => true
  | a :: p', b :: l' => Ascii.eqb a b && prefix_of p' l'
  | _ :: _, [] => false
  end.

(** [strings.HasPrefix], [strings.HasSuffix]. *)
Definition HasPrefix (s p : string) : bool := prefix_of (chars p) (chars s).
Definition HasSuffix (s p : string) : bool :=
  prefix_of (rev (chars p)) (rev (chars s)).

Fixpoint contains (l sub : list ascii) : bool :=
  prefix_of sub l || match l with [] => false | _ :: l' => contains l' sub end.

(** [strings.Contains]. *)
Definition Contains (s sub : string) : bool := contains (chars s) (chars sub).

(** [strings.TrimPrefix]. *)
Definition TrimPrefix (s p : string) : string :=
  if HasPrefix s p then of_chars (drop (length (chars p)) (chars s)) else s.

Fixpoint dropWhile (f : ascii -> bool) (l : list ascii) : list ascii :=
  match l with
  | a :: l' => if f a then dropWhile f l' else l
  | [] => []
  end.

(** [strings.TrimRight(s, cutset)] for a cutset of one ASCII byte. *)
Definition TrimRight (s : string) (cutset : ascii) : string :=
  of_chars (rev (dropWhile (Ascii.eqb cutset) (rev (chars s)))).

End strings.


(** The byte value of a character literal, for comparisons: [ch "{"]. *)
Definition ch (a : ascii) : Z := ascii_code a.
Arguments ch a%_char.

Definition byte_of_Z (z : Z) : byte :=
  match Byte.of_N (Z.to_N z) with Some b => b | None => x00 end.

(** ** package strconv *)

Module strconv.

(** [strconv.Itoa]: base-10 text of an [int]. *)
Definition Itoa (i : Z) : string := NilZero.string_of_int (Z.to_int i).

End strconv.

(** ** package encoding/base64 *)

Module base64.

(** The alphabet of [base64.StdEncoding]. *)
Definition encodeStd : string :=
  "ABCDEFGHIJKLMNOPQRSTUVWXYZabcdefghijklmnopqrstuvwxyz0123456789+/".

Definition padChar : ascii := "="%char.

Definition sextet (v : Z) : ascii :=
  nth (Z.to_nat (Z.land v 63)) (chars encodeStd) padChar.

(** [Encoding.Encode]: three source bytes give four characters; a last
    group of one or two bytes is padded with [=]. *)
Fixpoint encode (src : list byte) : list ascii :=
  match src with
  | [] => []
  | [b0] =>
      let val := Z.shiftl (byte_code b0) 16 in
      [sextet (Z.shiftr val 18); sextet (Z.shiftr val 12); padChar; padChar]
  | [b0; b1] =>
      let val := Z.lor (Z.shiftl (byte_code b0) 16) (Z.shiftl (byte_code b1) 8) in
      [sextet (Z.shiftr val 18); sextet (Z.shiftr val 12);
       sextet (Z.shiftr val 6); padChar]
  | b0 :: b1 :: b2 :: rest =>
      let val := Z.lor (Z.lor (Z.shiftl (byte_code b0) 16)
                              (Z.shiftl (byte_code b1) 8)) (byte_code b2) in
      sextet (Z.shiftr val 18) :: sextet (Z.shiftr val 12)
        :: sextet (Z.shiftr val 6) :: sextet val :: encode rest
  end.

(** [StdEncoding.EncodeToString]. *)
Definition EncodeToString (src : list byte) : string := of_chars (encode src).

End base64.

(** ** package unicode/utf8 *)

Module utf8.

Definition RuneError : Z := 65533.

(** Width of an encoding by its first byte, with the range accepted for
    the second byte (the tables [first] and [acceptRanges]). *)
Definition first (p0 : Z) : option (nat * Z * Z) :=
  if (194 <=? p0) && (p0 <=? 223) then Some (2%nat, 128, 191)
  else if p0 =? 224 then Some (3%nat, 160, 191)
  else if (225 <=? p0) && (p0 <=? 236) then Some (3%nat, 128, 191)
  else if p0 =? 237 then Some (3%nat, 128, 159)
  else if (238 <=? p0) && (p0 <=? 239) then Some (3%nat, 128, 191)
  else if p0 =? 240 then Some (4%nat, 144, 191)
  else if (241 <=? p0) && (p0 <=? 243) then Some (4%nat, 128, 191)
  else if p0 =? 244 then Some (4%nat, 128, 143)
  else None.

Definition cont (c : Z) : bool := (128 <=? c) && (c <=? 191).

(** [utf8.DecodeRune]: the rune at the head of [p] and its width; an
    ill-formed head decodes as [(RuneError, 1)]. *)
Definition DecodeRune (p : list byte) : Z * nat :=
  match p with
  | [] => (RuneError, 0%nat)
  | b0 :: p1 =>
      let p0 := byte_code b0 in
      if p0 <? 128 then (p0, 1%nat) else
      match first p0 with
      | None => (RuneError, 1%nat)
      | Some (sz, lo, hi) =>
          match p1 with
          | [] => (RuneError, 1%nat)
          | b1 :: p2 =>
              let c1 := byte_code b1 in
              if (c1 <? lo) || (hi <? c1) then (RuneError, 1%nat) else
              if (sz <=? 2)%nat
              then (Z.lor (Z.shiftl (Z.land p0 31) 6) (Z.land c1 63), 2%nat) else
              match p2 with
              | [] => (RuneError, 1%nat)
              | b2 :: p3 =>
                  let c2 := byte_code b2 in
                  if negb (cont c2) then (RuneError, 1%nat) else
                  if (sz <=? 3)%nat
                  then (Z.lor (Z.lor (Z.shiftl (Z.land p0 15) 12)
                                     (Z.shiftl (Z.land c1 63) 6)) (Z.land c2 63),
                        3%nat) else
                  match p3 with
                  | [] => (RuneError, 1%nat)
                  | b3 :: _ =>
                      let c3 := byte_code b3 in
                      if negb (cont c3) then (RuneError, 1%nat) else
                      (Z.lor (Z.lor (Z.lor (Z.shiftl (Z.land p0 7) 18)
                                           (Z.shiftl (Z.land c1 63) 12))
                                    (Z.shiftl (Z.land c2 63) 6)) (Z.land c3 63),
                       4%nat)
                  end
              end
          end
      end
  end.

Definition enc3 (r : Z) : list byte :=
  [byte_of_Z (Z.lor 224 (Z.shiftr r 12));
   byte_of_Z (Z.lor 128 (Z.land (Z.shiftr r 6) 63));
   byte_of_Z (Z.lor 128 (Z.land r 63))].

(** [utf8.AppendRune] to an empty slice: the encoding of [r]; surrogates
    and values outside Unicode are written as [RuneError]. *)
Definition AppendRune (r : Z) : list byte :=
  if (0 <=? r) && (r <=? 127) then [byte_of_Z r]
  else if (0 <=? r) && (r <=? 2047) then
    [byte_of_Z (Z.lor 192 (Z.shiftr r 6)); byte_of_Z (Z.lor 128 (Z.land r 63))]
  else if (r <? 0) || (1114111 <? r) || ((55296 <=? r) && (r <=? 57343)) then
    enc3 RuneError
  else if r <=? 65535 then enc3 r
  else
    [byte_of_Z (Z.lor 240 (Z.shiftr r 18));
     byte_of_Z (Z.lor 128 (Z.land (Z.shiftr r 12) 63));
     byte_of_Z (Z.lor 128 (Z.land (Z.shiftr r 6) 63));
     byte_of_Z (Z.lor 128 (Z.land r 63))].

(** [utf8.Valid]: every byte of [p] belongs to a well-formed encoding.
    [skip] counts the bytes left of the encoding that is being passed. *)
Fixpoint valid (skip : nat) (p : list byte) : bool :=
  match p with
  | [] => true
  | _ :: p' =>
      match skip with
      | S k => valid k p'
      | O =>
          let '(r, size) := DecodeRune p in
          if (r =? RuneError) && (size =? 1)%nat then false
          else valid (size - 1) p'
      end
  end.

Definition Valid (p : list byte) : bool := valid 0 p.

(** [utf8.ValidString]. *)
Definition ValidString (s : string) : bool := Valid (go_bytes s).

End utf8.

(** ** float64

    A [float64] is a [spec_float] of the binary64 format.  The package only
    obtains floats from JSON number literals and only converts them to
    [int]. *)

Module float64.

Definition round_half_even (p q : Z) : Z :=
  let n := p / q in
  match (2 * (p mod q)) ?= q with
  | Lt => n
  | Gt => n + 1
  | Eq => if Z.even n then n else n + 1
  end.

(** The binary64 value nearest to [d * 10^k] ([d >= 0]), ties to even;
    [None] when it rounds beyond the largest finite value (the
    [ErrRange] of [strconv.ParseFloat]). *)
Definition of_decimal (neg : bool) (d k : Z) : option spec_float :=
  if d <=? 0 then Some (S754_zero neg) else
  let '(p, q) := if 0 <=? k then (d * 10 ^ k, 1) else (d, 10 ^ (- k)) in
  let l0 := Z.log2 p - Z.log2 q in
  let ge := if 0 <=? l0 then q * 2 ^ l0 <=? p else q <=? p * 2 ^ (- l0) in
  let l := if ge then l0 else l0 - 1 in
  let e := Z.max (l - 52) (-1074) in
  let m := if 0 <=? e then round_half_even p (q * 2 ^ e)
           else round_half_even (p * 2 ^ (- e)) q in
  let '(m, e) := if m =? 2 ^ 53 then (2 ^ 52, e + 1) else (m, e) in
  if m =? 0 then Some (S754_zero neg)
  else if 971 <? e then None
  else Some (S754_finite neg (Z.to_pos m) e).

Definition minInt64 : Z := - 2 ^ 63.
Definition maxInt64 : Z := 2 ^ 63 - 1.

(** The conversion [int(f)]: truncation towards zero.  For a value that
    an [int] cannot hold Go leaves the result to the implementation; the
    value given here is the one amd64 produces. *)
Definition to_int (f : spec_float) : Z :=
  match f with
  | S754_zero _ => 0
  | S754_finite s m e =>
      let a := if 0 <=? e then Z.pos m * 2 ^ e else Z.pos m / 2 ^ (- e) in
      let v := if s then - a else a in
      if (minInt64 <=? v) && (v <=? maxInt64) then v else minInt64
  | _ => minInt64
  end.

End float64.

(** ** package encoding/json: reading *)

Module json.

(** A JSON text as the scanner delimits it.  A number keeps its literal, a
    string is already unquoted, and a member of an object keeps the bytes
    of its value next to the value (what a [RawMessage] receives). *)
#[local] Unset Elimination Schemes.
Inductive Value :=
| Null
| Bool (b : bool)
| Number (lit : list byte)
| Str (s : string)
| Array (items : list Value)
| Object (members : list (string * (list byte * Value))).
#[local] Set Elimination Schemes.

Definition quote : Z := 34.
Definition backslash : Z := 92.

(** The scanner's [isSpace]. *)
Definition isSpace (b : byte) : bool :=
  let c := byte_code b in
  (c =? 32) || (c =? 9) || (c =? 13) || (c =? 10).

Fixpoint skipSpace (s : list byte) : list byte :=
  match s with
  | b :: rest => if isSpace b then skipSpace rest else s
  | [] => []
  end.

Definition isDigit (b : byte) : bool :=
  (ch "0" <=? byte_code b) && (byte_code b <=? ch "9").

Fixpoint span (f : byte -> bool) (s : list byte) : list byte * list byte :=
  match s with
  | b :: rest =>
      if f b then let '(l, r) := span f rest in (b :: l, r) else ([], s)
  | [] => ([], [])
  end.

Definition hexval (b : byte) : option Z :=
  let c := byte_code b in
  if (ch "0" <=? c) && (c <=? ch "9") then Some (c - ch "0")
  else if (ch "a" <=? c) && (c <=? ch "f") then Some (c - ch "a" + 10)
  else if (ch "A" <=? c) && (c <=? ch "F") then Some (c - ch "A" + 10)
  else None.

(** Four hexadecimal digits at the head of [s]. *)
Definition hex4 (s : list byte) : option Z :=
  match s with
  | a :: b :: c :: d :: _ =>
      match hexval a, hexval b, hexval c, hexval d with
      | Some x, Some y, Some z, Some w => Some (((x * 16 + y) * 16 + z) * 16 + w)
      | _, _, _, _ => None
      end
  | _ => None
  end.

(** [getu4]: the code unit of a [\uXXXX] escape at the head of [s]. *)
Definition getu4 (s : list byte) : option Z :=
  match s with
  | b :: u :: rest =>
      if (byte_code b =? backslash) && (byte_code u =? ch "u") then hex4 rest
      else None
  | _ => None
  end.

Definition isSurrogate (r : Z) : bool := (55296 <=? r) && (r <? 57344).

(** [utf16.DecodeRune]. *)
Definition utf16_DecodeRune (r1 r2 : Z) : Z :=
  if (55296 <=? r1) && (r1 <? 56320) && (56320 <=? r2) && (r2 <? 57344)
  then Z.lor (Z.shiftl (r1 - 55296) 10) (r2 - 56320) + 65536
  else utf8.RuneError.

Definition simpleEscape (c : Z) : option Z :=
  if (c =? quote) || (c =? backslash) || (c =? ch "/") then Some c
  else if c =? ch "b" then Some 8
  else if c =? ch "f" then Some 12
  else if c =? ch "n" then Some 10
  else if c =? ch "r" then Some 13
  else if c =? ch "t" then Some 9
  else None.

(** A string literal after its opening quote: the scanner's rules for
    what may occur in it, and [unquote] for what it denotes.  Every step
    consumes at least one byte, so [length s] steps always suffice. *)
Fixpoint stringBody (fuel : nat) (s out : list byte) : option (list byte * list byte) :=
  match fuel with
  | O => None
  | S fuel =>
      match s with
      | [] => None
      | b :: rest =>
          let c := byte_code b in
          if c =? quote then Some (out, rest)
          else if c =? backslash then
            match rest with
            | [] => None
            | e :: rest2 =>
                if byte_code e =? ch "u" then
                  match hex4 rest2 with
                  | None => None
                  | Some rr =>
                      let rest3 := drop 4 rest2 in
                      if isSurrogate rr then
                        let dec := match getu4 rest3 with
                                   | Some rr1 => utf16_DecodeRune rr rr1
                                   | None => utf8.RuneError
                                   end in
                        if dec =? utf8.RuneError
                        then stringBody fuel rest3 (out ++ utf8.AppendRune utf8.RuneError)
                        else stringBody fuel (drop 6 rest3) (out ++ utf8.AppendRune dec)
                      else stringBody fuel rest3 (out ++ utf8.AppendRune rr)
                  end
                else
                  match simpleEscape (byte_code e) with
                  | Some x => stringBody fuel rest2 (out ++ [byte_of_Z x])
                  | None => None
                  end
            end
          else if c <? 32 then None
          else if c <? 128 then stringBody fuel rest (out ++ [b])
          else
            let '(rr, size) := utf8.DecodeRune s in
            stringBody fuel (drop size s) (out ++ utf8.AppendRune rr)
      end
  end.

Definition string_ (s : list byte) : option (string * list byte) :=
  match stringBody (length s) s [] with
  | Some (out, rest) => Some (go_string out, rest)
  | None => None
  end.

(** A number literal at the head of [s]: an optional minus sign; a single
    zero, or a digit from 1 to 9 followed by digits; optionally a point
    and at least one digit; optionally [e] or [E], an optional sign and
    at least one digit. *)
Definition number (s : list byte) : option (list byte * list byte) :=
  let '(sign, s1) :=
    match s with
    | b :: r => if byte_code b =? ch "-" then ([b], r) else ([], s)
    | [] => ([], s)
    end in
  match s1 with
  | [] => None
  | d :: r =>
      let int_part :=
        if byte_code d =? ch "0" then Some ([d], r)
        else if isDigit d then let '(ds, r') := span isDigit r in Some (d :: ds, r')
        else None in
      match int_part with
      | None => None
      | Some (ip, s2) =>
          let frac_part :=
            match s2 with
            | p :: r2 =>
                if byte_code p =? ch "." then
                  match span isDigit r2 with
                  | ([], _) => None
                  | (fs, r3) => Some (p :: fs, r3)
                  end
                else Some ([], s2)
            | [] => Some ([], s2)
            end in
          match frac_part with
          | None => None
          | Some (fp, s3) =>
              let exp_part :=
                match s3 with
                | e :: r3 =>
                    if (byte_code e =? ch "e") || (byte_code e =? ch "E") then
                      let '(sg, r4) :=
                        match r3 with
                        | g :: r4 =>
                            if (byte_code g =? ch "+") || (byte_code g =? ch "-")
                            then ([g], r4) else ([], r3)
                        | [] => ([], r3)
                        end in
                      match span isDigit r4 with
                      | ([], _) => None
                      | (es, r5) => Some (e :: sg ++ es, r5)
                      end
                    else Some ([], s3)
                | [] => Some ([], s3)
                end in
              match exp_part with
              | None => None
              | Some (ep, s4) => Some (sign ++ ip ++ fp ++ ep, s4)
              end
          end
      end
  end.

(** The literal [word] at the head of [s]. *)
Fixpoint keyword (word s : list byte) : option (list byte) :=
  match word with
  | [] => Some s
  | w :: word' =>
      match s with
      | b :: rest => if byte_code b =? byte_code w then keyword word' rest else None
      | [] => None
      end
  end.

Definition maxNestingDepth : Z := 10000.

(** One JSON value at the head of [s] (white space already skipped), with
    the input that follows it.  [depth] counts the arrays and objects
    that are open.  A call either fails or consumes a byte before it
    calls itself again, so [2 * length s + 2] units of [fuel] suffice. *)
Fixpoint value (fuel : nat) (depth : Z) (s : list byte) {struct fuel}
  : option (Value * list byte) :=
  match fuel with
  | O => None
  | S fuel =>
      match s with
      | [] => None
      | b :: rest =>
          let c := byte_code b in
          if c =? ch "{" then
            if maxNestingDepth <? depth + 1 then None else
            match skipSpace rest with
            | [] => None
            | b' :: rest' =>
                if byte_code b' =? ch "}" then Some (Object [], rest')
                else members fuel (depth + 1) (b' :: rest') []
            end
          else if c =? ch "[" then
            if maxNestingDepth <? depth + 1 then None else
            match skipSpace rest with
            | [] => None
            | b' :: rest' =>
                if byte_code b' =? ch "]" then Some (Array [], rest')
                else elements fuel (depth + 1) (b' :: rest') []
            end
          else if c =? quote then
            match string_ rest with
            | Some (str, rest') => Some (Str str, rest')
            | None => None
            end
          else if (c =? ch "-") || isDigit b then
            match number s with
            | Some (lit, rest') => Some (Number lit, rest')
            | None => None
            end
          else if c =? ch "t" then
            option_map (pair (Bool true)) (keyword (go_bytes "true") s)
          else if c =? ch "f" then
            option_map (pair (Bool false)) (keyword (go_bytes "false") s)
          else if c =? ch "n" then
            option_map (pair Null) (keyword (go_bytes "null") s)
          else None
      end
  end

(** The elements of an array from the head of an element on. *)
with elements (fuel : nat) (depth : Z) (s : list byte) (acc : list Value) {struct fuel}
  : option (Value * list byte) :=
  match fuel with
  | O => None
  | S fuel =>
      match value fuel depth s with
      | None => None
      | Some (v, rest) =>
          match skipSpace rest with
          | [] => None
          | b :: rest' =>
              if byte_code b =? ch "," then
                elements fuel depth (skipSpace rest') (acc ++ [v])
              else if byte_code b =? ch "]" then Some (Array (acc ++ [v]), rest')
              else None
          end
      end
  end

(** The members of an object from the head of a key on. *)
with members (fuel : nat) (depth : Z) (s : list byte)
             (acc : list (string * (list byte * Value))) {struct fuel}
  : option (Value * list byte) :=
  match fuel with
  | O => None
  | S fuel =>
      match s with
      | [] => None
      | q :: s1 =>
          if negb (byte_code q =? quote) then None else
          match string_ s1 with
          | None => None
          | Some (key, s2) =>
              match skipSpace s2 with
              | [] => None
              | colon :: s3 =>
                  if negb (byte_code colon =? ch ":") then None else
                  let s4 := skipSpace s3 in
                  match value fuel depth s4 with
                  | None => None
                  | Some (v, s5) =>
                      let raw := take (length s4 - length s5) s4 in
                      let acc' := acc ++ [(key, (raw, v))] in
                      match skipSpace s5 with
                      | [] => None
                      | b :: s6 =>
                          if byte_code b =? ch "," then
                            members fuel depth (skipSpace s6) acc'
                          else if byte_code b =? ch "}" then Some (Object acc', s6)
                          else None
                      end
                  end
              end
          end
      end
  end.

(** [checkValid] and the scan of the whole input: one value, with nothing
    but white space around it. *)
Definition parse (data : list byte) : option Value :=
  match value (2 * length data + 2) 0 (skipSpace data) with
  | Some (v, rest) => match skipSpace rest with [] => Some v | _ :: _ => None end
  | None => None
  end.

(** *** Values of type [interface{}] as [Unmarshal] builds them *)

#[local] Unset Elimination Schemes.
Inductive any :=
| anyNil
| anyBool (b : bool)
| anyFloat64 (f : spec_float)
| anyString (s : string)
| anySlice (l : list any)
| anyMap (m : gmap string any).
#[local] Set Elimination Schemes.

Definition digitsZ (ds : list byte) : Z :=
  fold_left (fun acc b => acc * 10 + (byte_code b - ch "0")) ds 0.

Definition signed (lit : list byte) : bool * list byte :=
  match lit with
  | b :: r => if byte_code b =? ch "-" then (true, r) else (false, lit)
  | [] => (false, lit)
  end.

(** [strconv.ParseFloat(lit, 64)] on a literal the scanner accepted. *)
Definition ParseFloat (lit : list byte) : option spec_float :=
  let '(neg, s1) := signed lit in
  let '(ip, s2) := span isDigit s1 in
  let '(fp, s3) :=
    match s2 with
    | p :: r => if byte_code p =? ch "." then span isDigit r else ([], s2)
    | [] => ([], s2)
    end in
  let ex :=
    match s3 with
    | _ :: g :: r =>
        if byte_code g =? ch "-" then - digitsZ r
        else if byte_code g =? ch "+" then digitsZ r
        else digitsZ (g :: r)
    | _ => 0
    end in
  float64.of_decimal neg (digitsZ (ip ++ fp)) (ex - Z.of_nat (length fp)).

(** [strconv.ParseInt(lit, 10, 64)] on a literal the scanner accepted:
    a fraction or an exponent is a syntax error, a value outside [int64]
    a range error. *)
Definition ParseInt (lit : list byte) : option Z :=
  let '(neg, s1) := signed lit in
  match span isDigit s1 with
  | (ds, []) =>
      let v := if neg then - digitsZ ds else digitsZ ds in
      if (float64.minInt64 <=? v) && (v <=? float64.maxInt64) then Some v else None
  | (_, _ :: _) => None
  end.

(** The value stored into an empty interface ([valueInterface]); [None]
    when a number is out of range, which [Unmarshal] reports as an
    error.  The members of an object are stored in order, a later one
    replacing an earlier one with the same key. *)
Fixpoint toInterface (v : Value) : option any :=
  match v with
  | Null => Some anyNil
  | Bool b => Some (anyBool b)
  | Number lit => option_map anyFloat64 (ParseFloat lit)
  | Str s => Some (anyString s)
  | Array items =>
      option_map anySlice
        ((fix go (l : list Value) : option (list any) :=
            match l with
            | [] => Some []
            | x :: l' =>
                match toInterface x, go l' with
                | Some a, Some r => Some (a :: r)
                | _, _ => None
                end
            end) items)
  | Object ms =>
      option_map anyMap
        ((fix go (l : list (string * (list byte * Value))) (m : gmap string any)
            : option (gmap string any) :=
            match l with
            | [] => Some m
            | (k, (_, x)) :: l' =>
                match toInterface x with
                | Some a => go l' (<[k := a]> m)
                | None => None
                end
            end) ms ∅)
  end.

(** [json.Unmarshal(data, &obj)] for [var obj map[string]interface{}]:
    [None] is a non-nil error; [Some None] leaves [obj] nil (the text
    [null]); [Some (Some m)] stores the decoded object. *)
Definition Unmarshal_map (data : list byte) : option (option (gmap string any)) :=
  match parse data with
  | None => None
  | Some Null => Some None
  | Some (Object ms) =>
      match toInterface (Object ms) with
      | Some (anyMap m) => Some (Some m)
      | _ => None
      end
  | Some _ => None
  end.

(** Matching of an object key against the name of a struct field when
    the two are not equal byte for byte: ASCII letters match without
    regard to case, and [s] and [k] also match U+017F and U+212A, the two
    runes outside ASCII whose case folding is an ASCII letter. *)
Definition upper (c : Z) : Z :=
  if (ch "a" <=? c) && (c <=? ch "z") then c - 32 else c.

Fixpoint equalFold (name : list ascii) (key : list byte) : bool :=
  match name, key with
  | [], [] => true
  | sb :: name', tb :: key' =>
      if byte_code tb <? 128 then
        (upper (ascii_code sb) =? upper (byte_code tb)) && equalFold name' key'
      else
        let '(r, size) := utf8.DecodeRune key in
        let s := upper (ascii_code sb) in
        (((s =? ch "S") && (r =? 383)) || ((s =? ch "K") && (r =? 8490)))
        && equalFold name' (drop size key)
  | _, _ => false
  end.

(** Does the key [key] of an object select the field named [name]? *)
Definition fieldMatch (name key : string) : bool :=
  String.eqb name key || equalFold (chars name) (go_bytes key).

End json.

(** ** errors.go *)

Module APIError.
Record t := mk {
  StatusCode : Z;
  (** the server's error code as text, when the body carries one *)
  Code : string;
  Message : string;
  RawBody : list byte
}.
End APIError.

(** The dynamic values an [error] holds in this package: the four
    [errors.New] variables, a [*APIError] (the pointer may be nil), an error
    wrapped by [fmt.Errorf] with [%w], and errors made by other packages
    ([os], [net/http], [context]). *)
Inductive error :=
| ErrDeviceIDMissing
| ErrImagePayloadMissing
| ErrTitleMissing
| ErrMessageMissing
| APIErrorPtr (p : option APIError.t)
| Errorf (format : string) (err : error)
| OtherError (msg : string).

Inductive result (A : Type) :=
| Ok (a : A)
| Err (e : error).
Arguments Ok {A} a.
Arguments Err {A} e.

(** [IsRateLimitError].  [err] is an interface value, [None] for nil.  The
    answer is [None] when the call panics: the type assertion on [err]
    succeeds on a nil pointer to [APIError] and the field access then
    dereferences it. *)
Definition IsRateLimitError (err : option error) : option bool :=
  match err with
  | Some (APIErrorPtr p) =>
      match p with
      | Some ae => Some (APIError.StatusCode ae =? 429)
      | None => None
      end
  | _ => Some false
  end.

(** [IsAuthError]. *)
Definition IsAuthError (err : option error) : option bool :=
  match err with
  | Some (APIErrorPtr p) =>
      match p with
      | Some ae =>
          Some ((APIError.StatusCode ae =? 401) || (APIError.StatusCode ae =? 403))
      | None => None
      end
  | _ => Some false
  end.

(** [isJSONObject]. *)
Definition isJSONObject (s : string) : bool :=
  (0 <? Z.of_nat (String.length s))
  && strings.HasPrefix s "{" && strings.HasSuffix s "}".

(** [tryParseJSON]: the map, or [None] for the nil map it returns when
    [Unmarshal] fails or leaves the map nil. *)
Definition tryParseJSON (body : list byte) : option (gmap string json.any) :=
  match json.Unmarshal_map body with
  | Some obj => obj
  | None => None
  end.

(** [formatCode]. *)
Definition formatCode (v : json.any) : string :=
  match v with
  | json.anyString t => strings.TrimSpace t
  | json.anyFloat64 t => strconv.Itoa (float64.to_int t)
  | _ => ""
  end.

(** The assertion [v, ok := x.(string)] on the result of a map lookup. *)
Definition assertString (x : option json.any) : string * bool :=
  match x with
  | Some (json.anyString v) => (v, true)
  | _ => ("", false)
  end.

Definition nonEmpty (s : string) : bool := negb (String.eqb s "").

(** [extractErrorFields]; the updated [*ae] is returned. *)
Definition extractErrorFields (ae : APIError.t) (obj : gmap string json.any)
    (fallback : string) : APIError.t :=
  let message :=
    let '(v, ok) := assertString (obj !! "message") in
    if ok && nonEmpty v then v else
    let '(v, ok) := assertString (obj !! "error") in
    if ok && nonEmpty v then v else fallback in
  let code :=
    match obj !! "code" with
    | Some v => formatCode v
    | None => APIError.Code ae
    end in
  APIError.mk (APIError.StatusCode ae) code message (APIError.RawBody ae).

(** [buildAPIError]. *)
Definition buildAPIError (status : Z) (body : list byte) : error :=
  let trimmed := strings.TrimSpace (go_string body) in
  let ae := APIError.mk status "" trimmed body in
  let ae :=
    if isJSONObject trimmed then
      match tryParseJSON body with
      | Some obj => extractErrorFields ae obj trimmed
      | None => ae
      end
    else ae in
  APIErrorPtr (Some ae).

(** [APIError.Error], on a receiver that is not nil. *)
Definition APIError_Error (e : APIError.t) : string :=
  let b := "quote0: API error (status=" +:+ strconv.Itoa (APIError.StatusCode e) in
  let b := if nonEmpty (APIError.Code e) then b +:+ ", code=" +:+ APIError.Code e else b in
  let b := b +:+ ")" in
  let m := strings.TrimSpace (APIError.Message e) in
  if nonEmpty m then b +:+ ": " +:+ m else b.

(** ** ratelimit.go *)

Module time.

Definition Second : Z := 1000000000.
Definition minDuration : Z := - 2 ^ 63.
Definition maxDuration : Z := 2 ^ 63 - 1.

(** A [time.Time] is the number of nanoseconds since the zero [Time]. *)
Definition IsZero (t : Z) : bool := t =? 0.
Definition Before (t u : Z) : bool := t <? u.
Definition Add (t d : Z) : Z := t + d.

(** [t.Sub(u)]: a [Duration], which saturates. *)
Definition Sub (t u : Z) : Z := Z.max minDuration (Z.min maxDuration (t - u)).

End time.

(** A [context.Context]: the instant at which its [Done] channel is closed
    ([None]: never) and the error [Err] reports from then on.  The channel
    of [Background] is never closed, and its [Err] is never asked for. *)
Module context.
Record Context := mk { DoneAt : option Z; Err : error }.
Definition Canceled : error := OtherError "context canceled".
Definition DeadlineExceeded : error := OtherError "context deadline exceeded".
Definition Background : Context := mk None Canceled.
End context.

(** [fixedIntervalLimiter]; the mutex is represented by the atomicity of
    [reserve]. *)
Record fixedIntervalLimiter := {
  next : Z;
  minInterval : Z
}.

(** The two receive cases of the [select] in [Wait]. *)
Inductive SelectCase :=
| CtxDone
| TimerC.

(** Which case of [select] proceeds.  The timer is started for [wait]
    after [now] and fires no earlier than [now + wait]; a context that is
    done before that instant makes its case the only ready one.  Otherwise
    the choice belongs to the scheduler and is given by [race]. *)
Definition select (ctx : context.Context) (fire : Z) (race : SelectCase) : SelectCase :=
  match context.DoneAt ctx with
  | None => TimerC
  | Some d => if d <? fire then CtxDone else race
  end.

(** The part of [Wait] between [l.mu.Lock()] and [l.mu.Unlock()], at clock
    reading [now]: the time to wait, the instant [start] allotted to the
    caller, and the limiter with [next] advanced. *)
Definition reserve (l : fixedIntervalLimiter) (now : Z) : Z * Z * fixedIntervalLimiter :=
  let '(wait, start) :=
    if negb (time.IsZero (next l)) && time.Before now (next l)
    then (time.Sub (next l) now, next l)
    else (0, now) in
  (wait, start, {| next := time.Add start (minInterval l); minInterval := minInterval l |}).

(** The method [Wait] of [fixedIntervalLimiter], with the time it takes:
    the limiter after the call, the error returned, and the instant at
    which the call returns.  A caller with nothing to wait for returns at
    once.  A caller that waits is held by the [select]: it returns when
    its timer fires, which is [wait] after [now] at the earliest (the
    instant given here), or when its context is done (at once, if it was
    done already). *)
Definition fixedIntervalLimiter_Wait_timed (l : fixedIntervalLimiter) (now : Z)
    (race : SelectCase) (ctx : context.Context)
    : fixedIntervalLimiter * option error * Z :=
  let '(wait, start, l') := reserve l now in
  if wait <=? 0 then (l', None, now)
  else
    let fire := now + wait in
    match select ctx fire race with
    | CtxDone =>
        (l', Some (context.Err ctx),
         match context.DoneAt ctx with
         | Some d => Z.max now d
         | None => fire
         end)
    | TimerC => (l', None, fire)
    end.

(** What [Wait] leaves and returns: the limiter after the call and the
    error. *)
Definition fixedIntervalLimiter_Wait (l : fixedIntervalLimiter) (now : Z)
    (race : SelectCase) (ctx : context.Context) : fixedIntervalLimiter * option error :=
  fst (fixedIntervalLimiter_Wait_timed l now race ctx).

(** The instant [Wait] allots to a caller that takes the lock at [now]:
    its scheduled release. *)
Definition allotted (l : fixedIntervalLimiter) (now : Z) : Z :=
  let '(_, start, _) := reserve l now in start.

(** A call of [Wait]: the reading of the clock under the lock, the choice
    of the scheduler, and the context of the caller. *)
Definition call : Type := Z * SelectCase * context.Context.

(** The instants allotted to calls of [Wait] on one limiter, the calls
    listed in the order in which they take the lock. *)
Fixpoint allotments (l : fixedIntervalLimiter) (calls : list call) : list Z :=
  match calls with
  | [] => []
  | (now, race, ctx) :: rest =>
      allotted l now :: allotments (fst (fixedIntervalLimiter_Wait l now race ctx)) rest
  end.

(** The instants at which the calls of such a sequence are let through:
    for each call the instant at which it returns nil, and [None] for a
    call that returns the error of its context. *)
Fixpoint releases (l : fixedIntervalLimiter) (calls : list call) : list (option Z) :=
  match calls with
  | [] => []
  | (now, race, ctx) :: rest =>
      let '(l', err, instant) := fixedIntervalLimiter_Wait_timed l now race ctx in
      match err with
      | None => Some instant
      | Some _ => None
      end :: releases l' rest
  end.

(** The implementations of the interface [RateLimiter]: a pointer to a
    [fixedIntervalLimiter], or a [RateLimiterFunc] (which may be nil). *)
Inductive RateLimiter :=
| FixedInterval (l : fixedIntervalLimiter)
| RateLimiterFunc (f : option (context.Context -> option error)).

(** [NewFixedIntervalLimiter]. *)
Definition NewFixedIntervalLimiter (interval : Z) : RateLimiter :=
  let interval := if interval <=? 0 then time.Second else interval in
  FixedInterval {| next := 0; minInterval := interval |}.

(** [Wait] through the interface. *)
Definition RateLimiter_Wait (l : RateLimiter) (now : Z) (race : SelectCase)
    (ctx : context.Context) : RateLimiter * option error :=
  match l with
  | FixedInterval fl =>
      let '(fl', err) := fixedIntervalLimiter_Wait fl now race ctx in
      (FixedInterval fl', err)
  | RateLimiterFunc None => (l, None)
  | RateLimiterFunc (Some f) => (l, f ctx)
  end.

(** ** The request schemas (text.go, image.go) *)

Module TextRequest.
Record t := mk {
  RefreshNow : option bool;
  DeviceID : string;
  Title : string;
  Message : string;
  Signature : string;
  Icon : string;
  Link : string
}.
Definition withDeviceID (r : t) (did : string) : t :=
  mk (RefreshNow r) did (Title r) (Message r) (Signature r) (Icon r) (Link r).
End TextRequest.

Definition BorderWhite : Z := 0.
Definition BorderBlack : Z := 1.

Module ImageRequest.
Record t := mk {
  RefreshNow : option bool;
  DeviceID : string;
  Image : string;
  ImageBytes : list byte;
  ImagePath : string;
  Link : string;
  Border : Z;
  DitherType : string;
  DitherKernel : string
}.
Definition withDeviceID (r : t) (did : string) : t :=
  mk (RefreshNow r) did (Image r) (ImageBytes r) (ImagePath r) (Link r)
     (Border r) (DitherType r) (DitherKernel r).
Definition withImage (r : t) (img : string) : t :=
  mk (RefreshNow r) (DeviceID r) img (ImageBytes r) (ImagePath r) (Link r)
     (Border r) (DitherType r) (DitherKernel r).
Definition withImageBytes (r : t) (b : list byte) : t :=
  mk (RefreshNow r) (DeviceID r) (Image r) b (ImagePath r) (Link r)
     (Border r) (DitherType r) (DitherKernel r).
Definition withImagePath (r : t) (path : string) : t :=
  mk (RefreshNow r) (DeviceID r) (Image r) (ImageBytes r) path (Link r)
     (Border r) (DitherType r) (DitherKernel r).
End ImageRequest.

(** [TextRequest.validate]. *)
Definition TextRequest_validate (r : TextRequest.t) : option error :=
  if String.eqb (strings.TrimSpace (TextRequest.DeviceID r)) ""
  then Some ErrDeviceIDMissing
  else None.

(** [ImageRequest.validate]. *)
Definition ImageRequest_validate (r : ImageRequest.t) : option error :=
  if String.eqb (strings.TrimSpace (ImageRequest.DeviceID r)) ""
  then Some ErrDeviceIDMissing
  else if String.eqb (strings.TrimSpace (ImageRequest.Image r)) ""
  then Some ErrImagePayloadMissing
  else None.

(** ** package encoding/json: writing

    [json.Marshal] of the two request structs, as the JSON object it lays
    out: the members in the order of the fields, each under the name of its
    [json] tag.  The bytes that spell the members are those of
    [encoding/json]. *)

Inductive wire :=
| WBool (b : bool)
| WInt (n : Z)
| WString (s : string).

(** A field whose tag carries [omitempty]. *)
Definition omitempty_ptr (name : string) (v : option bool) : list (string * wire) :=
  match v with
  | None => []
  | Some b => [(name, WBool b)]
  end.

Definition omitempty_string (name v : string) : list (string * wire) :=
  if String.eqb v "" then [] else [(name, WString v)].

Definition omitempty_int (name : string) (v : Z) : list (string * wire) :=
  if v =? 0 then [] else [(name, WInt v)].

Definition Marshal_TextRequest (r : TextRequest.t) : list (string * wire) :=
  omitempty_ptr "refreshNow" (TextRequest.RefreshNow r)
  ++ [("deviceId", WString (TextRequest.DeviceID r))]
  ++ omitempty_string "title" (TextRequest.Title r)
  ++ omitempty_string "message" (TextRequest.Message r)
  ++ omitempty_string "signature" (TextRequest.Signature r)
  ++ omitempty_string "icon" (TextRequest.Icon r)
  ++ omitempty_string "link" (TextRequest.Link r).

Definition Marshal_ImageRequest (r : ImageRequest.t) : list (string * wire) :=
  omitempty_ptr "refreshNow" (ImageRequest.RefreshNow r)
  ++ [("deviceId", WString (ImageRequest.DeviceID r))]
  ++ [("image", WString (ImageRequest.Image r))]
  ++ omitempty_string "link" (ImageRequest.Link r)
  ++ omitempty_int "border" (ImageRequest.Border r)
  ++ omitempty_string "ditherType" (ImageRequest.DitherType r)
  ++ omitempty_string "ditherKernel" (ImageRequest.DitherKernel r).

(** The [payload interface{}] of [doJSON]. *)
Inductive payload :=
| TextPayload (r : TextRequest.t)
| ImagePayload (r : ImageRequest.t).

(** [json.Marshal(payload)]; it has no failing case on these two types. *)
Definition json_Marshal (p : payload) : result (list (string * wire)) :=
  match p with
  | TextPayload r => Ok (Marshal_TextRequest r)
  | ImagePayload r => Ok (Marshal_ImageRequest r)
  end.

(** The member named [name] of a marshalled object. *)
Fixpoint member (name : string) (obj : list (string * wire)) : option wire :=
  match obj with
  | [] => None
  | (k, v) :: obj' => if String.eqb k name then Some v else member name obj'
  end.

(** What the text written for a string denotes.  [json.Marshal] writes a
    string coerced to valid UTF-8: going through the string rune by rune
    it copies the bytes of a well-formed encoding, and for a byte that
    starts none ([DecodeRune] gives [RuneError] and the width 1) it writes
    the escape of the replacement rune.  The other escapes it writes (for
    the quote, the backslash, control characters, the characters of HTML
    and the two line separators) denote the character they stand for.
    [skip] counts the bytes left of the encoding that is being copied. *)
Fixpoint coerceUTF8 (skip : nat) (p : list byte) : list byte :=
  match p with
  | [] => []
  | b :: p' =>
      match skip with
      | S k => b :: coerceUTF8 k p'
      | O =>
          let '(r, size) := utf8.DecodeRune p in
          if (r =? utf8.RuneError) && (size =? 1)%nat
          then utf8.AppendRune utf8.RuneError ++ coerceUTF8 0 p'
          else b :: coerceUTF8 (size - 1) p'
      end
  end.

Definition coerceString (s : string) : string := go_string (coerceUTF8 0 (go_bytes s)).

(** The value of a member as a reader of the body gets it. *)
Definition written (v : wire) : wire :=
  match v with
  | WString s => WString (coerceString s)
  | WBool _ | WInt _ => v
  end.

(** The object that the bytes of a body spell. *)
Definition writtenBody (obj : list (string * wire)) : list (string * wire) :=
  map (fun m => (m.1, written m.2)) obj.

(** ** client.go *)

Definition DefaultBaseURL : string := "https://dot.mindreset.tech".
Definition textEndpoint : string := "/api/open/text".
Definition imageEndpoint : string := "/api/open/image".
Definition userAgentProduct : string := "quote0-go-sdk".
Definition userAgentVersion : string := "1.0".
Definition maxResponseBodySize : Z := 4194304.

Module APIResponse.
Record t := mk {
  Code : Z;
  Message : string;
  (** a [json.RawMessage] *)
  Result : list byte;
  StatusCode : Z;
  RawBody : list byte
}.
Definition withCode (r : t) (c : Z) : t :=
  mk c (Message r) (Result r) (StatusCode r) (RawBody r).
Definition withMessage (r : t) (m : string) : t :=
  mk (Code r) m (Result r) (StatusCode r) (RawBody r).
Definition withResult (r : t) (x : list byte) : t :=
  mk (Code r) (Message r) x (StatusCode r) (RawBody r).
End APIResponse.

(** One member of a JSON object stored into a [*APIResponse]: the updated
    struct, and [false] when [Unmarshal] records a type error for it.  The
    fields tagged [json:"-"] are never selected. *)
Definition storeField (out : APIResponse.t) (key : string) (raw : list byte)
    (v : json.Value) : APIResponse.t * bool :=
  if json.fieldMatch "code" key then
    match v with
    | json.Number lit =>
        match json.ParseInt lit with
        | Some n => (APIResponse.withCode out n, true)
        | None => (out, false)
        end
    | json.Null => (out, true)
    | _ => (out, false)
    end
  else if json.fieldMatch "message" key then
    match v with
    | json.Str s => (APIResponse.withMessage out s, true)
    | json.Null => (out, true)
    | _ => (out, false)
    end
  else if json.fieldMatch "result" key then (APIResponse.withResult out raw, true)
  else (out, true).

(** [json.Unmarshal(raw, out)] for [out *APIResponse]: the struct after the
    call and the error.  A syntax error leaves the struct as it was; a type
    error is kept while the remaining members are still stored. *)
Definition Unmarshal_APIResponse (data : list byte) (out : APIResponse.t)
    : APIResponse.t * option error :=
  match json.parse data with
  | None => (out, Some (OtherError "json: syntax error"))
  | Some json.Null => (out, None)
  | Some (json.Object ms) =>
      let '(out', ok) :=
        fold_left
          (fun (acc : APIResponse.t * bool) (m : string * (list byte * json.Value)) =>
             let '(o, ok) := acc in
             let '(key, (raw, v)) := m in
             let '(o', ok') := storeField o key raw v in
             (o', ok && ok'))
          ms (out, true) in
      (out', if ok then None else Some (OtherError "json: cannot unmarshal"))
  | Some _ => (out, Some (OtherError "json: cannot unmarshal"))
  end.

(** [Client].  The field [http] is represented by the transport of the
    environment ([http_Do] below); the lock [mu] by the atomicity of the
    functions that read or write [defaultDevice]. *)
Record Client := {
  baseURL : string;
  apiKey : string;
  limiter : option RateLimiter;
  userAgent : string;
  defaultDevice : string
}.

Definition ClientOption : Type := Client -> Client.

(** An [*http.Request] as [doJSON] builds it, and the [*http.Response] it
    reads: the status, the header, and the body as the bytes it delivers
    followed by the error, if any, that ends the stream. *)
Record Request := {
  Method : string;
  URL : string;
  Header : list (string * string);
  Body : list (string * wire)
}.

Module Response.
Record t := mk {
  StatusCode : Z;
  Header : gmap string (list string);
  Body : list byte;
  BodyErr : option error
}.
(** [Header.Get]. *)
Definition Get (r : t) (key : string) : string :=
  match Header r !! key with
  | Some (v :: _) => v
  | _ => ""
  end.
End Response.

(** What a dispatch consults outside the package: the clock and the
    scheduler (for the limiter), the file system, the HTTP transport, and
    the functions of the standard library that are taken as given. *)
Record Env := {
  time_Now : Z;
  select_race : SelectCase;
  (** [os.ReadFile] *)
  os_ReadFile : string -> result (list byte);
  (** [c.http.Do] *)
  http_Do : Request -> result Response.t;
  (** the error of [http.NewRequestWithContext] on a URL it rejects *)
  http_NewRequest : string -> option error;
  (** [strings.ToLower] (Unicode case mapping) *)
  strings_ToLower : string -> string;
  (** [runtime.Version()], [runtime.GOOS], [runtime.GOARCH] *)
  runtime_Version : string;
  runtime_GOOS : string;
  runtime_GOARCH : string
}.

(** What a dispatch does that can be observed from outside. *)
Inductive Event :=
| EvReadFile (path : string)
| EvLimiterWait (ctx : context.Context)
| EvHTTPDo (req : Request).

(** *** The dispatch monad: the client (whose limiter a dispatch advances),
    the events so far, and a result or an error. *)

Record World := {
  client : Client;
  trace : list Event
}.

Definition M (A : Type) : Type := World -> result A * World.

Definition ret {A} (a : A) : M A := fun w => (Ok a, w).
Definition fail {A} (e : error) : M A := fun w => (Err e, w).
Definition bind {A B} (m : M A) (k : A -> M B) : M B :=
  fun w => match m w with
           | (Ok a, w') => k a w'
           | (Err e, w') => (Err e, w')
           end.

Notation "'let*' x ':=' m 'in' k" := (bind m (fun x => k))
  (at level 10, x name, m at level 100, k at level 200).

Definition getClient : M Client := fun w => (Ok (client w), w).
Definition emit (e : Event) : M unit :=
  fun w => (Ok tt, {| client := client w; trace := trace w ++ [e] |}).
Definition withLimiter (c : Client) (l : RateLimiter) : Client :=
  {| baseURL := baseURL c; apiKey := apiKey c; limiter := Some l;
     userAgent := userAgent c; defaultDevice := defaultDevice c |}.
Definition setLimiter (l : RateLimiter) : M unit :=
  fun w => (Ok tt, {| client := withLimiter (client w) l; trace := trace w |}).
Definition check (err : option error) : M unit :=
  match err with
  | Some e => fail e
  | None => ret tt
  end.
Definition lift {A} (r : result A) (wrap : error -> error) : M A :=
  match r with
  | Ok a => ret a
  | Err e => fail (wrap e)
  end.

(** *** helpers.go *)

Definition encodeBase64 (b : list byte) : string := base64.EncodeToString b.

Definition readFile (env : Env) (path : string) : M (list byte) :=
  let* _ := emit (EvReadFile path) in
  lift (os_ReadFile env path) (Errorf "quote0: read image file: %w").

(** *** Construction and the default device *)

Definition sanitizeBaseURL (baseURL : string) : string :=
  let baseURL := strings.TrimSpace baseURL in
  if String.eqb baseURL "" then DefaultBaseURL else strings.TrimRight baseURL "/".

Definition buildDefaultUserAgent (env : Env) : string :=
  let goVer := strings.TrimPrefix (runtime_Version env) "go" in
  let goVer := if String.eqb goVer "" then runtime_Version env else goVer in
  userAgentProduct +:+ "/" +:+ userAgentVersion
    +:+ " (+https://github.com/1set/quote0; Go" +:+ goVer +:+ "; "
    +:+ runtime_GOOS env +:+ "/" +:+ runtime_GOARCH env +:+ ")".

Definition WithBaseURL (u : string) : ClientOption :=
  fun c => {| baseURL := u; apiKey := apiKey c; limiter := limiter c;
              userAgent := userAgent c; defaultDevice := defaultDevice c |}.

Definition WithRateLimiter (l : option RateLimiter) : ClientOption :=
  fun c => {| baseURL := baseURL c; apiKey := apiKey c; limiter := l;
              userAgent := userAgent c; defaultDevice := defaultDevice c |}.

Definition WithUserAgent (ua : string) : ClientOption :=
  fun c => {| baseURL := baseURL c; apiKey := apiKey c; limiter := limiter c;
              userAgent := ua; defaultDevice := defaultDevice c |}.

(** [SetDefaultDeviceID]; [WithDefaultDeviceID] is the same assignment as
    an option. *)
Definition SetDefaultDeviceID (c : Client) (deviceID : string) : Client :=
  {| baseURL := baseURL c; apiKey := apiKey c; limiter := limiter c;
     userAgent := userAgent c; defaultDevice := strings.TrimSpace deviceID |}.

Definition WithDefaultDeviceID (deviceID : string) : ClientOption :=
  fun c => SetDefaultDeviceID c deviceID.

Definition GetDefaultDeviceID (c : Client) : string := defaultDevice c.

(** [NewClient]; a nil option is [None]. *)
Definition NewClient (env : Env) (key : string) (opts : list (option ClientOption))
    : result Client :=
  let key := strings.TrimSpace key in
  if String.eqb key "" then Err (OtherError "quote0: API token is required") else
  let c := {| baseURL := DefaultBaseURL; apiKey := key;
              limiter := Some (NewFixedIntervalLimiter time.Second);
              userAgent := buildDefaultUserAgent env; defaultDevice := "" |} in
  let c := fold_left (fun c opt => match opt with Some f => f c | None => c end) opts c in
  Ok (WithBaseURL (sanitizeBaseURL (baseURL c)) c).

(** *** Dispatch *)

(** [resolveDeviceID]. *)
Definition resolveDeviceID (explicit : string) : M string :=
  let explicit := strings.TrimSpace explicit in
  if nonEmpty explicit then ret explicit else
  let* c := getClient in
  let id := strings.TrimSpace (defaultDevice c) in
  if String.eqb id "" then fail ErrDeviceIDMissing else ret id.

(** [c.limiter.Wait(ctx)] on the limiter the client holds. *)
Definition limiterWait (env : Env) (l : RateLimiter) (ctx : context.Context) : M unit :=
  let* _ := emit (EvLimiterWait ctx) in
  let '(l', err) := RateLimiter_Wait l (time_Now env) (select_race env) ctx in
  let* _ := setLimiter l' in
  check err.

(** [io.ReadAll(io.LimitReader(resp.Body, maxResponseBodySize))]: the
    limited reader stops at the cap without reading further, so an error of
    the stream is met only when the body is shorter than the cap. *)
Definition readBody (resp : Response.t) : result (list byte) :=
  if maxResponseBodySize <=? Z.of_nat (length (Response.Body resp))
  then Ok (take (Z.to_nat maxResponseBodySize) (Response.Body resp))
  else match Response.BodyErr resp with
       | Some e => Err e
       | None => Ok (Response.Body resp)
       end.

(** The end of [doJSON], from the test of the status on: the response
    [resp], whose body was read as [raw], turned into the result of the
    dispatch. *)
Definition decodeResponse (env : Env) (resp : Response.t) (raw : list byte)
    : result APIResponse.t :=
  let status := Response.StatusCode resp in
  if (status <? 200) || (300 <=? status) then Err (buildAPIError status raw) else
  let out := APIResponse.mk 0 "" [] status raw in
  if (length raw =? 0)%nat then Ok out else
  let ct := strings_ToLower env (Response.Get resp "Content-Type") in
  let fallback (out : APIResponse.t) :=
    Ok (APIResponse.withMessage out (strings.TrimSpace (go_string raw))) in
  if strings.Contains ct "application/json" then
    match Unmarshal_APIResponse raw out with
    | (out', None) => Ok out'
    | (out', Some _) => fallback out'
    end
  else fallback out.

(** [if ctx == nil { ctx = context.Background() }]. *)
Definition orBackground (ctx : option context.Context) : context.Context :=
  match ctx with
  | Some c => c
  | None => context.Background
  end.

(** The request [doJSON] builds for [url]: a POST with the bearer token,
    the JSON content type and, unless it is blank, the user agent. *)
Definition request (c : Client) (url : string) (body : list (string * wire)) : Request :=
  let ua := strings.TrimSpace (userAgent c) in
  {| Method := "POST"; URL := url;
     Header := [("Authorization", "Bearer " +:+ apiKey c);
                ("Content-Type", "application/json")]
               ++ (if nonEmpty ua then [("User-Agent", ua)] else []);
     Body := body |}.

(** [doJSON]; a nil [ctx] is [None]. *)
Definition doJSON (env : Env) (ctx : option context.Context) (endpoint : string)
    (p : payload) : M APIResponse.t :=
  let ctx := orBackground ctx in
  let* c := getClient in
  let* _ := match limiter c with
            | Some l => limiterWait env l ctx
            | None => ret tt
            end in
  let* body := lift (json_Marshal p) (Errorf "quote0: encode request: %w") in
  let url := baseURL c +:+ endpoint in
  let* _ := check (option_map (Errorf "quote0: build request: %w")
                              (http_NewRequest env url)) in
  let req := request c url body in
  let* _ := emit (EvHTTPDo req) in
  let* resp := lift (http_Do env req) (Errorf "quote0: execute request: %w") in
  let* raw := lift (readBody resp) (Errorf "quote0: read response: %w") in
  lift (decodeResponse env resp raw) (fun e => e).

(** [SendText]. *)
Definition SendText (env : Env) (ctx : option context.Context) (payload : TextRequest.t)
    : M APIResponse.t :=
  let* did := resolveDeviceID (TextRequest.DeviceID payload) in
  let payload := TextRequest.withDeviceID payload did in
  let* _ := check (TextRequest_validate payload) in
  doJSON env ctx textEndpoint (TextPayload payload).

(** [SendTextToDevice]. *)
Definition SendTextToDevice (env : Env) (ctx : option context.Context)
    (deviceID : string) (payload : TextRequest.t) : M APIResponse.t :=
  SendText env ctx (TextRequest.withDeviceID payload deviceID).


(** The block of [SendImage] that normalises the image data: precedence
    [Image] > [ImageBytes] > [ImagePath]. *)
Definition normalizeImage (env : Env) (payload : ImageRequest.t) : M ImageRequest.t :=
  if String.eqb (strings.TrimSpace (ImageRequest.Image payload)) "" then
    if (0 <? length (ImageRequest.ImageBytes payload))%nat then
      ret (ImageRequest.withImage payload (encodeBase64 (ImageRequest.ImageBytes payload)))
    else
      let p := strings.TrimSpace (ImageRequest.ImagePath payload) in
      if nonEmpty p then
        let* data := readFile env p in
        ret (ImageRequest.withImage payload (encodeBase64 data))
      else ret payload
  else ret payload.

(** [SendImage]. *)
Definition SendImage (env : Env) (ctx : option context.Context) (payload : ImageRequest.t)
    : M APIResponse.t :=
  let* did := resolveDeviceID (ImageRequest.DeviceID payload) in
  let payload := ImageRequest.withDeviceID payload did in
  let* payload := normalizeImage env payload in
  let* _ := check (ImageRequest_validate payload) in
  doJSON env ctx imageEndpoint (ImagePayload payload).

(** [SendImageToDevice]. *)
Definition SendImageToDevice (env : Env) (ctx : option context.Context)
    (deviceID : string) (payload : ImageRequest.t) : M APIResponse.t :=
  SendImage env ctx (ImageRequest.withDeviceID payload deviceID).


(** [SendImageBytes]. *)
Definition SendImageBytes (env : Env) (ctx : option context.Context) (png : list byte)
    (meta : ImageRequest.t) : M APIResponse.t :=
  let meta := ImageRequest.withImage meta "" in
  let meta := ImageRequest.withImageBytes meta png in
  SendImage env ctx meta.

(** [SendImageFile]. *)
Definition SendImageFile (env : Env) (ctx : option context.Context) (path : string)
    (meta : ImageRequest.t) : M APIResponse.t :=
  let meta := ImageRequest.withImage meta "" in
  let meta := ImageRequest.withImagePath meta path in
  SendImage env ctx meta.

(** The world after one more event. *)
Definition addEvent (w : World) (e : Event) : World :=
  {| client := client w; trace := trace w ++ [e] |}.

(** Running a dispatch on a client, from an empty trace. *)
Definition run {A} (m : M A) (c : Client) : result A * World :=
  m {| client := c; trace := [] |}.

(** ** cmd/q0/main.go: the command-line tool

    The tool parses its flags with package [flag]; what [fs.Parse] leaves
    in the flag variables (the defaults of [-token] and [-device] are the
    environment variables [QUOTE0_TOKEN] and [QUOTE0_DEVICE]) is taken as
    given, like the other things the tool asks of its surroundings. *)

Module TextFlags.
Record t := mk {
  token : string;
  device : string;
  title : string;
  message : string;
  signature : string;
  autoSignature : bool;
  icon : string;
  iconFile : string;
  link : string;
  refresh : bool
}.
End TextFlags.

Module ImageFlags.
Record t := mk {
  token : string;
  device : string;
  image : string;
  imageFile : string;
  link : string;
  border : Z;
  ditherType : string;
  ditherKernel : string;
  refresh : bool
}.
End ImageFlags.

Record Shell := {
  (** [fs.Parse(args)] on the flag set of [text] and of [image] *)
  parseText : list string -> result TextFlags.t;
  parseImage : list string -> result ImageFlags.t;
  (** [strings.ToUpper] (Unicode case mapping) *)
  strings_ToUpper : string -> string;
  (** the name [os.Hostname] returns, empty when it fails *)
  os_Hostname : string;
  (** [time.Now()]: month, day, hour, minute and second *)
  clock : Z * Z * Z * Z * Z
}.

(** What a run of a command leaves behind: the error it returns, the files
    read and the calls made, and what it printed on standard output. *)
Module Outcome.
Record t := mk {
  err : option error;
  events : list Event;
  stdout : string
}.
End Outcome.

Module q0.

Definition failed (e : error) (evs : list Event) : Outcome.t :=
  Outcome.mk (Some e) evs "".

(** The verb [%02d] of [fmt]. *)
Definition pad2 (n : Z) : string :=
  let s := strconv.Itoa n in
  if (String.length s <? 2)%nat then "0" +:+ s else s.

Definition newline : string := String (ascii_of_nat 10) "".

(** [loadBase64], with the file it reads. *)
Definition loadBase64 (env : Env) (raw file label : string) : result string * list Event :=
  let raw := strings.TrimSpace raw in
  let file := strings.TrimSpace file in
  if nonEmpty raw && nonEmpty file then
    (Err (OtherError ("provide either -" +:+ label +:+ " or -" +:+ label
                      +:+ "-file, not both")), [])
  else if nonEmpty raw then (Ok raw, [])
  else if nonEmpty file then
    match os_ReadFile env file with
    | Err e => (Err e, [EvReadFile file])
    | Ok data => (Ok (base64.EncodeToString data), [EvReadFile file])
    end
  else (Ok "", []).

(** The signature [runText] makes up: [hostname@MM-DD HH:MM:SS]. *)
Definition autoSignature (sh : Shell) : string :=
  let hostname := if String.eqb (os_Hostname sh) "" then "localhost" else os_Hostname sh in
  let '(month, day, hour, minute, second) := clock sh in
  hostname +:+ "@" +:+ pad2 month +:+ "-" +:+ pad2 day +:+ " "
    +:+ pad2 hour +:+ ":" +:+ pad2 minute +:+ ":" +:+ pad2 second.

(** [runText]. *)
Definition runText (sh : Shell) (env : Env) (args : list string) : Outcome.t :=
  match parseText sh args with
  | Err e => failed e []
  | Ok f =>
      if String.eqb (strings.TrimSpace (TextFlags.token f)) "" then
        failed (OtherError "missing API token (use -token or QUOTE0_TOKEN)") []
      else if String.eqb (strings.TrimSpace (TextFlags.device f)) "" then
        failed (OtherError "missing device serial (use -device or QUOTE0_DEVICE)") []
      else
        match loadBase64 env (TextFlags.icon f) (TextFlags.iconFile f) "icon" with
        | (Err e, evs) => failed e evs
        | (Ok iconData, evs) =>
            match NewClient env (TextFlags.token f)
                    [Some (WithDefaultDeviceID (TextFlags.device f))] with
            | Err e => failed e evs
            | Ok c =>
                let sig := strings.TrimSpace (TextFlags.signature f) in
                let sig := if String.eqb sig "" && TextFlags.autoSignature f
                           then autoSignature sh else sig in
                let req := TextRequest.mk (Some (TextFlags.refresh f)) ""
                             (TextFlags.title f) (TextFlags.message f) sig iconData
                             (TextFlags.link f) in
                match SendText env (Some context.Background) req
                        {| client := c; trace := evs |} with
                | (Err e, w) => failed e (trace w)
                | (Ok resp, w) =>
                    Outcome.mk None (trace w)
                      ("Text sent (code=" +:+ strconv.Itoa (APIResponse.Code resp)
                       +:+ " message=" +:+ APIResponse.Message resp +:+ ")" +:+ newline)
                end
            end
        end
  end.

(** [runImage]. *)
Definition runImage (sh : Shell) (env : Env) (args : list string) : Outcome.t :=
  match parseImage sh args with
  | Err e => failed e []
  | Ok f =>
      let noImage := String.eqb (strings.TrimSpace (ImageFlags.image f)) "" in
      let noFile := String.eqb (strings.TrimSpace (ImageFlags.imageFile f)) "" in
      if String.eqb (strings.TrimSpace (ImageFlags.token f)) "" then
        failed (OtherError "missing API token (use -token or QUOTE0_TOKEN)") []
      else if String.eqb (strings.TrimSpace (ImageFlags.device f)) "" then
        failed (OtherError "missing device serial (use -device or QUOTE0_DEVICE)") []
      else if negb noImage && negb noFile then
        failed (OtherError "provide either -image or -image-file, not both") []
      else if noImage && noFile then
        failed (OtherError "provide -image or -image-file") []
      else
        match NewClient env (ImageFlags.token f)
                [Some (WithDefaultDeviceID (ImageFlags.device f))] with
        | Err e => failed e []
        | Ok c =>
            let req := ImageRequest.mk (Some (ImageFlags.refresh f)) "" "" [] ""
                         (ImageFlags.link f) (ImageFlags.border f)
                         (strings_ToUpper sh (strings.TrimSpace (ImageFlags.ditherType f)))
                         (strings_ToUpper sh (strings.TrimSpace (ImageFlags.ditherKernel f))) in
            let req := if negb noImage
                       then ImageRequest.withImage req (ImageFlags.image f)
                       else ImageRequest.withImagePath req (ImageFlags.imageFile f) in
            match SendImage env (Some context.Background) req
                    {| client := c; trace := [] |} with
            | (Err e, w) => failed e (trace w)
            | (Ok resp, w) =>
                Outcome.mk None (trace w)
                  ("Image sent (code=" +:+ strconv.Itoa (APIResponse.Code resp)
                   +:+ " message=" +:+ APIResponse.Message resp +:+ ")" +:+ newline)
            end
        end
  end.

End q0.

(** ** Values for the examples

    The values the tests of the package use: a client with default device
    [DEF] and no limiter, a server that answers [200] with a JSON envelope,
    and the four bytes of a PNG header as image. *)

Module Fixture.

(** JSON text written with an apostrophe for each double quote. *)
Definition js (s : string) : string :=
  of_chars (map (fun a => if Ascii.eqb a "'" then ascii_of_nat 34 else a) (chars s)).

(** [strings.ToLower] on ASCII. *)
Definition asciiLower (s : string) : string :=
  of_chars (map (fun a => let c := ascii_code a in
                          if (ch "A" <=? c) && (c <=? ch "Z")
                          then ascii_of_N (Z.to_N (c + 32)) else a)
                (chars s)).

Definition png : list byte := [x89; x50; x4e; x47].

Definition okResponse : Response.t :=
  Response.mk 200 {["Content-Type" := ["application/json; charset=utf-8"]]}
    (go_bytes (js "{'code':0,'message':'ok'}")) None.

Definition files (path : string) : result (list byte) :=
  if String.eqb path "img.png" then Ok png
  else Err (OtherError "open: no such file or directory").

Definition env : Env :=
  {| time_Now := 1000;
     select_race := CtxDone;
     os_ReadFile := files;
     http_Do := fun _ => Ok okResponse;
     http_NewRequest := fun _ => None;
     strings_ToLower := asciiLower;
     runtime_Version := "go1.22.0";
     runtime_GOOS := "linux";
     runtime_GOARCH := "amd64" |}.

(** A file system whose only file has a name that begins with a space. *)
Definition paddedFiles (path : string) : result (list byte) :=
  if String.eqb path " a.png" then Ok png
  else Err (OtherError "open: no such file or directory").

Definition paddedEnv : Env :=
  {| time_Now := 1000;
     select_race := CtxDone;
     os_ReadFile := paddedFiles;
     http_Do := fun _ => Ok okResponse;
     http_NewRequest := fun _ => None;
     strings_ToLower := asciiLower;
     runtime_Version := "go1.22.0";
     runtime_GOOS := "linux";
     runtime_GOARCH := "amd64" |}.

Definition defClient : Client :=
  {| baseURL := DefaultBaseURL; apiKey := "test"; limiter := None;
     userAgent := "quote0-go-sdk/1.0"; defaultDevice := "DEF" |}.

(** The same client with no default device. *)
Definition anonymous : Client := SetDefaultDeviceID defClient "".

(** The same client with the limiter [NewClient] installs. *)
Definition limited : Client := withLimiter defClient (NewFixedIntervalLimiter time.Second).

Definition world : World := {| client := defClient; trace := [] |}.
Definition nobody : World := {| client := anonymous; trace := [] |}.
Definition throttled : World := {| client := limited; trace := [] |}.

Definition image : ImageRequest.t := ImageRequest.mk None "" "" [] "" "" 0 "" "".

(** A context cancelled at instant 500, before the clock reading 1000 of
    [env]. *)
Definition cancelled : context.Context := context.mk (Some 500) context.Canceled.

(** A body that [TrimSpace] trims to a JSON object: a form feed, then the
    object. *)
Definition feedObject : string := js "{'message':'slow down'}".
Definition feedBody : list byte := x0c :: go_bytes feedObject.

End Fixture.

(** ** More values for the examples *)

Module Cases.

(** [Fixture.env] with another transport and another file system. *)
Definition served (files : string -> result (list byte))
    (transport : Request -> result Response.t) : Env :=
  {| time_Now := 1000;
     select_race := CtxDone;
     os_ReadFile := files;
     http_Do := transport;
     http_NewRequest := fun _ => None;
     strings_ToLower := Fixture.asciiLower;
     runtime_Version := "go1.22.0";
     runtime_GOOS := "linux";
     runtime_GOARCH := "amd64" |}.

(** A server that answers 429 in plain text, and no server at all. *)
Definition tooMany : Response.t :=
  Response.mk 429 ∅ (go_bytes "too many requests") None.
Definition busy : Env := served Fixture.files (fun _ => Ok tooMany).
Definition refused : error := OtherError "dial tcp: connection refused".
Definition offline : Env := served Fixture.files (fun _ => Err refused).

(** A file system whose only file is empty. *)
Definition emptyFiles (path : string) : result (list byte) :=
  if String.eqb path "empty.png" then Ok []
  else Err (OtherError "open: no such file or directory").
Definition hollow : Env := served emptyFiles (fun _ => Ok Fixture.okResponse).

(** A client whose limiter holds its next slot at instant 5000, after the
    clock reading 1000 of the environments. *)
Definition queued : World :=
  {| client := withLimiter Fixture.defClient
                 (FixedInterval {| next := 5000; minInterval := time.Second |});
     trace := [] |}.

(** [strings.ToUpper] on ASCII. *)
Definition asciiUpper (s : string) : string :=
  of_chars (map (fun a => let c := ascii_code a in
                          if (ch "a" <=? c) && (c <=? ch "z")
                          then ascii_of_N (Z.to_N (c - 32)) else a)
                (chars s)).

(** A shell in which the flags parse to [tf] and [imf], on a host without
    a name, on March 7th at 09:05:00. *)
Definition shell (tf : TextFlags.t) (imf : ImageFlags.t) : Shell :=
  {| parseText := fun _ => Ok tf;
     parseImage := fun _ => Ok imf;
     strings_ToUpper := asciiUpper;
     os_Hostname := "";
     clock := (3, 7, 9, 5, 0) |}.

Definition textFlags : TextFlags.t :=
  TextFlags.mk " tok " " DEV " "Title" "Hello" "  " true "" "" "" true.
Definition imageFlags : ImageFlags.t :=
  ImageFlags.mk " tok " " DEV " "iVBORw==" "" "" 1 " diffusion " "" true.

End Cases.

(** ** Vocabulary of the statements *)

(** A string is blank when trimming leaves nothing. *)
Definition blank (s : string) : Prop := strings.TrimSpace s = "".

(** A byte of ASCII that is not white space begins no white-space rune and
    ends none. *)
Definition plain (a : ascii) : bool :=
  (ascii_code a <? 128) && negb (strings.asciiSpace a).

(** The request with no field set. *)
Definition emptyText : TextRequest.t := TextRequest.mk None "" "" "" "" "" "".

(** What a field tagged [omitempty] contributes to the body. *)
Definition optional (v : string) : option wire :=
  if String.eqb v "" then None else Some (WString v).

(** Does the response declare a JSON content type?  The test [doJSON]
    makes on the header. *)
Definition declaresJSON (env : Env) (resp : Response.t) : bool :=
  strings.Contains (strings_ToLower env (Response.Get resp "Content-Type"))
    "application/json".

(** The three ways of handing bytes [b] to [SendImage], on a request [p]
    that supplies the other fields: as [ImageBytes], as the content of the
    file at [file], and as [Image] set to their base64 encoding. *)
Definition noSource (p : ImageRequest.t) : ImageRequest.t :=
  ImageRequest.withImagePath (ImageRequest.withImageBytes (ImageRequest.withImage p "") []) "".
Definition viaBytes (p : ImageRequest.t) (b : list byte) : ImageRequest.t :=
  ImageRequest.withImageBytes (noSource p) b.
Definition viaFile (p : ImageRequest.t) (file : string) : ImageRequest.t :=
  ImageRequest.withImagePath (noSource p) file.
Definition viaImage (p : ImageRequest.t) (b : list byte) : ImageRequest.t :=
  ImageRequest.withImage (noSource p) (encodeBase64 b).

(** What [doJSON] returns once the request [req] is handed to the
    transport: the steps from [c.http.Do] on. *)
Definition exchange (env : Env) (req : Request) : result APIResponse.t :=
  match http_Do env req with
  | Err e => Err (Errorf "quote0: execute request: %w" e)
  | Ok resp =>
      match readBody resp with
      | Err e => Err (Errorf "quote0: read response: %w" e)
      | Ok raw => decodeResponse env resp raw
      end
  end.

(** Two clients with the same configuration: everything but the state of
    the limiter. *)
Definition sameConfig (c c' : Client) : Prop :=
  baseURL c = baseURL c' /\ apiKey c = apiKey c' /\ userAgent c = userAgent c'
  /\ defaultDevice c = defaultDevice c'
  /\ (limiter c = None <-> limiter c' = None).

(** Requests whose strings are well-formed UTF-8. *)
Definition wellFormedText (r : TextRequest.t) : Prop :=
  Forall (fun s => utf8.ValidString s = true)
         [TextRequest.DeviceID r; TextRequest.Title r; TextRequest.Message r;
          TextRequest.Signature r; TextRequest.Icon r; TextRequest.Link r].

Definition wellFormedImage (r : ImageRequest.t) : Prop :=
  Forall (fun s => utf8.ValidString s = true)
         [ImageRequest.DeviceID r; ImageRequest.Image r; ImageRequest.Link r;
          ImageRequest.DitherType r; ImageRequest.DitherKernel r].

(** * Properties *)

(** ** Strings and bytes *)

Lemma of_chars_chars s : of_chars (chars s) = s.
Proof. apply String.string_of_list_ascii_of_string. Qed.

Lemma chars_of_chars l : chars (of_chars l) = l.
Proof. apply String.list_ascii_of_string_of_list_ascii. Qed.

Lemma go_string_bytes s : go_string (go_bytes s) = s.
Proof. apply String.string_of_list_byte_of_string. Qed.

Lemma go_bytes_string b : go_bytes (go_string b) = b.
Proof. apply String.list_byte_of_string_of_list_byte. Qed.

Lemma of_chars_nil_iff l : of_chars l = "" <-> l = [].
Proof.
  split; [|intros ->; reflexivity].
  intros H. rewrite <- (chars_of_chars l), H. reflexivity.
Qed.

Lemma eqb_empty_iff s : String.eqb s "" = true <-> s = "".
Proof. apply String.eqb_eq. Qed.

Lemma nonEmpty_true_iff s : nonEmpty s = true <-> s <> "".
Proof.
  unfold nonEmpty. rewrite negb_true_iff. split.
  - intros H ->. discriminate.
  - intros H. apply String.eqb_neq. exact H.
Qed.

Lemma nonEmpty_false_iff s : nonEmpty s = false <-> s = "".
Proof. unfold nonEmpty. rewrite negb_false_iff. apply String.eqb_eq. Qed.

(** *** Trimming *)

Section StripFacts.
Variable s1 : ascii -> bool.
Variable s2 : ascii -> ascii -> bool.
Variable s3 : ascii -> ascii -> ascii -> bool.

Local Abbreviation strip := (strings.strip s1 s2 s3).
Local Abbreviation lead := (strings.lead s1 s2 s3).

Lemma strip_nolead l : lead l = false -> strip l = l.
Proof.
  destruct l as [|a [|b [|c l]]]; simpl; try reflexivity.
  - destruct (s1 a); [discriminate | reflexivity].
  - destruct (s1 a); [discriminate|]. destruct (s2 a b); [discriminate | reflexivity].
  - destruct (s1 a); [discriminate|]. destruct (s2 a b); [discriminate|].
    destruct (s3 a b c); [discriminate | reflexivity].
Qed.

Lemma lead_strip_bounded n : forall l, (length l <= n)%nat -> lead (strip l) = false.
Proof.
  induction n as [|n IH]; intros l Hl.
  - destruct l; [reflexivity | simpl in Hl; lia].
  - destruct l as [|a l1]; [reflexivity|]. simpl in Hl.
    cbn [strings.strip]. destruct (s1 a) eqn:E1.
    { apply IH. lia. }
    destruct l1 as [|b l2].
    { simpl. rewrite E1. reflexivity. }
    simpl in Hl. destruct (s2 a b) eqn:E2.
    { apply IH. lia. }
    destruct l2 as [|c l3].
    { simpl. rewrite E1, E2. reflexivity. }
    simpl in Hl. destruct (s3 a b c) eqn:E3.
    { apply IH. lia. }
    simpl. rewrite E1, E2, E3. reflexivity.
Qed.

Lemma lead_strip l : lead (strip l) = false.
Proof. apply (lead_strip_bounded (length l)). lia. Qed.

Lemma strip_idem l : strip (strip l) = strip l.
Proof. apply strip_nolead, lead_strip. Qed.

Lemma strip_suffix_bounded n :
  forall l, (length l <= n)%nat -> exists p, l = p ++ strip l.
Proof.
  induction n as [|n IH]; intros l Hl.
  - destruct l; [exists []; reflexivity | simpl in Hl; lia].
  - destruct l as [|a l1]; [exists []; reflexivity|]. simpl in Hl.
    cbn [strings.strip]. destruct (s1 a).
    { destruct (IH l1) as [p Hp]; [lia|]. exists (a :: p). simpl. congruence. }
    destruct l1 as [|b l2]; [exists []; reflexivity|].
    simpl in Hl. destruct (s2 a b).
    { destruct (IH l2) as [p Hp]; [lia|]. exists (a :: b :: p). simpl. congruence. }
    destruct l2 as [|c l3]; [exists []; reflexivity|].
    simpl in Hl. destruct (s3 a b c).
    { destruct (IH l3) as [p Hp]; [lia|]. exists (a :: b :: c :: p). simpl. congruence. }
    exists []. reflexivity.
Qed.

Lemma strip_suffix l : exists p, l = p ++ strip l.
Proof. apply (strip_suffix_bounded (length l)). lia. Qed.

Lemma lead_app p q : lead p = true -> lead (p ++ q) = true.
Proof.
  destruct p as [|a [|b [|c p]]]; simpl; try discriminate.
  - destruct (s1 a); [reflexivity | discriminate].
  - destruct (s1 a); [reflexivity|]. simpl.
    destruct (s2 a b); [reflexivity | discriminate].
  - intros H. exact H.
Qed.

Lemma lead_cons_plain a l :
  s1 a = false -> (forall b, s2 a b = false) -> (forall b c, s3 a b c = false) ->
  lead (a :: l) = false.
Proof.
  intros H1 H2 H3. destruct l as [|b [|c l]]; simpl; rewrite H1; try reflexivity.
  - rewrite H2. reflexivity.
  - rewrite H2, H3. reflexivity.
Qed.
End StripFacts.

Lemma trimLeft_nolead l : strings.leadLeft l = false -> strings.trimLeft l = l.
Proof. apply strip_nolead. Qed.

Lemma leadLeft_trimLeft l : strings.leadLeft (strings.trimLeft l) = false.
Proof. apply lead_strip. Qed.

Lemma trimRight_prefix l : exists x, l = strings.trimRight l ++ x.
Proof.
  unfold strings.trimRight.
  destruct (strip_suffix strings.asciiSpace strings.space2r strings.space3r (rev l))
    as [p Hp].
  exists (rev p).
  rewrite <- rev_app_distr, <- Hp, rev_involutive. reflexivity.
Qed.

Lemma trimRight_idem l : strings.trimRight (strings.trimRight l) = strings.trimRight l.
Proof. unfold strings.trimRight. rewrite rev_involutive, strip_idem. reflexivity. Qed.

Lemma trimLeft_trimRight l :
  strings.leadLeft l = false -> strings.trimLeft (strings.trimRight l) = strings.trimRight l.
Proof.
  intros H. apply trimLeft_nolead.
  destruct (strings.leadLeft (strings.trimRight l)) eqn:E; [|reflexivity].
  destruct (trimRight_prefix l) as [x Hx].
  apply (lead_app _ _ _ _ x) in E. fold strings.leadLeft in E.
  rewrite <- Hx in E. congruence.
Qed.

(** [TrimSpace] leaves a trimmed string as it is. *)
Lemma TrimSpace_idem s :
  strings.TrimSpace (strings.TrimSpace s) = strings.TrimSpace s.
Proof.
  unfold strings.TrimSpace. rewrite chars_of_chars.
  rewrite trimLeft_trimRight by apply leadLeft_trimLeft.
  rewrite trimRight_idem. reflexivity.
Qed.

Lemma TrimSpace_empty : strings.TrimSpace "" = "".
Proof. reflexivity. Qed.

Lemma plain_leadLeft a l : plain a = true -> strings.leadLeft (a :: l) = false.
Proof.
  unfold plain. intros [Ha Hs]%andb_true_iff.
  apply negb_true_iff in Hs. apply Z.ltb_lt in Ha.
  apply lead_cons_plain; [exact Hs | |].
  - intros b. unfold strings.space2.
    replace (ascii_code a =? 194) with false by (symmetry; apply Z.eqb_neq; lia).
    reflexivity.
  - intros b c. unfold strings.space3.
    replace (ascii_code a =? 225) with false by (symmetry; apply Z.eqb_neq; lia).
    replace (ascii_code a =? 226) with false by (symmetry; apply Z.eqb_neq; lia).
    replace (ascii_code a =? 227) with false by (symmetry; apply Z.eqb_neq; lia).
    reflexivity.
Qed.

Lemma plain_leadRight a l :
  plain a = true ->
  strings.lead strings.asciiSpace strings.space2r strings.space3r (a :: l) = false.
Proof.
  unfold plain. intros [Ha Hs]%andb_true_iff.
  apply negb_true_iff in Hs. apply Z.ltb_lt in Ha.
  apply lead_cons_plain; [exact Hs | |].
  - intros b. unfold strings.space2r, strings.space2.
    replace (ascii_code a =? 133) with false by (symmetry; apply Z.eqb_neq; lia).
    replace (ascii_code a =? 160) with false by (symmetry; apply Z.eqb_neq; lia).
    apply andb_false_r.
  - intros b c. unfold strings.space3r, strings.space3.
    replace (ascii_code a =? 128) with false by (symmetry; apply Z.eqb_neq; lia).
    replace (128 <=? ascii_code a) with false by (symmetry; apply Z.leb_gt; lia).
    replace (ascii_code a =? 159) with false by (symmetry; apply Z.eqb_neq; lia).
    replace (ascii_code a =? 168) with false by (symmetry; apply Z.eqb_neq; lia).
    replace (ascii_code a =? 169) with false by (symmetry; apply Z.eqb_neq; lia).
    replace (ascii_code a =? 175) with false by (symmetry; apply Z.eqb_neq; lia).
    rewrite !andb_false_r. reflexivity.
Qed.

(** A string of plain bytes has nothing to trim. *)
Lemma trim_all_plain l :
  Forall (fun a => plain a = true) l -> strings.trimRight (strings.trimLeft l) = l.
Proof.
  intros Hall. destruct l as [|a l]; [reflexivity|].
  rewrite trimLeft_nolead.
  2:{ apply plain_leadLeft. inversion Hall; assumption. }
  unfold strings.trimRight.
  assert (Hrev : Forall (fun a => plain a = true) (rev (a :: l))).
  { apply Forall_forall. intros x Hx.
    rewrite Forall_forall in Hall. apply Hall.
    apply list_elem_of_In, in_rev, list_elem_of_In. exact Hx. }
  destruct (rev (a :: l)) as [|z r] eqn:E.
  - apply (f_equal (@rev ascii)) in E. rewrite rev_involutive in E. discriminate E.
  - rewrite strip_nolead.
    + rewrite <- E. apply rev_involutive.
    + apply plain_leadRight. inversion Hrev; assumption.
Qed.

Lemma TrimSpace_all_plain s :
  Forall (fun a => plain a = true) (chars s) -> strings.TrimSpace s = s.
Proof.
  intros H. unfold strings.TrimSpace. rewrite trim_all_plain by exact H.
  apply of_chars_chars.
Qed.

(** *** base64 *)

Lemma sextet_plain v : plain (base64.sextet v) = true.
Proof.
  unfold base64.sextet.
  assert (H : (Z.to_nat (Z.land v 63) < 64)%nat).
  { change 63 with (Z.ones 6). rewrite Z.land_ones by lia.
    pose proof (Z.mod_pos_bound v (2 ^ 6) ltac:(lia)). lia. }
  revert H. generalize (Z.to_nat (Z.land v 63)). intros n Hn.
  do 64 (destruct n as [|n]; [reflexivity|]). lia.
Qed.

Lemma encode_plain_bounded n :
  forall src, (length src <= n)%nat -> Forall (fun a => plain a = true) (base64.encode src).
Proof.
  induction n as [|n IH]; intros src Hn.
  - destruct src; [constructor | simpl in Hn; lia].
  - destruct src as [|b0 [|b1 [|b2 rest]]]; cbn [base64.encode].
    + constructor.
    + repeat constructor; apply sextet_plain.
    + repeat constructor; apply sextet_plain.
    + repeat (constructor; [apply sextet_plain|]).
      apply IH. simpl in Hn. lia.
Qed.

Lemma encode_plain src : Forall (fun a => plain a = true) (base64.encode src).
Proof. apply (encode_plain_bounded (length src)). lia. Qed.

Lemma encode_nil_iff src : base64.encode src = [] <-> src = [].
Proof.
  split; [|intros ->; reflexivity].
  destruct src as [|b0 [|b1 [|b2 rest]]]; cbn [base64.encode];
    [reflexivity | discriminate..].
Qed.

(** The encoding of a byte sequence has no white space to trim, and is
    empty only for the empty sequence. *)
Lemma TrimSpace_encodeBase64 b : strings.TrimSpace (encodeBase64 b) = encodeBase64 b.
Proof.
  apply TrimSpace_all_plain. unfold encodeBase64, base64.EncodeToString.
  rewrite chars_of_chars. apply encode_plain.
Qed.

Lemma encodeBase64_empty_iff b : encodeBase64 b = "" <-> b = [].
Proof.
  unfold encodeBase64, base64.EncodeToString.
  rewrite of_chars_nil_iff. apply encode_nil_iff.
Qed.

(** ** Device id resolution *)

Lemma resolveDeviceID_explicit explicit w :
  ~ blank explicit ->
  resolveDeviceID explicit w = (Ok (strings.TrimSpace explicit), w).
Proof.
  intros H. unfold resolveDeviceID.
  rewrite (proj2 (nonEmpty_true_iff _) H). reflexivity.
Qed.

Lemma resolveDeviceID_default explicit w :
  blank explicit -> ~ blank (defaultDevice (client w)) ->
  resolveDeviceID explicit w = (Ok (strings.TrimSpace (defaultDevice (client w))), w).
Proof.
  intros He Hd. unfold resolveDeviceID.
  rewrite (proj2 (nonEmpty_false_iff _) He).
  unfold bind, getClient.
  destruct (String.eqb _ "") eqn:E; [|reflexivity].
  apply String.eqb_eq in E. contradiction.
Qed.

Lemma resolveDeviceID_missing explicit w :
  blank explicit -> blank (defaultDevice (client w)) ->
  resolveDeviceID explicit w = (Err ErrDeviceIDMissing, w).
Proof.
  intros He Hd. unfold resolveDeviceID.
  rewrite (proj2 (nonEmpty_false_iff _) He).
  unfold bind, getClient. red in Hd. rewrite Hd. reflexivity.
Qed.

(** Whatever [resolveDeviceID] returns is trimmed and not empty, and the
    call leaves the world as it was. *)
Lemma resolveDeviceID_Ok explicit w did w' :
  resolveDeviceID explicit w = (Ok did, w') ->
  w' = w /\ strings.TrimSpace did = did /\ did <> "".
Proof.
  unfold resolveDeviceID.
  destruct (nonEmpty (strings.TrimSpace explicit)) eqn:E.
  - intros [= <- <-]. split; [reflexivity|]. split.
    + apply TrimSpace_idem.
    + apply nonEmpty_true_iff. exact E.
  - unfold bind, getClient.
    destruct (String.eqb _ "") eqn:E'; [discriminate|].
    intros [= <- <-]. split; [reflexivity|]. split.
    + apply TrimSpace_idem.
    + apply String.eqb_neq. exact E'.
Qed.

Lemma resolveDeviceID_Err explicit w e w' :
  resolveDeviceID explicit w = (Err e, w') ->
  w' = w /\ e = ErrDeviceIDMissing /\ blank explicit /\ blank (defaultDevice (client w)).
Proof.
  unfold resolveDeviceID.
  destruct (nonEmpty (strings.TrimSpace explicit)) eqn:E; [discriminate|].
  unfold bind, getClient.
  destruct (String.eqb _ "") eqn:E'; [|discriminate].
  intros [= <- <-]. repeat split.
  - apply nonEmpty_false_iff. exact E.
  - apply String.eqb_eq. exact E'.
Qed.

(** The default device id a client holds after [SetDefaultDeviceID] (or
    the option [WithDefaultDeviceID]) is stored trimmed. *)
Lemma SetDefaultDeviceID_trimmed c deviceID :
  strings.TrimSpace (GetDefaultDeviceID (SetDefaultDeviceID c deviceID))
  = GetDefaultDeviceID (SetDefaultDeviceID c deviceID).
Proof. apply TrimSpace_idem. Qed.

(** C1.  Each dispatch starts by resolving the device id, and
    [resolveDeviceID] does it in this order: the explicit id of the
    operation, trimmed, when that is not blank; otherwise the default id of
    the client, which the setters store trimmed; and when both are blank
    the dispatch ends with [ErrDeviceIDMissing] in the world it started in:
    no limiter wait, no request, no event at all. *)
Theorem device_id_resolution (env : Env) (ctx : option context.Context) (w : World)
    (explicit : string) :
  (~ blank explicit ->
     resolveDeviceID explicit w = (Ok (strings.TrimSpace explicit), w))
  /\ (blank explicit -> ~ blank (defaultDevice (client w)) ->
        resolveDeviceID explicit w
        = (Ok (strings.TrimSpace (defaultDevice (client w))), w))
  /\ (forall c d, client w = SetDefaultDeviceID c d ->
        strings.TrimSpace (defaultDevice (client w)) = GetDefaultDeviceID (client w))
  /\ (blank explicit -> blank (defaultDevice (client w)) ->
        resolveDeviceID explicit w = (Err ErrDeviceIDMissing, w)
        /\ (forall p, TextRequest.DeviceID p = explicit ->
              SendText env ctx p w = (Err ErrDeviceIDMissing, w))
        /\ (forall p, ImageRequest.DeviceID p = explicit ->
              SendImage env ctx p w = (Err ErrDeviceIDMissing, w))).
Proof.
  split; [apply resolveDeviceID_explicit|].
  split; [apply resolveDeviceID_default|].
  split.
  { intros c d ->. apply SetDefaultDeviceID_trimmed. }
  intros He Hd. split; [apply resolveDeviceID_missing; assumption|].
  split; intros p <-.
  - unfold SendText, bind. rewrite resolveDeviceID_missing by assumption. reflexivity.
  - unfold SendImage, bind. rewrite resolveDeviceID_missing by assumption. reflexivity.
Qed.

(** ** The dispatcher *)

(** Without a limiter [doJSON] sends the request at once. *)
Lemma doJSON_no_limiter env ctx endpoint p w body :
  limiter (client w) = None ->
  json_Marshal p = Ok body ->
  http_NewRequest env (baseURL (client w) +:+ endpoint) = None ->
  let req := request (client w) (baseURL (client w) +:+ endpoint) body in
  doJSON env ctx endpoint p w = (exchange env req, addEvent w (EvHTTPDo req)).
Proof.
  intros Hl Hm Hu req. unfold doJSON, bind, getClient. rewrite Hl, Hm. cbn.
  rewrite Hu. cbn. fold req. unfold exchange, addEvent.
  destruct (http_Do env req) as [resp|e]; cbn; [|reflexivity].
  destruct (readBody resp) as [raw|e]; cbn; [|reflexivity].
  destruct (decodeResponse env resp raw); reflexivity.
Qed.

(** With a limiter [doJSON] first waits on it.  An error of [Wait] ends the
    dispatch: the limiter has advanced and no request is sent.  Otherwise
    the request is sent. *)
Lemma doJSON_limiter env ctx endpoint p w l l' err body :
  limiter (client w) = Some l ->
  RateLimiter_Wait l (time_Now env) (select_race env) (orBackground ctx) = (l', err) ->
  json_Marshal p = Ok body ->
  http_NewRequest env (baseURL (client w) +:+ endpoint) = None ->
  let req := request (client w) (baseURL (client w) +:+ endpoint) body in
  let waited := {| client := withLimiter (client w) l';
                   trace := trace w ++ [EvLimiterWait (orBackground ctx)] |} in
  doJSON env ctx endpoint p w
  = match err with
    | Some e => (Err e, waited)
    | None => (exchange env req, addEvent waited (EvHTTPDo req))
    end.
Proof.
  intros Hl Hw Hm Hu req waited. unfold doJSON, bind, getClient. rewrite Hl.
  unfold limiterWait, bind, emit. rewrite Hw. cbn.
  destruct err as [e|]; cbn; [reflexivity|].
  rewrite Hm. cbn. rewrite Hu. cbn. fold req. unfold exchange, addEvent.
  destruct (http_Do env req) as [resp|e]; cbn; [|reflexivity].
  destruct (readBody resp) as [raw|e]; cbn; [|reflexivity].
  destruct (decodeResponse env resp raw); reflexivity.
Qed.

(** ** Text operations *)

Lemma TextRequest_validate_resolved p did :
  strings.TrimSpace did = did -> did <> "" ->
  TextRequest_validate (TextRequest.withDeviceID p did) = None.
Proof.
  intros Ht Hne. unfold TextRequest_validate. simpl. rewrite Ht.
  apply String.eqb_neq in Hne. rewrite Hne. reflexivity.
Qed.

(** [validate] of a text request looks at the device id alone. *)
Lemma TextRequest_validate_DeviceID p q :
  TextRequest.DeviceID p = TextRequest.DeviceID q ->
  TextRequest_validate p = TextRequest_validate q.
Proof. unfold TextRequest_validate. intros ->. reflexivity. Qed.

(** C10.  Once the device id of a text operation resolves (to [did]),
    validation succeeds whatever the other fields hold, and [SendText]
    goes on to [doJSON] with the request as given but for its device id.
    This holds in particular for the request with no field set: its body
    is the device id alone, and (with no limiter in the way and a base URL
    that yields a request) that body is sent. *)
Theorem text_validation_needs_only_device_id (env : Env) (ctx : option context.Context)
    (w w' : World) (p : TextRequest.t) (did : string) :
  resolveDeviceID (TextRequest.DeviceID p) w = (Ok did, w') ->
  TextRequest_validate (TextRequest.withDeviceID p did) = None
  /\ SendText env ctx p w
     = doJSON env ctx textEndpoint (TextPayload (TextRequest.withDeviceID p did)) w
  /\ (p = emptyText ->
      json_Marshal (TextPayload (TextRequest.withDeviceID p did))
      = Ok [("deviceId", WString did)]
      /\ (limiter (client w) = None ->
          http_NewRequest env (baseURL (client w) +:+ textEndpoint) = None ->
          snd (SendText env ctx p w)
          = addEvent w (EvHTTPDo (request (client w) (baseURL (client w) +:+ textEndpoint)
                                          [("deviceId", WString did)])))).
Proof.
  intros H. destruct (resolveDeviceID_Ok _ _ _ _ H) as (-> & Ht & Hne).
  assert (Hv := TextRequest_validate_resolved p did Ht Hne).
  assert (Hs : SendText env ctx p w
               = doJSON env ctx textEndpoint (TextPayload (TextRequest.withDeviceID p did)) w).
  { unfold SendText, bind at 1. rewrite H.
    unfold bind at 1. rewrite Hv. reflexivity. }
  split; [exact Hv|]. split; [exact Hs|].
  intros ->. split; [reflexivity|].
  intros Hl Hu. rewrite Hs.
  rewrite (doJSON_no_limiter env ctx textEndpoint
             (TextPayload (TextRequest.withDeviceID emptyText did)) w
             [("deviceId", WString did)] Hl eq_refl Hu).
  reflexivity.
Qed.

(** ** Image operations *)

Lemma resolveDeviceID_same_client explicit w w2 :
  client w2 = client w ->
  fst (resolveDeviceID explicit w2) = fst (resolveDeviceID explicit w)
  /\ snd (resolveDeviceID explicit w2) = w2.
Proof.
  intros Hc. unfold resolveDeviceID.
  destruct (nonEmpty (strings.TrimSpace explicit)); [split; reflexivity|].
  unfold bind, getClient. rewrite Hc.
  destruct (String.eqb _ ""); split; reflexivity.
Qed.

Lemma resolveDeviceID_addEvent explicit w did e :
  resolveDeviceID explicit w = (Ok did, w) ->
  resolveDeviceID explicit (addEvent w e) = (Ok did, addEvent w e).
Proof.
  intros H.
  destruct (resolveDeviceID_same_client explicit w (addEvent w e) eq_refl) as [H1 H2].
  rewrite H in H1. simpl in H1.
  destruct (resolveDeviceID explicit (addEvent w e)) as [r w2]. simpl in *.
  congruence.
Qed.

Lemma normalizeImage_preset env p w :
  ~ blank (ImageRequest.Image p) -> normalizeImage env p w = (Ok p, w).
Proof.
  intros H. unfold normalizeImage.
  apply String.eqb_neq in H. rewrite H. reflexivity.
Qed.

Lemma normalizeImage_bytes env p w :
  blank (ImageRequest.Image p) -> ImageRequest.ImageBytes p <> [] ->
  normalizeImage env p w
  = (Ok (ImageRequest.withImage p (encodeBase64 (ImageRequest.ImageBytes p))), w).
Proof.
  intros Hi Hb. unfold normalizeImage. red in Hi. rewrite Hi. simpl.
  destruct (ImageRequest.ImageBytes p); [contradiction | reflexivity].
Qed.

Lemma normalizeImage_path env p w :
  blank (ImageRequest.Image p) -> ImageRequest.ImageBytes p = [] ->
  ~ blank (ImageRequest.ImagePath p) ->
  normalizeImage env p w
  = (match os_ReadFile env (strings.TrimSpace (ImageRequest.ImagePath p)) with
     | Ok data => Ok (ImageRequest.withImage p (encodeBase64 data))
     | Err e => Err (Errorf "quote0: read image file: %w" e)
     end,
     addEvent w (EvReadFile (strings.TrimSpace (ImageRequest.ImagePath p)))).
Proof.
  intros Hi Hb Hp. unfold normalizeImage. red in Hi. rewrite Hi, Hb. simpl.
  rewrite (proj2 (nonEmpty_true_iff _) Hp).
  unfold readFile, bind, emit, lift, addEvent. simpl.
  destruct (os_ReadFile env _); reflexivity.
Qed.

Lemma normalizeImage_none env p w :
  blank (ImageRequest.Image p) -> ImageRequest.ImageBytes p = [] ->
  blank (ImageRequest.ImagePath p) ->
  normalizeImage env p w = (Ok p, w).
Proof.
  intros Hi Hb Hp. unfold normalizeImage. red in Hi, Hp. rewrite Hi, Hb, Hp.
  reflexivity.
Qed.

Lemma ImageRequest_validate_resolved p :
  strings.TrimSpace (ImageRequest.DeviceID p) = ImageRequest.DeviceID p ->
  ImageRequest.DeviceID p <> "" ->
  ImageRequest_validate p
  = if String.eqb (strings.TrimSpace (ImageRequest.Image p)) ""
    then Some ErrImagePayloadMissing else None.
Proof.
  intros Ht Hne. unfold ImageRequest_validate. rewrite Ht.
  apply String.eqb_neq in Hne. rewrite Hne. reflexivity.
Qed.

Lemma encodeBase64_not_blank b : b <> [] -> ~ blank (encodeBase64 b).
Proof.
  intros Hb. unfold blank. rewrite TrimSpace_encodeBase64.
  intros H. apply encodeBase64_empty_iff in H. contradiction.
Qed.

Lemma nil_or_not {A} (l : list A) : l = [] \/ l <> [].
Proof. destruct l; [left; reflexivity | right; discriminate]. Qed.

(** [SendImage] once the device id is resolved and the image normalised:
    the request is validated and handed to [doJSON]. *)
Lemma SendImage_normalized env ctx p w did q w1 :
  resolveDeviceID (ImageRequest.DeviceID p) w = (Ok did, w) ->
  normalizeImage env (ImageRequest.withDeviceID p did) w = (Ok q, w1) ->
  ImageRequest.DeviceID q = did ->
  SendImage env ctx p w
  = if String.eqb (strings.TrimSpace (ImageRequest.Image q)) ""
    then (Err ErrImagePayloadMissing, w1)
    else doJSON env ctx imageEndpoint (ImagePayload q) w1.
Proof.
  intros Hr Hn Hd.
  destruct (resolveDeviceID_Ok _ _ _ _ Hr) as (_ & Ht & Hne).
  unfold SendImage, bind at 1. rewrite Hr.
  unfold bind at 1. rewrite Hn.
  unfold bind at 1. rewrite ImageRequest_validate_resolved by (rewrite Hd; assumption).
  destruct (String.eqb _ ""); reflexivity.
Qed.

Lemma SendImage_steps env ctx p w did q w1 :
  resolveDeviceID (ImageRequest.DeviceID p) w = (Ok did, w) ->
  normalizeImage env (ImageRequest.withDeviceID p did) w = (Ok q, w1) ->
  ImageRequest.DeviceID q = did ->
  ~ blank (ImageRequest.Image q) ->
  SendImage env ctx p w = doJSON env ctx imageEndpoint (ImagePayload q) w1.
Proof.
  intros Hr Hn Hd Hi. rewrite (SendImage_normalized env ctx p w did q w1 Hr Hn Hd).
  apply String.eqb_neq in Hi. rewrite Hi. reflexivity.
Qed.

Lemma SendImage_missing env ctx p w did q w1 :
  resolveDeviceID (ImageRequest.DeviceID p) w = (Ok did, w) ->
  normalizeImage env (ImageRequest.withDeviceID p did) w = (Ok q, w1) ->
  ImageRequest.DeviceID q = did ->
  blank (ImageRequest.Image q) ->
  SendImage env ctx p w = (Err ErrImagePayloadMissing, w1).
Proof.
  intros Hr Hn Hd Hi. rewrite (SendImage_normalized env ctx p w did q w1 Hr Hn Hd).
  red in Hi. rewrite Hi. reflexivity.
Qed.

Lemma SendImage_read_error env ctx p w did e w1 :
  resolveDeviceID (ImageRequest.DeviceID p) w = (Ok did, w) ->
  normalizeImage env (ImageRequest.withDeviceID p did) w = (Err e, w1) ->
  SendImage env ctx p w = (Err e, w1).
Proof.
  intros Hr Hn. unfold SendImage, bind at 1. rewrite Hr.
  unfold bind at 1. rewrite Hn. reflexivity.
Qed.

(** An image request with no source at all. *)
Lemma SendImage_no_source env ctx p w did :
  resolveDeviceID (ImageRequest.DeviceID p) w = (Ok did, w) ->
  blank (ImageRequest.Image p) -> ImageRequest.ImageBytes p = [] ->
  blank (ImageRequest.ImagePath p) ->
  SendImage env ctx p w = (Err ErrImagePayloadMissing, w).
Proof.
  intros Hr Hi Hb Hp.
  apply (SendImage_missing env ctx p w did (ImageRequest.withDeviceID p did) w Hr);
    [|reflexivity|exact Hi].
  apply normalizeImage_none; assumption.
Qed.

Lemma doJSON_marshal_ext env ctx endpoint p p' w :
  json_Marshal p = json_Marshal p' ->
  doJSON env ctx endpoint p w = doJSON env ctx endpoint p' w.
Proof. intros H. unfold doJSON. rewrite H. reflexivity. Qed.

(** C7.  An image operation with no image, no bytes and no path (each blank
    or empty) ends, once its device id is resolved, with
    [ErrImagePayloadMissing]; when the device id does not resolve it ends
    with [ErrDeviceIDMissing] before that.  Either way the world is the one
    the call started in: no file was read, the limiter was not asked, and
    no request was sent. *)
Theorem image_payload_missing (env : Env) (ctx : option context.Context) (w : World)
    (p : ImageRequest.t) :
  blank (ImageRequest.Image p) ->
  ImageRequest.ImageBytes p = [] ->
  blank (ImageRequest.ImagePath p) ->
  (forall did w', resolveDeviceID (ImageRequest.DeviceID p) w = (Ok did, w') ->
     SendImage env ctx p w = (Err ErrImagePayloadMissing, w))
  /\ (forall e w', resolveDeviceID (ImageRequest.DeviceID p) w = (Err e, w') ->
        SendImage env ctx p w = (Err ErrDeviceIDMissing, w)).
Proof.
  intros Hi Hb Hp. split.
  - intros did w' H. destruct (resolveDeviceID_Ok _ _ _ _ H) as (-> & _).
    apply (SendImage_no_source env ctx p w did); assumption.
  - intros e w' H. destruct (resolveDeviceID_Err _ _ _ _ H) as (-> & -> & _).
    unfold SendImage, bind. rewrite H. reflexivity.
Qed.

Lemma SendImage_viaImage env ctx p w did b :
  resolveDeviceID (ImageRequest.DeviceID p) w = (Ok did, w) ->
  SendImage env ctx (viaImage p b) w
  = if String.eqb (encodeBase64 b) ""
    then (Err ErrImagePayloadMissing, w)
    else doJSON env ctx imageEndpoint
           (ImagePayload (ImageRequest.withDeviceID (viaImage p b) did)) w.
Proof.
  intros Hr. destruct (nil_or_not b) as [->|Hb].
  - apply (SendImage_no_source env ctx (viaImage p []) w did Hr); reflexivity.
  - assert (Hnb := encodeBase64_not_blank b Hb).
    rewrite (SendImage_steps env ctx (viaImage p b) w did
               (ImageRequest.withDeviceID (viaImage p b) did) w Hr).
    + destruct (String.eqb (encodeBase64 b) "") eqn:E; [|reflexivity].
      apply String.eqb_eq, encodeBase64_empty_iff in E. contradiction.
    + apply normalizeImage_preset. exact Hnb.
    + reflexivity.
    + exact Hnb.
Qed.

(** C6, as the code has it.  For an image operation whose device id
    resolves (to [did]):
    - a non-blank [Image] wins outright: the request goes to [doJSON] as it
      is, nothing is read;
    - else non-empty [ImageBytes] are base64-encoded into [Image];
    - else a non-blank [ImagePath] is trimmed and the file of that name is
      read: a read failure ends the dispatch with that failure, wrapped,
      and no request; the bytes read are base64-encoded into [Image].
    And for bytes [b], the three ways of handing them over (as
    [ImageBytes], as the content of the file the trimmed [ImagePath] names,
    or as [Image] set to their base64 encoding) give the same dispatch but
    for the event of reading the file; when [b] is not empty that dispatch
    is [doJSON] on a body whose member [image] is the encoding of [b]. *)
Theorem image_source_precedence_and_equivalence (env : Env)
    (ctx : option context.Context) (w : World) (p : ImageRequest.t) (did : string) :
  resolveDeviceID (ImageRequest.DeviceID p) w = (Ok did, w) ->
  let q := ImageRequest.withDeviceID p did in
  let send (r : ImageRequest.t) := doJSON env ctx imageEndpoint (ImagePayload r) in
  (~ blank (ImageRequest.Image p) -> SendImage env ctx p w = send q w)
  /\ (blank (ImageRequest.Image p) -> ImageRequest.ImageBytes p <> [] ->
        SendImage env ctx p w
        = send (ImageRequest.withImage q (encodeBase64 (ImageRequest.ImageBytes p))) w)
  /\ (blank (ImageRequest.Image p) -> ImageRequest.ImageBytes p = [] ->
      ~ blank (ImageRequest.ImagePath p) ->
      let path := strings.TrimSpace (ImageRequest.ImagePath p) in
      (forall e, os_ReadFile env path = Err e ->
         SendImage env ctx p w
         = (Err (Errorf "quote0: read image file: %w" e), addEvent w (EvReadFile path)))
      /\ (forall data, os_ReadFile env path = Ok data -> data <> [] ->
            SendImage env ctx p w
            = send (ImageRequest.withImage q (encodeBase64 data))
                   (addEvent w (EvReadFile path))))
  /\ (forall (b : list byte) (file : string),
        let path := strings.TrimSpace file in
        SendImage env ctx (viaBytes p b) w = SendImage env ctx (viaImage p b) w
        /\ (~ blank file -> os_ReadFile env path = Ok b ->
              SendImage env ctx (viaFile p file) w
              = SendImage env ctx (viaImage p b) (addEvent w (EvReadFile path)))
        /\ (b <> [] ->
              SendImage env ctx (viaImage p b) w
              = send (ImageRequest.withDeviceID (viaImage p b) did) w
              /\ member "image"
                    (Marshal_ImageRequest (ImageRequest.withDeviceID (viaImage p b) did))
                  = Some (WString (encodeBase64 b)))).
Proof.
  intros Hr q send.
  assert (Hq : forall img, ImageRequest.DeviceID (ImageRequest.withImage q img) = did)
    by reflexivity.
  split.
  { intros Hi. apply (SendImage_steps env ctx p w did q w Hr); [|reflexivity|exact Hi].
    apply normalizeImage_preset. exact Hi. }
  split.
  { intros Hi Hb. eapply SendImage_steps; [exact Hr | | apply Hq |].
    - apply (normalizeImage_bytes env q w Hi Hb).
    - apply encodeBase64_not_blank. exact Hb. }
  split.
  { intros Hi Hb Hp path.
    assert (Hn := normalizeImage_path env (ImageRequest.withDeviceID p did) w Hi Hb Hp).
    change (strings.TrimSpace (ImageRequest.ImagePath (ImageRequest.withDeviceID p did)))
      with path in Hn.
    split.
    - intros e He. eapply SendImage_read_error; [exact Hr|].
      rewrite Hn, He. reflexivity.
    - intros data Hd Hne. eapply SendImage_steps; [exact Hr | | apply Hq |].
      + rewrite Hn, Hd. reflexivity.
      + apply encodeBase64_not_blank. exact Hne. }
  intros b file path.
  assert (Himg := SendImage_viaImage env ctx p w did b Hr).
  split; [|split].
  - rewrite Himg. destruct (nil_or_not b) as [->|Hb].
    + apply (SendImage_no_source env ctx (viaBytes p []) w did Hr); reflexivity.
    + destruct (String.eqb (encodeBase64 b) "") eqn:E.
      { apply String.eqb_eq, encodeBase64_empty_iff in E. contradiction. }
      rewrite (SendImage_steps env ctx (viaBytes p b) w did
                 (ImageRequest.withImage (ImageRequest.withDeviceID (viaBytes p b) did)
                    (encodeBase64 b)) w Hr).
      * apply doJSON_marshal_ext. reflexivity.
      * apply normalizeImage_bytes; [reflexivity | exact Hb].
      * reflexivity.
      * apply encodeBase64_not_blank. exact Hb.
  - intros Hf Hread.
    assert (Hr' := resolveDeviceID_addEvent _ _ _ (EvReadFile path) Hr).
    rewrite (SendImage_viaImage env ctx p (addEvent w (EvReadFile path)) did b Hr').
    assert (Hn : normalizeImage env (ImageRequest.withDeviceID (viaFile p file) did) w
                 = (Ok (ImageRequest.withImage
                          (ImageRequest.withDeviceID (viaFile p file) did)
                          (encodeBase64 b)),
                    addEvent w (EvReadFile path))).
    { rewrite normalizeImage_path; [|reflexivity|reflexivity|exact Hf].
      cbn [ImageRequest.ImagePath ImageRequest.withDeviceID viaFile
           ImageRequest.withImagePath]. fold path. rewrite Hread. reflexivity. }
    rewrite (SendImage_normalized env ctx (viaFile p file) w did _ _ Hr Hn eq_refl).
    cbn [ImageRequest.Image ImageRequest.withImage]. rewrite TrimSpace_encodeBase64.
    destruct (String.eqb (encodeBase64 b) ""); [reflexivity|].
    apply doJSON_marshal_ext. reflexivity.
  - intros Hb. split.
    + rewrite Himg. destruct (String.eqb (encodeBase64 b) "") eqn:E; [|reflexivity].
      apply String.eqb_eq, encodeBase64_empty_iff in E. contradiction.
    + unfold Marshal_ImageRequest.
      destruct (ImageRequest.RefreshNow _); reflexivity.
Qed.

(** ** The error normalizer *)

(** [isJSONObject] holds of the strings that start with an opening brace
    and end with a closing one. *)
Lemma isJSONObject_iff s :
  isJSONObject s = true
  <-> (exists l, chars s = "{"%char :: l) /\ (exists l, chars s = l ++ ["}"%char]).
Proof.
  unfold isJSONObject, strings.HasPrefix, strings.HasSuffix.
  change (chars "{") with ["{"%char]. change (chars "}") with ["}"%char].
  rewrite !andb_true_iff. split.
  - intros [[_ Hp] Hs]. split.
    + destruct (chars s) as [|a l]; [discriminate|]. cbn [strings.prefix_of] in Hp.
      rewrite andb_true_r in Hp. apply Ascii.eqb_eq in Hp. subst a. eauto.
    + rewrite <- (rev_involutive (chars s)).
      destruct (rev (chars s)) as [|a l]; [discriminate|].
      cbn [strings.prefix_of rev app] in Hs.
      rewrite andb_true_r in Hs. apply Ascii.eqb_eq in Hs. subst a.
      exists (rev l). reflexivity.
  - intros [[l Hl] [l' Hl']]. repeat split.
    + rewrite <- (of_chars_chars s), Hl. reflexivity.
    + rewrite Hl. reflexivity.
    + rewrite Hl', rev_app_distr. reflexivity.
Qed.

Lemma extractErrorFields_keeps ae obj fallback :
  APIError.StatusCode (extractErrorFields ae obj fallback) = APIError.StatusCode ae
  /\ APIError.RawBody (extractErrorFields ae obj fallback) = APIError.RawBody ae.
Proof. split; reflexivity. Qed.

(** The message [extractErrorFields] chooses: [message] when it is a
    non-empty string, else [error] when it is one, else the fallback. *)
Lemma extractErrorFields_message ae obj fallback :
  let ae' := extractErrorFields ae obj fallback in
  let unusable (key : string) :=
    forall m, obj !! key = Some (json.anyString m) -> m = "" in
  (forall v, obj !! "message" = Some (json.anyString v) -> v <> "" ->
     APIError.Message ae' = v)
  /\ (forall v, unusable "message" ->
        obj !! "error" = Some (json.anyString v) -> v <> "" ->
        APIError.Message ae' = v)
  /\ (unusable "message" -> unusable "error" -> APIError.Message ae' = fallback).
Proof.
  intros ae' unusable. subst ae'. unfold extractErrorFields. cbn [APIError.Message].
  assert (Hm : forall key,
             (exists v, obj !! key = Some (json.anyString v) /\ v <> ""
                        /\ assertString (obj !! key) = (v, true) /\ nonEmpty v = true)
             \/ (unusable key
                 /\ (let '(v, ok) := assertString (obj !! key) in ok && nonEmpty v) = false)).
  { intros key. unfold unusable.
    destruct (obj !! key) as [[| | |m| |]|] eqn:E; simpl;
      try (right; split; [intros; discriminate | reflexivity]).
    destruct (nonEmpty m) eqn:En.
    - left. exists m. pose proof (proj1 (nonEmpty_true_iff _) En). repeat split; auto.
    - right. apply nonEmpty_false_iff in En. split; [|reflexivity].
      intros m' [= <-]. exact En. }
  destruct (Hm "message") as [(vm & Em & Hvm & -> & Hnm) | [Hum Em]].
  - rewrite Hnm. simpl. repeat split.
    + intros v Hv _. congruence.
    + intros v Hu. exfalso. apply Hvm, Hu, Em.
    + intros Hu. exfalso. apply Hvm, Hu, Em.
  - destruct (assertString (obj !! "message")) as [v0 ok0]. rewrite Em.
    destruct (Hm "error") as [(ve & Ee & Hve & -> & Hne) | [Hue Ee]].
    + rewrite Hne. simpl. repeat split.
      * intros v Hv Hne'. exfalso. apply Hne', Hum, Hv.
      * intros v _ Hv _. congruence.
      * intros _ Hu. exfalso. apply Hve, Hu, Ee.
    + destruct (assertString (obj !! "error")) as [v1 ok1]. rewrite Ee.
      repeat split.
      * intros v Hv Hne'. exfalso. apply Hne', Hum, Hv.
      * intros v _ Hv Hne'. exfalso. apply Hne', Hue, Hv.
Qed.

(** The code [extractErrorFields] stores when the object has a member
    [code]. *)
Lemma extractErrorFields_code ae obj fallback :
  let ae' := extractErrorFields ae obj fallback in
  (forall t, obj !! "code" = Some (json.anyString t) ->
     APIError.Code ae' = strings.TrimSpace t)
  /\ (forall f, obj !! "code" = Some (json.anyFloat64 f) ->
        APIError.Code ae' = strconv.Itoa (float64.to_int f))
  /\ (obj !! "code" = None -> APIError.Code ae' = APIError.Code ae).
Proof.
  intros ae'. subst ae'. unfold extractErrorFields. cbn [APIError.Code].
  repeat split; intros; rewrite H; reflexivity.
Qed.

(** C2.  [buildAPIError] returns one [APIError] for a status and a body.
    With [trimmed] the body after [TrimSpace]: when [trimmed] starts with
    an opening and ends with a closing brace and the body parses as a JSON
    object, the message is the member [message] if it is a non-empty
    string, else the member [error] if it is one, else [trimmed]; a member
    [code] that is a string is stored trimmed, one that is a number as the
    decimal text of its integer part; there is no code when the member is
    absent.  When [trimmed] does not look like an object, or the body does
    not parse, the message is [trimmed] and there is no code.  The status
    and the bytes of the body are kept in every case. *)
Theorem buildAPIError_normalizes (status : Z) (body : list byte) :
  let trimmed := strings.TrimSpace (go_string body) in
  exists! ae : APIError.t,
    buildAPIError status body = APIErrorPtr (Some ae)
    /\ APIError.StatusCode ae = status
    /\ APIError.RawBody ae = body
    /\ (forall obj, isJSONObject trimmed = true -> tryParseJSON body = Some obj ->
          let unusable (key : string) :=
            forall m, obj !! key = Some (json.anyString m) -> m = "" in
          (forall v, obj !! "message" = Some (json.anyString v) -> v <> "" ->
             APIError.Message ae = v)
          /\ (forall v, unusable "message" ->
                obj !! "error" = Some (json.anyString v) -> v <> "" ->
                APIError.Message ae = v)
          /\ (unusable "message" -> unusable "error" -> APIError.Message ae = trimmed)
          /\ (forall t, obj !! "code" = Some (json.anyString t) ->
                APIError.Code ae = strings.TrimSpace t)
          /\ (forall f, obj !! "code" = Some (json.anyFloat64 f) ->
                APIError.Code ae = strconv.Itoa (float64.to_int f))
          /\ (obj !! "code" = None -> APIError.Code ae = ""))
    /\ (isJSONObject trimmed = false \/ tryParseJSON body = None ->
          APIError.Message ae = trimmed /\ APIError.Code ae = "").
Proof.
  intros trimmed. unfold buildAPIError. fold trimmed.
  eexists. split.
  2:{ intros ae' [H _]. injection H. intros <-. reflexivity. }
  split; [reflexivity|].
  destruct (isJSONObject trimmed) eqn:Ej; [destruct (tryParseJSON body) as [obj|] eqn:Ep|].
  - split; [reflexivity|]. split; [reflexivity|]. split.
    + intros obj' _ [= <-].
      pose proof (extractErrorFields_message (APIError.mk status "" trimmed body) obj trimmed)
        as HM.
      pose proof (extractErrorFields_code (APIError.mk status "" trimmed body) obj trimmed)
        as HC.
      cbv zeta in HM, HC. destruct HM as (M1 & M2 & M3). destruct HC as (C1 & C2 & C3).
      repeat split; assumption.
    + intros [H|H]; discriminate.
  - split; [reflexivity|]. split; [reflexivity|]. split.
    + intros obj' _ H. discriminate.
    + intros _. split; reflexivity.
  - split; [reflexivity|]. split; [reflexivity|]. split.
    + intros obj' H. discriminate.
    + intros _. split; reflexivity.
Qed.

Lemma buildAPIError_status status body :
  exists ae, buildAPIError status body = APIErrorPtr (Some ae)
             /\ APIError.StatusCode ae = status.
Proof.
  unfold buildAPIError. eexists. split; [reflexivity|].
  destruct (isJSONObject _); [destruct (tryParseJSON body)|]; reflexivity.
Qed.

(** ** Classification of errors *)

(** C8.  On an [APIError], [IsRateLimitError] holds exactly for status 429
    and [IsAuthError] exactly for status 401 or 403, so neither holds for
    any other status; this is in particular so for the error
    [buildAPIError] makes from a status.  Both are false on every error
    that is not an [APIError], the nil error included. *)
Theorem error_classification :
  (forall ae : APIError.t,
     let err := Some (APIErrorPtr (Some ae)) in
     (IsRateLimitError err = Some true <-> APIError.StatusCode ae = 429)
     /\ (IsAuthError err = Some true
         <-> APIError.StatusCode ae = 401 \/ APIError.StatusCode ae = 403)
     /\ (APIError.StatusCode ae <> 429 -> APIError.StatusCode ae <> 401 ->
         APIError.StatusCode ae <> 403 ->
         IsRateLimitError err = Some false /\ IsAuthError err = Some false))
  /\ (forall status body,
        IsRateLimitError (Some (buildAPIError status body)) = Some (status =? 429)
        /\ IsAuthError (Some (buildAPIError status body))
           = Some ((status =? 401) || (status =? 403)))
  /\ (forall err : option error,
        (forall p, err <> Some (APIErrorPtr p)) ->
        IsRateLimitError err = Some false /\ IsAuthError err = Some false).
Proof.
  split; [|split].
  - intros ae err. subst err. cbn [IsRateLimitError IsAuthError].
    split; [|split].
    + split.
      * intros [= H]. apply Z.eqb_eq. exact H.
      * intros ->. reflexivity.
    + split.
      * intros [= H]. apply orb_true_iff in H. destruct H as [H|H]; apply Z.eqb_eq in H; auto.
      * intros [-> | ->]; reflexivity.
    + intros H1 H2 H3.
      apply Z.eqb_neq in H1, H2, H3. rewrite H1, H2, H3. split; reflexivity.
  - intros status body.
    destruct (buildAPIError_status status body) as (ae & -> & <-).
    split; reflexivity.
  - intros [[]|] H; try (split; reflexivity).
    exfalso. eapply H. reflexivity.
Qed.

(** ** The serialized request body *)

Lemma member_app name l1 l2 :
  member name (l1 ++ l2)
  = match member name l1 with Some v => Some v | None => member name l2 end.
Proof.
  induction l1 as [|[k v] l1 IH]; [reflexivity|]. simpl.
  destruct (String.eqb k name); [reflexivity | exact IH].
Qed.

Lemma member_omitempty_string name key v :
  member name (omitempty_string key v)
  = if String.eqb key name then (if String.eqb v "" then None else Some (WString v))
    else None.
Proof.
  unfold omitempty_string. destruct (String.eqb v ""); simpl.
  - destruct (String.eqb key name); reflexivity.
  - destruct (String.eqb key name); reflexivity.
Qed.

Lemma member_omitempty_ptr name key v :
  member name (omitempty_ptr key v)
  = if String.eqb key name then option_map WBool v else None.
Proof.
  unfold omitempty_ptr. destruct v; simpl; destruct (String.eqb key name); reflexivity.
Qed.

Lemma member_omitempty_int name key v :
  member name (omitempty_int key v)
  = if String.eqb key name then (if v =? 0 then None else Some (WInt v)) else None.
Proof.
  unfold omitempty_int. destruct (v =? 0); simpl;
    destruct (String.eqb key name); reflexivity.
Qed.

Lemma in_omitempty_string k w key v :
  (k, w) ∈ omitempty_string key v -> k = key /\ w = WString v /\ v <> "".
Proof.
  unfold omitempty_string. destruct (String.eqb v "") eqn:E.
  - intros H. inversion H.
  - intros H. apply list_elem_of_singleton in H. injection H as -> ->.
    apply String.eqb_neq in E. auto.
Qed.

Lemma in_omitempty_ptr k w key v :
  (k, w) ∈ omitempty_ptr key v -> exists b, w = WBool b.
Proof.
  unfold omitempty_ptr. destruct v as [b|].
  - intros H. apply list_elem_of_singleton in H. injection H as -> ->. eauto.
  - intros H. inversion H.
Qed.

Lemma in_omitempty_int k w key v :
  (k, w) ∈ omitempty_int key v -> w = WInt v /\ v <> 0.
Proof.
  unfold omitempty_int. destruct (v =? 0) eqn:E.
  - intros H. inversion H.
  - intros H. apply list_elem_of_singleton in H. injection H as -> ->.
    apply Z.eqb_neq in E. auto.
Qed.

Ltac member_simpl :=
  repeat rewrite member_app;
  repeat rewrite member_omitempty_string;
  repeat rewrite member_omitempty_ptr;
  repeat rewrite member_omitempty_int;
  cbn.

Ltac member_solve :=
  member_simpl;
  repeat (match goal with
          | |- context [if String.eqb ?x "" then _ else _] => destruct (String.eqb x "")
          | |- context [option_map _ ?o] => destruct o
          | |- context [if ?z =? 0 then _ else _] => destruct (z =? 0)
          end; cbn);
  reflexivity.

(** C9.  In the body of a text request and of an image request the member
    [deviceId] is always present, and so is [image] in an image request.
    Every other field is present only when it is set: a [RefreshNow] that
    is not nil, a string that is not empty, a [Border] that is not zero.
    So no member other than these two is an empty string, and the document
    has no null.  [border], when present, is the integer of the field: 1
    for [BorderBlack]; [BorderWhite], being 0, is never written. *)
Theorem unset_fields_are_omitted :
  (forall r : TextRequest.t,
     let obj := Marshal_TextRequest r in
     member "deviceId" obj = Some (WString (TextRequest.DeviceID r))
     /\ member "refreshNow" obj = option_map WBool (TextRequest.RefreshNow r)
     /\ member "title" obj = optional (TextRequest.Title r)
     /\ member "message" obj = optional (TextRequest.Message r)
     /\ member "signature" obj = optional (TextRequest.Signature r)
     /\ member "icon" obj = optional (TextRequest.Icon r)
     /\ member "link" obj = optional (TextRequest.Link r)
     /\ (forall k v, (k, v) ∈ obj -> k <> "deviceId" -> v <> WString ""))
  /\ (forall r : ImageRequest.t,
        let obj := Marshal_ImageRequest r in
        member "deviceId" obj = Some (WString (ImageRequest.DeviceID r))
        /\ member "image" obj = Some (WString (ImageRequest.Image r))
        /\ member "refreshNow" obj = option_map WBool (ImageRequest.RefreshNow r)
        /\ member "link" obj = optional (ImageRequest.Link r)
        /\ member "border" obj
           = (if ImageRequest.Border r =? 0 then None else Some (WInt (ImageRequest.Border r)))
        /\ member "ditherType" obj = optional (ImageRequest.DitherType r)
        /\ member "ditherKernel" obj = optional (ImageRequest.DitherKernel r)
        /\ member "imageBytes" obj = None /\ member "imagePath" obj = None
        /\ (forall k v, (k, v) ∈ obj -> k <> "deviceId" -> k <> "image" ->
              v <> WString "")
        /\ (ImageRequest.Border r = BorderBlack -> member "border" obj = Some (WInt 1))
        /\ (ImageRequest.Border r = BorderWhite -> member "border" obj = None)).
Proof.
  split.
  - intros r obj. subst obj. unfold Marshal_TextRequest, optional.
    repeat split; try member_solve.
    intros k v Hin Hk Hv. subst v.
    repeat (apply elem_of_app in Hin; destruct Hin as [Hin|Hin]);
      try (apply in_omitempty_string in Hin; destruct Hin as (_ & [= ->] & Hne);
           congruence).
    + apply in_omitempty_ptr in Hin. destruct Hin as [b Hb]. discriminate.
    + apply list_elem_of_singleton in Hin. injection Hin as -> _. congruence.
  - intros r obj. subst obj. unfold Marshal_ImageRequest, optional.
    repeat split; try member_solve.
    + intros k v Hin Hk Hk' Hv. subst v.
      repeat (apply elem_of_app in Hin; destruct Hin as [Hin|Hin]);
        try (apply in_omitempty_string in Hin; destruct Hin as (_ & [= ->] & Hne);
             congruence).
      * apply in_omitempty_ptr in Hin. destruct Hin as [b Hb]. discriminate.
      * apply list_elem_of_singleton in Hin. injection Hin as -> _. congruence.
      * apply list_elem_of_singleton in Hin. injection Hin as -> _. congruence.
      * apply in_omitempty_int in Hin. destruct Hin as [Hb _]. discriminate.
    + intros ->. member_solve.
    + intros ->. member_solve.
Qed.

(** ** Decoding of a successful response *)

Lemma storeField_keeps out key raw v :
  APIResponse.StatusCode (fst (storeField out key raw v)) = APIResponse.StatusCode out
  /\ APIResponse.RawBody (fst (storeField out key raw v)) = APIResponse.RawBody out.
Proof.
  unfold storeField.
  destruct (json.fieldMatch "code" key).
  { destruct v; try (split; reflexivity).
    destruct (json.ParseInt lit); split; reflexivity. }
  destruct (json.fieldMatch "message" key).
  { destruct v; split; reflexivity. }
  destruct (json.fieldMatch "result" key); split; reflexivity.
Qed.

(** [Unmarshal] never writes the fields tagged [json:"-"]. *)
Lemma Unmarshal_APIResponse_keeps data out :
  APIResponse.StatusCode (fst (Unmarshal_APIResponse data out)) = APIResponse.StatusCode out
  /\ APIResponse.RawBody (fst (Unmarshal_APIResponse data out)) = APIResponse.RawBody out.
Proof.
  unfold Unmarshal_APIResponse.
  destruct (json.parse data) as [[| | | | |ms]|]; try (split; reflexivity).
  set (step := fun (acc : APIResponse.t * bool) (m : string * (list byte * json.Value)) => _).
  assert (H : forall ms acc,
             APIResponse.StatusCode (fst (fold_left step ms acc))
             = APIResponse.StatusCode (fst acc)
             /\ APIResponse.RawBody (fst (fold_left step ms acc))
                = APIResponse.RawBody (fst acc)).
  { clear ms. induction ms as [|[key [raw v]] ms IH]; intros [o ok]; [split; reflexivity|].
    cbn [fold_left]. destruct (IH (step (o, ok) (key, (raw, v)))) as [I1 I2].
    rewrite I1, I2. unfold step.
    destruct (storeField_keeps o key raw v) as [K1 K2].
    destruct (storeField o key raw v) as [o' ok']. exact (conj K1 K2). }
  specialize (H ms (out, true)).
  destruct (fold_left step ms (out, true)) as [out' ok]. exact H.
Qed.

Lemma absent_header_not_JSON env resp :
  strings_ToLower env "" = "" ->
  Response.Header resp !! "Content-Type" = None -> declaresJSON env resp = false.
Proof.
  intros Hl H. unfold declaresJSON, Response.Get. rewrite H, Hl. reflexivity.
Qed.

(** C3.  On a response with a status from 200 to 299 the dispatch
    succeeds, and its result keeps the status and the bytes of the body.
    With an empty body it has no message and no result.  With a body, the
    envelope is decoded from JSON only if the header declares a JSON
    content type, and when decoding succeeds the decoded envelope is the
    result; in every other case (the header does not declare JSON, or
    decoding fails) the message is the body trimmed; without a declaration
    of JSON nothing else is set. *)
Theorem success_response_decoding (env : Env) (resp : Response.t) (raw : list byte) :
  let status := Response.StatusCode resp in
  let empty := APIResponse.mk 0 "" [] status raw in
  let text := strings.TrimSpace (go_string raw) in
  200 <= status < 300 ->
  exists out : APIResponse.t,
    decodeResponse env resp raw = Ok out
    /\ APIResponse.StatusCode out = status
    /\ APIResponse.RawBody out = raw
    /\ (raw = [] -> out = empty)
    /\ (raw <> [] -> declaresJSON env resp = true ->
        forall decoded, Unmarshal_APIResponse raw empty = (decoded, None) ->
                        out = decoded)
    /\ (raw <> [] -> declaresJSON env resp = true ->
        forall partial e, Unmarshal_APIResponse raw empty = (partial, Some e) ->
                          out = APIResponse.withMessage partial text)
    /\ (raw <> [] -> declaresJSON env resp = false ->
        out = APIResponse.withMessage empty text).
Proof.
  intros status empty text Hs. unfold decodeResponse. fold status.
  replace ((status <? 200) || (300 <=? status)) with false
    by (symmetry; apply orb_false_iff; split; [apply Z.ltb_ge | apply Z.leb_gt]; lia).
  fold empty. fold text. fold (declaresJSON env resp).
  destruct (Nat.eqb_spec (length raw) 0) as [Hl|Hl].
  { assert (Hnil : raw = []) by (destruct raw; [reflexivity | discriminate]).
    exists empty. split; [reflexivity|]. split; [reflexivity|]. split; [reflexivity|].
    split; [reflexivity|]. repeat split; intros; contradiction. }
  assert (Hne : raw <> []) by (intros ->; apply Hl; reflexivity).
  destruct (declaresJSON env resp) eqn:Ed.
  - pose proof (Unmarshal_APIResponse_keeps raw empty) as [K1 K2].
    destruct (Unmarshal_APIResponse raw empty) as [out' [e|]]; cbn [fst] in K1, K2.
    + exists (APIResponse.withMessage out' text).
      split; [reflexivity|]. split; [exact K1|]. split; [exact K2|].
      split; [intros; contradiction|].
      split; [intros _ _ decoded H; discriminate|].
      split; [intros _ _ partial e' [= <- _]; reflexivity|].
      intros _ H; discriminate.
    + exists out'.
      split; [reflexivity|]. split; [exact K1|]. split; [exact K2|].
      split; [intros; contradiction|].
      split; [intros _ _ decoded [= <-]; reflexivity|].
      split; [intros _ _ partial e' H; discriminate|].
      intros _ H; discriminate.
  - exists (APIResponse.withMessage empty text).
    split; [reflexivity|]. split; [reflexivity|]. split; [reflexivity|].
    split; [intros; contradiction|].
    split; [intros _ H; discriminate|].
    split; [intros _ H; discriminate|].
    reflexivity.
Qed.

(** ** The fixed-interval limiter *)

Lemma reserve_max l now :
  0 <= next l -> 0 < now ->
  let start := Z.max now (next l) in
  reserve l now
  = (time.Sub start now, start,
     {| next := start + minInterval l; minInterval := minInterval l |}).
Proof.
  intros Hn Hnow start. subst start. unfold reserve, time.IsZero, time.Before, time.Add.
  destruct (Z.eqb_spec (next l) 0) as [E|E]; cbn [negb andb].
  - rewrite E, Z.max_l by lia. unfold time.Sub, time.minDuration, time.maxDuration.
    replace (now - now) with 0 by lia. reflexivity.
  - destruct (Z.ltb_spec now (next l)) as [L|L].
    + rewrite Z.max_r by lia. reflexivity.
    + rewrite Z.max_l by lia. unfold time.Sub, time.minDuration, time.maxDuration.
      replace (now - now) with 0 by lia. reflexivity.
Qed.

Lemma fixedIntervalLimiter_Wait_eq l now race ctx :
  fixedIntervalLimiter_Wait l now race ctx
  = let '(wait, start, l') := reserve l now in
    if wait <=? 0 then (l', None)
    else match select ctx (now + wait) race with
         | CtxDone => (l', Some (context.Err ctx))
         | TimerC => (l', None)
         end.
Proof.
  unfold fixedIntervalLimiter_Wait, fixedIntervalLimiter_Wait_timed.
  destruct (reserve l now) as [[wait start] l'].
  destruct (wait <=? 0); [reflexivity|].
  destruct (select ctx (now + wait) race); reflexivity.
Qed.

(** What [Wait] leaves in the limiter is what [reserve] computed under the
    lock, whatever becomes of the caller afterwards. *)
Lemma Wait_state l now race ctx :
  fst (fixedIntervalLimiter_Wait l now race ctx) = snd (reserve l now).
Proof.
  rewrite fixedIntervalLimiter_Wait_eq.
  destruct (reserve l now) as [[wait start] l'].
  destruct (wait <=? 0); [reflexivity|].
  destruct (select ctx (now + wait) race); reflexivity.
Qed.

Lemma Wait_next l now race ctx :
  next (fst (fixedIntervalLimiter_Wait l now race ctx)) = allotted l now + minInterval l
  /\ minInterval (fst (fixedIntervalLimiter_Wait l now race ctx)) = minInterval l.
Proof.
  rewrite Wait_state. unfold allotted, reserve, time.Add.
  destruct (negb (time.IsZero (next l)) && time.Before now (next l)); split; reflexivity.
Qed.

Lemma allotted_lower l now : 0 <= next l -> 0 < now -> next l <= allotted l now /\ 0 < allotted l now.
Proof.
  intros Hn Hnow. unfold allotted.
  rewrite (reserve_max l now Hn Hnow). lia.
Qed.

Lemma allotments_lower calls :
  forall l k s,
    0 < minInterval l -> 0 <= next l ->
    Forall (fun c : call => 0 < c.1.1) calls ->
    allotments l calls !! k = Some s ->
    next l + minInterval l * Z.of_nat k <= s.
Proof.
  induction calls as [|[[now race] ctx] rest IH]; intros l k s Hi Hn Hall Hk.
  - destruct k; discriminate.
  - inversion Hall as [|? ? Hnow Hrest]; subst. cbn in Hnow.
    destruct (allotted_lower l now Hn Hnow) as [Hlo Hpos].
    destruct (Wait_next l now race ctx) as [Hnext Hmin].
    destruct k as [|k]; cbn in Hk.
    + injection Hk as <-. lia.
    + apply IH in Hk; [|lia|lia|exact Hrest].
      rewrite Hnext, Hmin in Hk. lia.
Qed.

(** [Wait] holds its caller.  A call returns no earlier than it was made,
    and a call that returns nil returns at the instant allotted to it, or
    at the largest [Duration] after the call if the allotted instant is
    further away than that (the [wait] that [Sub] gives saturates). *)
Lemma Wait_timed_held l now race ctx :
  0 <= next l -> 0 < now ->
  now <= snd (fixedIntervalLimiter_Wait_timed l now race ctx)
  /\ (snd (fixedIntervalLimiter_Wait l now race ctx) = None ->
      snd (fixedIntervalLimiter_Wait_timed l now race ctx)
      = Z.min (allotted l now) (now + time.maxDuration)).
Proof.
  intros Hn Hnow.
  unfold fixedIntervalLimiter_Wait, fixedIntervalLimiter_Wait_timed, allotted.
  rewrite (reserve_max l now Hn Hnow).
  set (start := Z.max now (next l)).
  assert (Hs : now <= start) by (subst start; lia).
  unfold time.Sub, time.minDuration, time.maxDuration.
  destruct (Z.leb_spec (Z.max (- 2 ^ 63) (Z.min (2 ^ 63 - 1) (start - now))) 0) as [L|L];
    cbn [fst snd].
  - split; [lia|]. intros _. lia.
  - unfold select. destruct (context.DoneAt ctx) as [d|]; cbn [fst snd].
    + destruct (Z.ltb_spec d (now + Z.max (- 2 ^ 63) (Z.min (2 ^ 63 - 1) (start - now))));
        [|destruct race]; cbn [fst snd];
        (split; [lia | first [discriminate | intros _; lia]]).
    + split; [lia|]. intros _. lia.
Qed.

(** The same along a sequence of calls. *)
Lemma releases_held calls :
  forall l k c s t,
    0 < minInterval l -> 0 <= next l ->
    Forall (fun c : call => 0 < c.1.1) calls ->
    calls !! k = Some c ->
    allotments l calls !! k = Some s ->
    releases l calls !! k = Some (Some t) ->
    c.1.1 <= t /\ t = Z.min s (c.1.1 + time.maxDuration).
Proof.
  induction calls as [|[[now race] ctx] rest IH]; intros l k c s t Hi Hn Hall Hc Hs Ht.
  - destruct k; discriminate.
  - inversion Hall as [|? ? Hnow Hrest]; subst. cbn in Hnow.
    destruct (allotted_lower l now Hn Hnow) as [Hlo Hpos].
    destruct (Wait_next l now race ctx) as [Hnext Hmin].
    destruct (Wait_timed_held l now race ctx Hn Hnow) as [Hge Hheld].
    cbn [releases allotments] in Hs, Ht.
    unfold fixedIntervalLimiter_Wait in Hs, Hnext, Hmin, Hheld.
    destruct (fixedIntervalLimiter_Wait_timed l now race ctx) as [[l' err] instant].
    cbn [fst snd] in Hs, Hnext, Hmin, Hheld, Hge.
    destruct k as [|k]; cbn in Hc, Hs, Ht.
    + injection Hc as <-. injection Hs as <-. cbn.
      destruct err; [discriminate|]. injection Ht as <-.
      split; [exact Hge | exact (Hheld eq_refl)].
    + apply (IH l' k c s t); try assumption; lia.
Qed.

(** The instants allotted to two calls of a sequence are as many intervals
    apart as the calls are apart in the sequence. *)
Lemma allotments_apart calls :
  forall l i j si sj,
    0 < minInterval l -> 0 <= next l ->
    Forall (fun c : call => 0 < c.1.1) calls ->
    (i < j)%nat ->
    allotments l calls !! i = Some si ->
    allotments l calls !! j = Some sj ->
    si + minInterval l * Z.of_nat (j - i) <= sj.
Proof.
  induction calls as [|[[now race] ctx] rest IH]; intros l i j si sj Hi Hn Hall Hij Hsi Hsj.
  { destruct i; discriminate. }
  inversion Hall as [|? ? Hnow Hrest]; subst. cbn in Hnow.
  destruct (allotted_lower l now Hn Hnow) as [Hlo Hpos].
  destruct (Wait_next l now race ctx) as [Hnext Hmin].
  destruct j as [|j]; [lia|]. cbn in Hsj. destruct i as [|i]; cbn in Hsi.
  - injection Hsi as <-.
    apply allotments_lower in Hsj; [|lia|lia|exact Hrest].
    rewrite Hnext, Hmin in Hsj. lia.
  - assert (Hi' : 0 < minInterval (fst (fixedIntervalLimiter_Wait l now race ctx)))
      by (rewrite Hmin; lia).
    assert (Hn' : 0 <= next (fst (fixedIntervalLimiter_Wait l now race ctx)))
      by (rewrite Hnext; lia).
    specialize (IH _ i j si sj Hi' Hn' Hrest ltac:(lia) Hsi Hsj).
    rewrite Hmin in IH. replace (S j - S i)%nat with (j - i)%nat by lia. exact IH.
Qed.

(** C4.  On a limiter whose interval is positive ([NewFixedIntervalLimiter]
    makes no other) and for clock readings after the zero [Time]: a call of
    [Wait] takes as its release instant the later of the current time and
    the stored next instant, and stores that release instant plus the
    interval, whatever happens to the caller afterwards; so in any sequence
    of calls, cancelled ones included, the release instants of two calls
    are at least the interval apart (and [n] intervals when the calls are
    [n] apart in the sequence).  And [Wait] holds the caller until then: a
    call never returns before it was made, and a call that returns nil
    returns at its release instant, for every wait that a [Duration] can
    hold (a longer one the timer cuts to the largest [Duration]); so the
    callers that are let through, in any sequence of calls with such
    waits, come out at their release instants, an interval apart or
    more. *)
Theorem fixed_interval_spacing (l : fixedIntervalLimiter) (calls : list call) :
  0 < minInterval l -> 0 <= next l ->
  Forall (fun c : call => 0 < c.1.1) calls ->
  (forall interval,
     exists l0, NewFixedIntervalLimiter interval = FixedInterval l0
                /\ next l0 = 0 /\ 0 < minInterval l0
                /\ (0 < interval -> minInterval l0 = interval))
  /\ (forall now race ctx, 0 < now ->
        let start := Z.max now (next l) in
        allotted l now = start
        /\ fst (fixedIntervalLimiter_Wait l now race ctx)
           = {| next := start + minInterval l; minInterval := minInterval l |})
  /\ (forall i j si sj, (i < j)%nat ->
        allotments l calls !! i = Some si ->
        allotments l calls !! j = Some sj ->
        si + minInterval l * Z.of_nat (j - i) <= sj /\ si + minInterval l <= sj)
  /\ (forall now race ctx, 0 < now ->
        let instant := snd (fixedIntervalLimiter_Wait_timed l now race ctx) in
        now <= instant
        /\ (snd (fixedIntervalLimiter_Wait l now race ctx) = None ->
            instant = Z.min (allotted l now) (now + time.maxDuration)
            /\ (allotted l now - now <= time.maxDuration -> instant = allotted l now)))
  /\ (forall i j ci cj si sj ti tj, (i < j)%nat ->
        calls !! i = Some ci -> calls !! j = Some cj ->
        allotments l calls !! i = Some si ->
        allotments l calls !! j = Some sj ->
        releases l calls !! i = Some (Some ti) ->
        releases l calls !! j = Some (Some tj) ->
        si - ci.1.1 <= time.maxDuration ->
        sj - cj.1.1 <= time.maxDuration ->
        ti = si /\ tj = sj
        /\ ti + minInterval l * Z.of_nat (j - i) <= tj /\ ti + minInterval l <= tj).
Proof.
  intros Hi Hn Hall. split; [|split; [|split; [|split]]].
  - intros interval. unfold NewFixedIntervalLimiter. eexists. split; [reflexivity|].
    cbn. destruct (Z.leb_spec interval 0); unfold time.Second; repeat split; lia.
  - intros now race ctx Hnow start. rewrite Wait_state. unfold allotted.
    rewrite (reserve_max l now Hn Hnow). split; reflexivity.
  - intros i j si sj Hij Hsi Hsj.
    pose proof (allotments_apart calls l i j si sj Hi Hn Hall Hij Hsi Hsj) as H.
    split; [exact H|]. nia.
  - intros now race ctx Hnow instant. subst instant.
    destruct (Wait_timed_held l now race ctx Hn Hnow) as [Hge Hheld].
    split; [exact Hge|]. intros Hnil. specialize (Hheld Hnil).
    split; [exact Hheld|]. intros Hfit. lia.
  - intros i j ci cj si sj ti tj Hij Hci Hcj Hsi Hsj Hti Htj Hfi Hfj.
    pose proof (allotments_apart calls l i j si sj Hi Hn Hall Hij Hsi Hsj) as H.
    destruct (releases_held calls l i ci si ti Hi Hn Hall Hci Hsi Hti) as [_ Ei].
    destruct (releases_held calls l j cj sj tj Hi Hn Hall Hcj Hsj Htj) as [_ Ej].
    assert (Ei' : ti = si) by lia. assert (Ej' : tj = sj) by lia.
    split; [exact Ei'|]. split; [exact Ej'|]. rewrite Ei', Ej'.
    split; [exact H|]. nia.
Qed.

(** C5, as the code has it.  A call of [Wait] that has to wait (the instant
    allotted to it is later than the current time, by no more than a
    [Duration] can hold) and whose context is done before that instant
    returns the error of the context, and returns it when the context is
    done (at once, if it was done before the call).  The limiter that a
    call leaves is the same whether it is cancelled or not: the slot of
    the caller stays reserved, [next] being the allotted instant plus one
    interval.  A call that does not have to wait returns nil at once,
    whatever its context. *)
Theorem cancellation_while_waiting (l : fixedIntervalLimiter) (now : Z)
    (race : SelectCase) (ctx : context.Context) :
  (forall d,
     context.DoneAt ctx = Some d ->
     now < allotted l now ->
     allotted l now - now <= time.maxDuration ->
     d < allotted l now ->
     snd (fixedIntervalLimiter_Wait l now race ctx) = Some (context.Err ctx)
     /\ snd (fixedIntervalLimiter_Wait_timed l now race ctx) = Z.max now d)
  /\ (forall race' ctx',
        fst (fixedIntervalLimiter_Wait l now race' ctx')
        = {| next := allotted l now + minInterval l; minInterval := minInterval l |})
  /\ (allotted l now <= now ->
      fixedIntervalLimiter_Wait_timed l now race ctx
      = ({| next := now + minInterval l; minInterval := minInterval l |}, None, now)).
Proof.
  split; [|split].
  - intros d Hd Hw Hfit Hbefore.
    unfold fixedIntervalLimiter_Wait, fixedIntervalLimiter_Wait_timed.
    unfold allotted in Hw, Hfit, Hbefore.
    unfold reserve in *. unfold time.IsZero, time.Before, time.Add in *.
    destruct (negb (next l =? 0) && (now <? next l)) eqn:E; cbn in Hw, Hfit, Hbefore; [|lia].
    assert (Hs : time.Sub (next l) now = next l - now).
    { unfold time.Sub, time.minDuration, time.maxDuration in *. lia. }
    rewrite Hs.
    destruct (Z.leb_spec (next l - now) 0) as [L|L]; [lia|].
    unfold select. rewrite Hd.
    destruct (Z.ltb_spec d (now + (next l - now))) as [L'|L']; [|lia].
    split; reflexivity.
  - intros race' ctx'. rewrite Wait_state. unfold allotted, reserve, time.Add.
    destruct (negb (time.IsZero (next l)) && time.Before now (next l)); reflexivity.
  - intros Hidle. unfold fixedIntervalLimiter_Wait_timed.
    unfold allotted in Hidle. unfold reserve in *.
    unfold time.IsZero, time.Before, time.Add in *.
    destruct (negb (next l =? 0) && (now <? next l)) eqn:E; cbn in Hidle.
    + apply andb_true_iff in E as [_ E]. apply Z.ltb_lt in E. lia.
    + reflexivity.
Qed.

(** * The theorems at the values of the package's tests *)

(** The outcomes of the resolution: an explicit id with white space around
    it, the default [DEF], and no id at all. *)
Lemma device_id_resolution_witness :
  resolveDeviceID " DEV " Fixture.world = (Ok "DEV", Fixture.world)
  /\ resolveDeviceID "  " Fixture.world = (Ok "DEF", Fixture.world)
  /\ strings.TrimSpace (defaultDevice Fixture.anonymous) = GetDefaultDeviceID Fixture.anonymous
  /\ SendText Fixture.env None emptyText Fixture.nobody
     = (Err ErrDeviceIDMissing, Fixture.nobody)
  /\ SendImage Fixture.env None Fixture.image Fixture.nobody
     = (Err ErrDeviceIDMissing, Fixture.nobody).
Proof.
  pose proof (device_id_resolution Fixture.env None Fixture.world " DEV ") as (H1 & _).
  pose proof (device_id_resolution Fixture.env None Fixture.world "  ") as (_ & H2 & _).
  pose proof (device_id_resolution Fixture.env None Fixture.nobody "") as (_ & _ & H3 & H4).
  split; [|split; [|split]].
  - apply H1. vm_compute. discriminate.
  - apply H2; vm_compute; [reflexivity | discriminate].
  - exact (H3 Fixture.defClient "" eq_refl).
  - destruct (H4 eq_refl eq_refl) as (_ & HT & HI).
    split; [apply HT | apply HI]; reflexivity.
Defined.

(** [TestSendText_AllFieldsOptional]: the empty request is sent with the
    default device. *)
Lemma text_validation_witness :
  TextRequest_validate (TextRequest.withDeviceID emptyText "DEF") = None
  /\ snd (SendText Fixture.env None emptyText Fixture.world)
     = addEvent Fixture.world
         (EvHTTPDo (request Fixture.defClient "https://dot.mindreset.tech/api/open/text"
                            [("deviceId", WString "DEF")])).
Proof.
  destruct (text_validation_needs_only_device_id Fixture.env None Fixture.world
              Fixture.world emptyText "DEF" eq_refl) as (H1 & _ & H3).
  split; [exact H1|].
  destruct (H3 eq_refl) as [_ H4]. exact (H4 eq_refl eq_refl).
Defined.

(** [TestSendImage_MissingPayload]. *)
Lemma image_payload_missing_witness :
  SendImage Fixture.env None Fixture.image Fixture.world
  = (Err ErrImagePayloadMissing, Fixture.world)
  /\ SendImage Fixture.env None Fixture.image Fixture.nobody
     = (Err ErrDeviceIDMissing, Fixture.nobody).
Proof.
  destruct (image_payload_missing Fixture.env None Fixture.world Fixture.image
              eq_refl eq_refl eq_refl) as [H1 _].
  destruct (image_payload_missing Fixture.env None Fixture.nobody Fixture.image
              eq_refl eq_refl eq_refl) as [_ H2].
  split.
  - exact (H1 "DEF" Fixture.world eq_refl).
  - exact (H2 ErrDeviceIDMissing Fixture.nobody eq_refl).
Defined.

(** [TestSendImage_WithBytesAndPath]: the bytes of the PNG header as
    [ImageBytes], in the file [img.png], and as [Image]; and a path that
    names no file. *)
Lemma image_sources_witness :
  let send (r : ImageRequest.t) := doJSON Fixture.env None imageEndpoint (ImagePayload r) in
  let bytes := viaBytes Fixture.image Fixture.png in
  let file := viaFile Fixture.image "img.png" in
  let preset := viaImage Fixture.image Fixture.png in
  let sent := ImageRequest.withDeviceID preset "DEF" in
  SendImage Fixture.env None preset Fixture.world = send sent Fixture.world
  /\ SendImage Fixture.env None bytes Fixture.world
     = send (ImageRequest.withImage (ImageRequest.withDeviceID bytes "DEF") "iVBORw==")
            Fixture.world
  /\ SendImage Fixture.env None file Fixture.world
     = send (ImageRequest.withImage (ImageRequest.withDeviceID file "DEF") "iVBORw==")
            (addEvent Fixture.world (EvReadFile "img.png"))
  /\ SendImage Fixture.env None bytes Fixture.world
     = SendImage Fixture.env None preset Fixture.world
  /\ SendImage Fixture.env None file Fixture.world
     = SendImage Fixture.env None preset (addEvent Fixture.world (EvReadFile "img.png"))
  /\ member "image" (Marshal_ImageRequest sent) = Some (WString "iVBORw==")
  /\ SendImage Fixture.env None (viaFile Fixture.image "missing.png") Fixture.world
     = (Err (Errorf "quote0: read image file: %w"
               (OtherError "open: no such file or directory")),
        addEvent Fixture.world (EvReadFile "missing.png")).
Proof.
  intros send bytes file preset sent.
  assert (Hpng : Fixture.png <> []) by discriminate.
  destruct (image_source_precedence_and_equivalence Fixture.env None Fixture.world
              preset "DEF" eq_refl) as (Ha & _).
  destruct (image_source_precedence_and_equivalence Fixture.env None Fixture.world
              bytes "DEF" eq_refl) as (_ & Hb & _).
  destruct (image_source_precedence_and_equivalence Fixture.env None Fixture.world
              file "DEF" eq_refl) as (_ & _ & Hc' & _).
  destruct (image_source_precedence_and_equivalence Fixture.env None Fixture.world
              Fixture.image "DEF" eq_refl) as (_ & _ & _ & Hd).
  destruct (Hd Fixture.png "img.png") as (Hd1 & Hd2 & Hd3).
  destruct (image_source_precedence_and_equivalence Fixture.env None Fixture.world
              (viaFile Fixture.image "missing.png") "DEF" eq_refl) as (_ & _ & Hc & _).
  split; [|split; [|split; [|split; [|split; [|split]]]]].
  - apply Ha. vm_compute. discriminate.
  - apply Hb; [reflexivity | exact Hpng].
  - refine (proj2 (Hc' eq_refl eq_refl _) Fixture.png eq_refl Hpng).
    vm_compute. discriminate.
  - exact Hd1.
  - apply Hd2; [vm_compute; discriminate | reflexivity].
  - exact (proj2 (Hd3 Hpng)).
  - refine (proj1 (Hc eq_refl eq_refl _) _ eq_refl). vm_compute. discriminate.
Defined.

(** [TestBuildAPIErrorJSON], and the plain-text body of
    [TestSendText_PlainErrorChinese] (here in ASCII). *)
Lemma buildAPIError_witness :
  let body := go_bytes (Fixture.js "{'code':'E100','message':'boom'}") in
  let text := go_bytes " too many requests " in
  (exists ae, buildAPIError 400 body = APIErrorPtr (Some ae)
              /\ APIError.StatusCode ae = 400
              /\ APIError.RawBody ae = body
              /\ APIError.Message ae = "boom"
              /\ APIError.Code ae = "E100")
  /\ (exists ae, buildAPIError 429 text = APIErrorPtr (Some ae)
                 /\ APIError.RawBody ae = text
                 /\ APIError.Message ae = "too many requests"
                 /\ APIError.Code ae = "").
Proof.
  intros body text. split.
  - destruct (buildAPIError_normalizes 400 body) as (ae & (H1 & H2 & H3 & H4 & _) & _).
    exists ae. split; [exact H1|]. split; [exact H2|]. split; [exact H3|].
    assert (Hp : tryParseJSON body
                 = Some (<["code" := json.anyString "E100"]>
                           (<["message" := json.anyString "boom"]> ∅)))
      by (vm_compute; reflexivity).
    destruct (H4 _ eq_refl Hp) as (M1 & _ & _ & C1 & _).
    split.
    + apply M1; [reflexivity | discriminate].
    + exact (C1 "E100" eq_refl).
  - destruct (buildAPIError_normalizes 429 text) as (ae & (H1 & _ & H3 & _ & H5) & _).
    exists ae. split; [exact H1|]. split; [exact H3|].
    apply H5. left. reflexivity.
Defined.

(** A status 429 is a rate-limit error, also when the body is plain text;
    the errors of validation are neither kind. *)
Lemma error_classification_witness :
  IsRateLimitError (Some (APIErrorPtr (Some (APIError.mk 429 "" "slow down" [])))) = Some true
  /\ IsAuthError (Some (APIErrorPtr (Some (APIError.mk 403 "" "" [])))) = Some true
  /\ IsAuthError (Some (APIErrorPtr (Some (APIError.mk 500 "" "" [])))) = Some false
  /\ IsRateLimitError (Some (buildAPIError 429 (go_bytes "busy"))) = Some true
  /\ IsRateLimitError (Some ErrDeviceIDMissing) = Some false
  /\ IsAuthError None = Some false.
Proof.
  destruct error_classification as (H1 & H2 & H3).
  split; [|split; [|split; [|split; [|split]]]].
  - apply (proj1 (H1 (APIError.mk 429 "" "slow down" []))). reflexivity.
  - apply (proj1 (proj2 (H1 (APIError.mk 403 "" "" [])))). right. reflexivity.
  - apply (proj2 (proj2 (H1 (APIError.mk 500 "" "" [])))); discriminate.
  - exact (proj1 (H2 429 (go_bytes "busy"))).
  - apply (H3 (Some ErrDeviceIDMissing)). discriminate.
  - apply (H3 None). discriminate.
Defined.

(** [TestTextRequest_OmitEmptyFields] and
    [TestBorderColor_JSONSerialization]. *)
Lemma unset_fields_witness :
  let text := Marshal_TextRequest (TextRequest.mk None "DEF" "" "hello" "" "" "") in
  let black := Marshal_ImageRequest
                 (ImageRequest.mk None "D" "aGVsbG8=" [] "" "" BorderBlack "" "") in
  let white := Marshal_ImageRequest
                 (ImageRequest.mk None "D" "aGVsbG8=" [] "" "" BorderWhite "" "") in
  member "title" text = None
  /\ member "signature" text = None
  /\ member "message" text = Some (WString "hello")
  /\ (forall v, ("message", v) ∈ text -> v <> WString "")
  /\ member "border" black = Some (WInt 1)
  /\ member "link" black = None
  /\ (forall v, ("border", v) ∈ black -> v <> WString "")
  /\ member "border" white = None.
Proof.
  intros text black white.
  destruct unset_fields_are_omitted as [HT HI].
  destruct (HT (TextRequest.mk None "DEF" "" "hello" "" "" ""))
    as (_ & _ & T1 & T2 & T3 & _ & _ & T4).
  destruct (HI (ImageRequest.mk None "D" "aGVsbG8=" [] "" "" BorderBlack "" ""))
    as (_ & _ & _ & I1 & _ & _ & _ & _ & _ & I3 & I2 & _).
  destruct (HI (ImageRequest.mk None "D" "aGVsbG8=" [] "" "" BorderWhite "" ""))
    as (_ & _ & _ & _ & _ & _ & _ & _ & _ & _ & _ & I4).
  split; [exact T1|]. split; [exact T3|]. split; [exact T2|].
  split; [|split; [exact (I2 eq_refl) | split; [exact I1 | split; [|exact (I4 eq_refl)]]]].
  - intros v Hv. apply (T4 "message" v Hv). discriminate.
  - intros v Hv. apply (I3 "border" v Hv); discriminate.
Defined.

(** [TestSendText_SuccessJSON]; an empty body; a reply in plain text; and
    plain text under a JSON content type. *)
Lemma success_response_witness :
  let raw := Response.Body Fixture.okResponse in
  let plain := Response.mk 200 ∅ (go_bytes " ok ") None in
  decodeResponse Fixture.env Fixture.okResponse raw = Ok (APIResponse.mk 0 "ok" [] 200 raw)
  /\ decodeResponse Fixture.env Fixture.okResponse [] = Ok (APIResponse.mk 0 "" [] 200 [])
  /\ decodeResponse Fixture.env plain (go_bytes " ok ")
     = Ok (APIResponse.mk 0 "ok" [] 200 (go_bytes " ok "))
  /\ decodeResponse Fixture.env Fixture.okResponse (go_bytes " ok ")
     = Ok (APIResponse.mk 0 "ok" [] 200 (go_bytes " ok ")).
Proof.
  intros raw plain.
  destruct (success_response_decoding Fixture.env Fixture.okResponse raw)
    as (out & H1 & _ & _ & _ & H5 & _); [cbn; lia|].
  destruct (success_response_decoding Fixture.env Fixture.okResponse [])
    as (out0 & H10 & _ & _ & H40 & _); [cbn; lia|].
  destruct (success_response_decoding Fixture.env plain (go_bytes " ok "))
    as (out' & H1' & _ & _ & _ & _ & _ & H7'); [cbn; lia|].
  destruct (success_response_decoding Fixture.env Fixture.okResponse (go_bytes " ok "))
    as (out2 & H12 & _ & _ & _ & _ & H62 & _); [cbn; lia|].
  split; [|split; [|split]].
  - rewrite H1. f_equal. apply H5; [discriminate | reflexivity | reflexivity].
  - rewrite H10. f_equal. apply H40. reflexivity.
  - rewrite H1'. f_equal. apply H7'; [discriminate | reflexivity].
  - rewrite H12. f_equal.
    apply (H62 ltac:(discriminate) eq_refl
               (APIResponse.mk 0 "" [] 200 (go_bytes " ok "))
               (OtherError "json: syntax error")).
    reflexivity.
Defined.

(** Three calls on a fresh one-second limiter, two of them back to back
    and the second cancelled: the release instants are a second apart, the
    first caller is let through at once and the third after its two
    seconds, while the cancelled one is not let through. *)
Lemma fixed_interval_witness :
  let l := {| next := 0; minInterval := time.Second |} in
  let calls := [(1000, TimerC, context.Background); (1001, CtxDone, Fixture.cancelled);
                (1002, TimerC, context.Background)] in
  NewFixedIntervalLimiter 0 = FixedInterval l
  /\ allotted l 1000 = 1000
  /\ fst (fixedIntervalLimiter_Wait l 1000 TimerC context.Background)
     = {| next := 1000 + time.Second; minInterval := time.Second |}
  /\ allotments l calls = [1000; 1000001000; 2000001000]
  /\ 1000 + time.Second * 2 <= 2000001000
  /\ snd (fixedIntervalLimiter_Wait_timed {| next := 5000; minInterval := time.Second |}
            1000 CtxDone context.Background) = 5000
  /\ releases l calls = [Some 1000; None; Some 2000001000]
  /\ 1000 + time.Second * Z.of_nat (2 - 0) <= 2000001000.
Proof.
  intros l calls.
  destruct (fixed_interval_spacing l calls) as (_ & H2 & H3 & _ & H5).
  - reflexivity.
  - cbn. lia.
  - repeat constructor.
  - split; [reflexivity|].
    destruct (H2 1000 TimerC context.Background ltac:(lia)) as [H2a H2b].
    split; [exact H2a|]. split; [exact H2b|]. split; [reflexivity|].
    split; [exact (proj1 (H3 0%nat 2%nat 1000 2000001000 ltac:(lia) eq_refl eq_refl))|].
    destruct (fixed_interval_spacing {| next := 5000; minInterval := time.Second |} [])
      as (_ & _ & _ & H4 & _).
    + reflexivity.
    + cbn. lia.
    + constructor.
    + destruct (H4 1000 CtxDone context.Background ltac:(lia)) as [_ H4b].
      destruct (H4b eq_refl) as [_ H4c].
      split; [exact (H4c ltac:(vm_compute; discriminate))|].
      split; [reflexivity|].
      exact (proj1 (proj2 (proj2 (H5 0%nat 2%nat (1000, TimerC, context.Background)
                                    (1002, TimerC, context.Background)
                                    1000 2000001000 1000 2000001000 ltac:(lia)
                                    eq_refl eq_refl eq_refl eq_refl eq_refl eq_refl
                                    ltac:(vm_compute; discriminate)
                                    ltac:(vm_compute; discriminate))))).
Defined.

(** A caller with four microseconds to wait, cancelled after one; and a
    caller with a cancelled context at a limiter with a free slot. *)
Lemma cancellation_witness :
  let l := {| next := 5000; minInterval := time.Second |} in
  let ctx := context.mk (Some 2000) context.Canceled in
  snd (fixedIntervalLimiter_Wait l 1000 TimerC ctx) = Some context.Canceled
  /\ snd (fixedIntervalLimiter_Wait_timed l 1000 TimerC ctx) = 2000
  /\ fst (fixedIntervalLimiter_Wait l 1000 TimerC ctx)
     = {| next := 5000 + time.Second; minInterval := time.Second |}
  /\ fst (fixedIntervalLimiter_Wait l 1000 TimerC context.Background)
     = {| next := 5000 + time.Second; minInterval := time.Second |}
  /\ fixedIntervalLimiter_Wait_timed {| next := 0; minInterval := time.Second |}
       1000 CtxDone Fixture.cancelled
     = ({| next := 1000 + time.Second; minInterval := time.Second |}, None, 1000).
Proof.
  intros l ctx.
  destruct (cancellation_while_waiting l 1000 TimerC ctx) as (H1 & H2 & _).
  destruct (H1 2000) as [H1a H1b].
  - reflexivity.
  - cbn. lia.
  - cbn. unfold time.maxDuration. lia.
  - cbn. lia.
  - split; [exact H1a|]. split; [exact H1b|].
    split; [exact (H2 TimerC ctx)|]. split; [exact (H2 TimerC context.Background)|].
    destruct (cancellation_while_waiting {| next := 0; minInterval := time.Second |}
                1000 CtxDone Fixture.cancelled) as (_ & _ & H3).
    apply H3. cbn. lia.
Defined.

(** * Where the code departs from the wording of the specification *)

(** C1, as stated, at an explicit id with white space around it.  The id is
    not blank, and the device id that is used, and written to the wire, is
    not the explicit id but its trimmed form. *)
Lemma explicit_device_id_is_not_used_verbatim :
  ~ blank " DEV "
  /\ resolveDeviceID " DEV " Fixture.world <> (Ok " DEV ", Fixture.world)
  /\ trace (snd (SendText Fixture.env None (TextRequest.withDeviceID emptyText " DEV ")
                   Fixture.world))
     = [EvHTTPDo (request Fixture.defClient "https://dot.mindreset.tech/api/open/text"
                          [("deviceId", WString "DEV")])].
Proof.
  split; [|split].
  - vm_compute. discriminate.
  - vm_compute. discriminate.
  - vm_compute. reflexivity.
Qed.

(** C2, as stated, at a body made of a form feed and a JSON object.  The
    trimmed text is the object: it starts and ends with a brace and it
    parses, with a member [message].  But [buildAPIError] parses the body
    as received, which is not JSON, and the message is the trimmed text. *)
Lemma untrimmed_body_is_what_is_parsed :
  strings.TrimSpace (go_string Fixture.feedBody) = Fixture.feedObject
  /\ isJSONObject Fixture.feedObject = true
  /\ tryParseJSON (go_bytes Fixture.feedObject)
     = Some {["message" := json.anyString "slow down"]}
  /\ buildAPIError 429 Fixture.feedBody
     = APIErrorPtr (Some (APIError.mk 429 "" Fixture.feedObject Fixture.feedBody))
  /\ Fixture.feedObject <> "slow down".
Proof.
  split; [|split; [|split; [|split]]].
  - vm_compute. reflexivity.
  - vm_compute. reflexivity.
  - vm_compute. reflexivity.
  - vm_compute. reflexivity.
  - vm_compute. discriminate.
Qed.

(** C5, as stated, at a context that is already cancelled (at instant 500)
    when [Wait] is called (at instant 1000) on a limiter that has a free
    slot: the cancellation precedes the release instant, and [Wait]
    returns nil, even if the scheduler favours the cancellation.  The
    dispatch then goes on to the transport. *)
Lemma cancelled_context_passes_idle_limiter :
  context.DoneAt Fixture.cancelled = Some 500
  /\ 500 < allotted {| next := 0; minInterval := time.Second |} 1000
  /\ snd (fixedIntervalLimiter_Wait {| next := 0; minInterval := time.Second |}
            1000 CtxDone Fixture.cancelled) = None
  /\ trace (snd (SendText Fixture.env (Some Fixture.cancelled) emptyText Fixture.throttled))
     = [EvLimiterWait Fixture.cancelled;
        EvHTTPDo (request Fixture.limited "https://dot.mindreset.tech/api/open/text"
                          [("deviceId", WString "DEF")])].
Proof.
  split; [|split; [|split]].
  - reflexivity.
  - vm_compute. reflexivity.
  - vm_compute. reflexivity.
  - vm_compute. reflexivity.
Qed.

(** The bound on the wait in C4 and C5.  The time to wait is a [Duration],
    and [Sub] cuts it to the largest one, some 292 years.  On a limiter
    whose interval is [2 ^ 62] nanoseconds the third caller of a burst is
    allotted an instant [2 ^ 63] nanoseconds away, and its timer fires one
    nanosecond before that instant.  A context that is done at that
    nanosecond is done before the allotted instant, and yet the call
    returns nil when the scheduler takes the timer. *)
Lemma wait_beyond_a_Duration_is_cut :
  let l := {| next := 0; minInterval := 2 ^ 62 |} in
  let burst := [(1000, TimerC, context.Background); (1000, TimerC, context.Background);
                (1000, TimerC, context.mk (Some (999 + 2 ^ 63)) context.Canceled)] in
  NewFixedIntervalLimiter (2 ^ 62) = FixedInterval l
  /\ allotments l burst = [1000; 1000 + 2 ^ 62; 1000 + 2 ^ 63]
  /\ releases l burst = [Some 1000; Some (1000 + 2 ^ 62); Some (1000 + time.maxDuration)]
  /\ 999 + 2 ^ 63 < 1000 + 2 ^ 63.
Proof.
  split; [|split; [|split]].
  - reflexivity.
  - vm_compute. reflexivity.
  - vm_compute. reflexivity.
  - lia.
Qed.

(** C6, as stated, at a path with a space before the name, where the file
    of exactly that name holds the bytes: [SendImage] opens the file of the
    trimmed name instead, and fails, while the same bytes given as
    [ImageBytes] are sent. *)
Lemma image_path_is_trimmed_before_reading :
  ~ blank " a.png"
  /\ os_ReadFile Fixture.paddedEnv " a.png" = Ok Fixture.png
  /\ SendImage Fixture.paddedEnv None (viaFile Fixture.image " a.png") Fixture.world
     = (Err (Errorf "quote0: read image file: %w"
               (OtherError "open: no such file or directory")),
        addEvent Fixture.world (EvReadFile "a.png"))
  /\ trace (snd (SendImage Fixture.paddedEnv None (viaBytes Fixture.image Fixture.png)
                   Fixture.world))
     = [EvHTTPDo (request Fixture.defClient "https://dot.mindreset.tech/api/open/image"
                          [("deviceId", WString "DEF"); ("image", WString "iVBORw==")])].
Proof.
  split; [|split; [|split]].
  - vm_compute. discriminate.
  - reflexivity.
  - vm_compute. reflexivity.
  - vm_compute. reflexivity.
Qed.

(** * The rest of the package

    Properties of the code the statements above leave out: the
    construction of a client, the dispatcher as a whole, the text of an
    error, the limiter when it is idle or under a burst, the convenience
    operations, the request body, and the command-line tool. *)

(** ** Strings *)

Lemma append_assoc (a b c : string) : (a +:+ b) +:+ c = a +:+ (b +:+ c).
Proof.
  induction a as [|x a IH]; [reflexivity|].
  change (String x ((a +:+ b) +:+ c) = String x (a +:+ (b +:+ c))).
  rewrite IH. reflexivity.
Qed.

Lemma chars_append (a b : string) : chars (a +:+ b) = chars a ++ chars b.
Proof.
  induction a as [|x a IH]; [reflexivity|].
  change (x :: chars (a +:+ b) = x :: (chars a ++ chars b)). rewrite IH. reflexivity.
Qed.

(** A string that begins and ends with bytes that are not white space is
    left alone by [TrimSpace]. *)
Lemma trim_plain_ends a l b :
  plain a = true -> plain b = true ->
  strings.trimRight (strings.trimLeft (a :: l ++ [b])) = a :: l ++ [b].
Proof.
  intros Ha Hb. unfold strings.trimLeft, strings.trimRight.
  rewrite (strip_nolead strings.asciiSpace strings.space2 strings.space3 (a :: l ++ [b]))
    by (apply plain_leadLeft; exact Ha).
  change (a :: l ++ [b]) with ((a :: l) ++ [b]). rewrite rev_app_distr.
  cbn [rev app]. rewrite strip_nolead by (apply plain_leadRight; exact Hb).
  change (b :: rev l ++ [a]) with (rev [b] ++ rev (a :: l)).
  rewrite <- rev_app_distr, rev_involutive. reflexivity.
Qed.

Lemma TrimSpace_plain_ends a m b :
  plain a = true -> plain b = true ->
  strings.TrimSpace (String a (m +:+ String b "")) = String a (m +:+ String b "").
Proof.
  intros Ha Hb. unfold strings.TrimSpace.
  change (chars (String a (m +:+ String b ""))) with (a :: chars (m +:+ String b "")).
  rewrite chars_append. change (chars (String b "")) with [b].
  rewrite trim_plain_ends by assumption.
  rewrite <- (of_chars_chars (String a (m +:+ String b ""))).
  change (chars (String a (m +:+ String b ""))) with (a :: chars (m +:+ String b "")).
  rewrite chars_append. reflexivity.
Qed.

Lemma length_of_chars l : String.length (of_chars l) = length l.
Proof. induction l as [|a l IH]; [reflexivity|]. cbn. rewrite <- IH. reflexivity. Qed.

Lemma digits_plain d :
  Forall (fun a => plain a = true) (chars (NilEmpty.string_of_uint d)).
Proof.
  induction d; simpl; constructor; (reflexivity || assumption).
Qed.

Lemma Itoa_plain i : Forall (fun a => plain a = true) (chars (strconv.Itoa i)).
Proof.
  unfold strconv.Itoa, NilZero.string_of_int.
  assert (H : forall d, Forall (fun a => plain a = true) (chars (NilZero.string_of_uint d))).
  { intros d. destruct d; try apply digits_plain. repeat constructor. }
  destruct (Z.to_int i) as [d|d]; [apply H|].
  constructor; [reflexivity | apply H].
Qed.

(** ** The construction of a client *)

Lemma buildDefaultUserAgent_trimmed env :
  strings.TrimSpace (buildDefaultUserAgent env) = buildDefaultUserAgent env
  /\ buildDefaultUserAgent env <> "".
Proof.
  unfold buildDefaultUserAgent.
  set (goVer := if String.eqb _ "" then _ else _).
  assert (E : userAgentProduct +:+ "/" +:+ userAgentVersion
              +:+ " (+https://github.com/1set/quote0; Go" +:+ goVer +:+ "; "
              +:+ runtime_GOOS env +:+ "/" +:+ runtime_GOARCH env +:+ ")"
              = String "q" (("uote0-go-sdk/1.0 (+https://github.com/1set/quote0; Go"
                             +:+ goVer +:+ "; " +:+ runtime_GOOS env +:+ "/"
                             +:+ runtime_GOARCH env) +:+ String ")" "")).
  { rewrite !append_assoc. reflexivity. }
  rewrite E. split; [|discriminate].
  apply TrimSpace_plain_ends; reflexivity.
Qed.

Lemma fold_options_userAgent (opts : list (option ClientOption)) :
  Forall (fun o : option ClientOption =>
            forall f, o = Some f -> forall c0, userAgent (f c0) = userAgent c0) opts ->
  forall c,
    userAgent (fold_left (fun c opt => match opt with Some f => f c | None => c end) opts c)
    = userAgent c.
Proof.
  induction 1 as [|o opts Ho _ IH]; intros c; [reflexivity|].
  cbn [fold_left]. rewrite IH. destruct o as [f|]; [|reflexivity].
  apply (Ho f eq_refl).
Qed.

Lemma fold_options_apiKey (opts : list (option ClientOption)) :
  Forall (fun o : option ClientOption =>
            forall f, o = Some f -> forall c0, apiKey (f c0) = apiKey c0) opts ->
  forall c,
    apiKey (fold_left (fun c opt => match opt with Some f => f c | None => c end) opts c)
    = apiKey c.
Proof.
  induction 1 as [|o opts Ho _ IH]; intros c; [reflexivity|].
  cbn [fold_left]. rewrite IH. destruct o as [f|]; [|reflexivity].
  apply (Ho f eq_refl).
Qed.

(** X1.  [NewClient] needs a token: a blank one is refused whatever the
    options; any other is accepted and, under options that leave the
    token alone (as those of the package do), it is stored trimmed.  With
    no option the client has the default host, the one-second limiter, the
    default user agent and no default device. *)
Theorem NewClient_requires_token (env : Env) (key : string)
    (opts : list (option ClientOption)) :
  (blank key ->
   NewClient env key opts = Err (OtherError "quote0: API token is required"))
  /\ (~ blank key ->
      (exists c, NewClient env key opts = Ok c
                 /\ (Forall (fun o : option ClientOption =>
                               forall f, o = Some f -> forall c0, apiKey (f c0) = apiKey c0)
                            opts ->
                     apiKey c = strings.TrimSpace key))
      /\ NewClient env key []
         = Ok {| baseURL := DefaultBaseURL; apiKey := strings.TrimSpace key;
                 limiter := Some (FixedInterval {| next := 0; minInterval := time.Second |});
                 userAgent := buildDefaultUserAgent env; defaultDevice := "" |}).
Proof.
  unfold NewClient, blank. split.
  - intros ->. reflexivity.
  - intros H. apply String.eqb_neq in H. rewrite H. split; [|reflexivity].
    eexists. split; [reflexivity|]. intros Hopts.
    cbn [WithBaseURL apiKey]. rewrite (fold_options_apiKey opts Hopts). reflexivity.
Qed.

(** [TestNewClientRequiresToken]. *)
Lemma NewClient_requires_token_witness :
  NewClient Fixture.env " " [] = Err (OtherError "quote0: API token is required")
  /\ exists c, NewClient Fixture.env " test " [Some (WithRateLimiter None)] = Ok c
               /\ apiKey c = "test".
Proof.
  split.
  - apply (proj1 (NewClient_requires_token Fixture.env " " [])). reflexivity.
  - destruct (proj2 (NewClient_requires_token Fixture.env " test "
                       [Some (WithRateLimiter None)])) as [(c & Hc & Hk) _].
    + vm_compute. discriminate.
    + exists c. split; [exact Hc|]. rewrite Hk; [reflexivity|].
      repeat constructor. intros f [= <-] c0. reflexivity.
Defined.

Lemma dropWhile_head f l : strings.prefix_of [f] (strings.dropWhile (Ascii.eqb f) l) = false.
Proof.
  induction l as [|a l IH]; [reflexivity|]. cbn [strings.dropWhile].
  destruct (Ascii.eqb f a) eqn:E; [exact IH|].
  cbn [strings.prefix_of]. rewrite E. reflexivity.
Qed.

Lemma TrimRight_no_suffix s c : strings.HasSuffix (strings.TrimRight s c) (String c "") = false.
Proof.
  unfold strings.HasSuffix, strings.TrimRight. rewrite chars_of_chars, rev_involutive.
  apply dropWhile_head.
Qed.

Lemma sanitizeBaseURL_no_slash u : strings.HasSuffix (sanitizeBaseURL u) "/" = false.
Proof.
  unfold sanitizeBaseURL. destruct (String.eqb _ ""); [reflexivity|].
  apply TrimRight_no_suffix.
Qed.

(** X2.  The base URL of a client never ends with a slash, whatever the
    options, so that joining it with an endpoint gives one slash between
    them; and a blank base URL stands for the default host. *)
Theorem base_url_is_sanitized (env : Env) (key : string)
    (opts : list (option ClientOption)) :
  (forall c, NewClient env key opts = Ok c -> strings.HasSuffix (baseURL c) "/" = false)
  /\ (forall u c, blank u ->
        NewClient env key (opts ++ [Some (WithBaseURL u)]) = Ok c ->
        baseURL c = DefaultBaseURL).
Proof.
  unfold NewClient. destruct (String.eqb (strings.TrimSpace key) ""); [split; intros; discriminate|].
  split.
  - intros c [= <-]. cbn [WithBaseURL baseURL]. apply sanitizeBaseURL_no_slash.
  - intros u c Hu [= <-]. cbn [WithBaseURL baseURL]. rewrite fold_left_app.
    cbn [fold_left WithBaseURL baseURL]. unfold sanitizeBaseURL. rewrite Hu. reflexivity.
Qed.

Lemma base_url_is_sanitized_witness :
  exists c, NewClient Fixture.env "test" [Some (WithBaseURL " https://example.test/// ")] = Ok c
            /\ baseURL c = "https://example.test"
            /\ strings.HasSuffix (baseURL c) "/" = false
            /\ exists c', NewClient Fixture.env "test" [Some (WithBaseURL "  ")] = Ok c'
                          /\ baseURL c' = "https://dot.mindreset.tech".
Proof.
  eexists. split; [reflexivity|]. split; [reflexivity|]. split.
  - apply (proj1 (base_url_is_sanitized Fixture.env "test"
                    [Some (WithBaseURL " https://example.test/// ")])). reflexivity.
  - eexists. split; [reflexivity|].
    apply (proj2 (base_url_is_sanitized Fixture.env "test" []) "  "); reflexivity.
Defined.

Lemma dropWhile_repeat c n : strings.dropWhile (Ascii.eqb c) (repeat c n) = [].
Proof.
  induction n as [|n IH]; [reflexivity|].
  cbn [repeat strings.dropWhile]. rewrite Ascii.eqb_refl. exact IH.
Qed.

Lemma rev_repeat {A} (x : A) n : rev (repeat x n) = repeat x n.
Proof.
  induction n as [|n IH]; [reflexivity|]. cbn [repeat rev]. rewrite IH.
  clear IH. induction n as [|n IH]; [reflexivity|]. cbn [repeat app]. rewrite IH. reflexivity.
Qed.

(** X3.  A base URL made of slashes only is not taken for blank: what is
    left of it is the empty string, not the default host, and the requests
    of such a client go to the bare endpoint path. *)
Theorem slash_only_base_url_becomes_empty (env : Env) (key : string)
    (opts : list (option ClientOption)) (n : nat) (c : Client) :
  (0 < n)%nat ->
  NewClient env key (opts ++ [Some (WithBaseURL (of_chars (repeat "/"%char n)))]) = Ok c ->
  baseURL c = ""
  /\ forall body, URL (request c (baseURL c +:+ textEndpoint) body) = "/api/open/text".
Proof.
  intros Hn. unfold NewClient.
  destruct (String.eqb (strings.TrimSpace key) ""); [discriminate|].
  intros [= <-]. cbn [WithBaseURL baseURL]. rewrite fold_left_app.
  cbn [fold_left WithBaseURL baseURL].
  assert (E : sanitizeBaseURL (of_chars (repeat "/"%char n)) = "").
  { unfold sanitizeBaseURL.
    rewrite TrimSpace_all_plain
      by (rewrite chars_of_chars; apply Forall_forall; intros a Ha;
          apply list_elem_of_In, repeat_spec in Ha; subst a; reflexivity).
    destruct n as [|n]; [lia|]. cbn [repeat of_chars String.string_of_list_ascii String.eqb].
    change (String "/" (String.string_of_list_ascii (repeat "/"%char n)))
      with (of_chars (repeat "/"%char (S n))).
    unfold strings.TrimRight. rewrite chars_of_chars, rev_repeat, dropWhile_repeat.
    reflexivity. }
  rewrite E. split; reflexivity.
Qed.

Lemma slash_only_base_url_becomes_empty_witness :
  exists c, NewClient Fixture.env "test" [Some (WithBaseURL "//")] = Ok c /\ baseURL c = "".
Proof.
  eexists. split; [reflexivity|].
  refine (proj1 (slash_only_base_url_becomes_empty Fixture.env "test" [] 2 _ _ eq_refl)). lia.
Defined.

(** X4.  A client made without [WithUserAgent] sends the default user agent
    of the SDK, as it is: the header [User-Agent] of each of its requests
    is [buildDefaultUserAgent]. *)
Theorem default_user_agent_is_sent (env : Env) (key : string)
    (opts : list (option ClientOption)) (c : Client) :
  Forall (fun o : option ClientOption =>
            forall f, o = Some f -> forall c0, userAgent (f c0) = userAgent c0) opts ->
  NewClient env key opts = Ok c ->
  forall url body,
    Header (request c url body)
    = [("Authorization", "Bearer " +:+ apiKey c); ("Content-Type", "application/json");
       ("User-Agent", buildDefaultUserAgent env)].
Proof.
  intros Hopts. unfold NewClient.
  destruct (String.eqb (strings.TrimSpace key) ""); [discriminate|].
  intros [= <-] url body. unfold request. cbn [Header WithBaseURL userAgent apiKey].
  rewrite (fold_options_userAgent opts Hopts). cbn [userAgent].
  destruct (buildDefaultUserAgent_trimmed env) as [-> Hne].
  apply String.eqb_neq in Hne. unfold nonEmpty. rewrite Hne. reflexivity.
Qed.

(** [TestDefaultUserAgent]. *)
Lemma default_user_agent_is_sent_witness :
  exists c,
    NewClient Fixture.env "test-token"
      [Some (WithBaseURL "http://127.0.0.1:8080"); Some (WithRateLimiter None);
       Some (WithDefaultDeviceID "TEST")] = Ok c
    /\ Header (request c "http://127.0.0.1:8080/api/open/text" [])
       = [("Authorization", "Bearer test-token"); ("Content-Type", "application/json");
          ("User-Agent",
           "quote0-go-sdk/1.0 (+https://github.com/1set/quote0; Go1.22.0; linux/amd64)")].
Proof.
  eexists. split; [reflexivity|].
  refine (default_user_agent_is_sent Fixture.env "test-token"
            [Some (WithBaseURL "http://127.0.0.1:8080"); Some (WithRateLimiter None);
             Some (WithDefaultDeviceID "TEST")] _ _ eq_refl _ _).
  repeat constructor; intros f [= <-] c0; reflexivity.
Defined.

(** ** The dispatcher as a whole *)

Lemma json_Marshal_total p : exists body, json_Marshal p = Ok body.
Proof. destruct p; eexists; reflexivity. Qed.

(** [doJSON] step by step: the wait on the limiter, if there is one, and
    then the request. *)
Lemma doJSON_unfold env ctx endpoint p w body :
  json_Marshal p = Ok body ->
  let url := baseURL (client w) +:+ endpoint in
  let req := request (client w) url body in
  let send (w1 : World) :=
    match http_NewRequest env url with
    | Some e => (Err (Errorf "quote0: build request: %w" e), w1)
    | None => (exchange env req, addEvent w1 (EvHTTPDo req))
    end in
  doJSON env ctx endpoint p w
  = match limiter (client w) with
    | None => send w
    | Some l =>
        let '(l', err) :=
          RateLimiter_Wait l (time_Now env) (select_race env) (orBackground ctx) in
        let waited := {| client := withLimiter (client w) l';
                         trace := trace w ++ [EvLimiterWait (orBackground ctx)] |} in
        match err with
        | Some e => (Err e, waited)
        | None => send waited
        end
    end.
Proof.
  intros Hm url req send.
  assert (Hsend : forall w1 : World,
            (let* body := lift (json_Marshal p) (Errorf "quote0: encode request: %w") in
             let* _ := check (option_map (Errorf "quote0: build request: %w")
                                          (http_NewRequest env url)) in
             let req := request (client w) url body in
             let* _ := emit (EvHTTPDo req) in
             let* resp := lift (http_Do env req) (Errorf "quote0: execute request: %w") in
             let* raw := lift (readBody resp) (Errorf "quote0: read response: %w") in
             lift (decodeResponse env resp raw) (fun e => e)) w1 = send w1).
  { intros w1. unfold bind at 1. rewrite Hm. cbn [lift ret]. subst send. cbn beta.
    destruct (http_NewRequest env url) as [e|]; [reflexivity|].
    cbn. fold req. unfold exchange, addEvent.
    destruct (http_Do env req) as [resp|e]; cbn; [|reflexivity].
    destruct (readBody resp) as [raw|e]; cbn; [|reflexivity].
    destruct (decodeResponse env resp raw); reflexivity. }
  unfold doJSON. unfold bind at 1, getClient. unfold bind at 1.
  destruct (limiter (client w)) as [l|].
  - unfold limiterWait, bind at 1, emit.
    destruct (RateLimiter_Wait l _ _ _) as [l' err].
    unfold bind at 1, setLimiter.
    destruct err as [e|]; [reflexivity|]. cbn [check ret]. apply Hsend.
  - cbn [ret]. apply Hsend.
Qed.

Lemma decodeResponse_Err env resp raw e :
  decodeResponse env resp raw = Err e ->
  (Response.StatusCode resp < 200 \/ 300 <= Response.StatusCode resp)
  /\ e = buildAPIError (Response.StatusCode resp) raw.
Proof.
  unfold decodeResponse.
  destruct ((Response.StatusCode resp <? 200) || (300 <=? Response.StatusCode resp)) eqn:E.
  - intros [= <-]. split; [|reflexivity].
    apply orb_true_iff in E. destruct E as [E|E]; [left; apply Z.ltb_lt | right; apply Z.leb_le]; exact E.
  - destruct (length raw =? 0)%nat; [discriminate|].
    destruct (strings.Contains _ _); [|discriminate].
    destruct (Unmarshal_APIResponse _ _) as [o [x|]]; discriminate.
Qed.

Lemma decodeResponse_Ok env resp raw out :
  decodeResponse env resp raw = Ok out ->
  200 <= Response.StatusCode resp < 300
  /\ APIResponse.StatusCode out = Response.StatusCode resp
  /\ APIResponse.RawBody out = raw.
Proof.
  unfold decodeResponse.
  destruct ((Response.StatusCode resp <? 200) || (300 <=? Response.StatusCode resp)) eqn:E;
    [discriminate|].
  apply orb_false_iff in E. destruct E as [E1 E2].
  apply Z.ltb_ge in E1. apply Z.leb_gt in E2. intros H. split; [lia|].
  destruct (length raw =? 0)%nat; [injection H as <-; split; reflexivity|].
  destruct (strings.Contains _ _); [|injection H as <-; split; reflexivity].
  pose proof (Unmarshal_APIResponse_keeps raw
                (APIResponse.mk 0 "" [] (Response.StatusCode resp) raw)) as [K1 K2].
  destruct (Unmarshal_APIResponse _ _) as [o [x|]]; cbn [fst] in K1, K2;
    injection H as <-; split; assumption.
Qed.

Lemma readBody_take resp raw :
  readBody resp = Ok raw ->
  raw = take (Z.to_nat maxResponseBodySize) (Response.Body resp).
Proof.
  unfold readBody. destruct (Z.leb_spec maxResponseBodySize (Z.of_nat (length (Response.Body resp)))).
  - intros [= <-]. reflexivity.
  - destruct (Response.BodyErr resp); [discriminate|]. intros [= <-].
    symmetry. apply take_ge. lia.
Qed.

Lemma exchange_Ok env req out :
  exchange env req = Ok out ->
  exists resp, http_Do env req = Ok resp
    /\ 200 <= Response.StatusCode resp < 300
    /\ APIResponse.StatusCode out = Response.StatusCode resp
    /\ APIResponse.RawBody out = take (Z.to_nat maxResponseBodySize) (Response.Body resp).
Proof.
  unfold exchange. destruct (http_Do env req) as [resp|e]; [|discriminate].
  destruct (readBody resp) as [raw|e] eqn:Er; [|discriminate].
  intros H. apply decodeResponse_Ok in H. destruct H as (H1 & H2 & H3).
  exists resp. split; [reflexivity|]. split; [exact H1|]. split; [exact H2|].
  rewrite H3. apply readBody_take. exact Er.
Qed.

Lemma exchange_Err env req e :
  exchange env req = Err e ->
  (exists e0, http_Do env req = Err e0 /\ e = Errorf "quote0: execute request: %w" e0)
  \/ (exists resp e0, http_Do env req = Ok resp /\ readBody resp = Err e0
                      /\ e = Errorf "quote0: read response: %w" e0)
  \/ (exists resp raw, http_Do env req = Ok resp /\ readBody resp = Ok raw
                       /\ (Response.StatusCode resp < 200 \/ 300 <= Response.StatusCode resp)
                       /\ e = buildAPIError (Response.StatusCode resp) raw).
Proof.
  unfold exchange. destruct (http_Do env req) as [resp|e0].
  - destruct (readBody resp) as [raw|e0] eqn:Er.
    + intros H. apply decodeResponse_Err in H. destruct H as [H1 H2].
      right. right. exists resp, raw. auto.
    + intros [= <-]. right. left. exists resp, e0. auto.
  - intros [= <-]. left. exists e0. auto.
Qed.

Lemma doJSON_Ok env ctx endpoint p w out w' :
  doJSON env ctx endpoint p w = (Ok out, w') ->
  exists body, json_Marshal p = Ok body
    /\ exchange env (request (client w) (baseURL (client w) +:+ endpoint) body) = Ok out.
Proof.
  destruct (json_Marshal_total p) as [body Hm].
  rewrite (doJSON_unfold env ctx endpoint p w body Hm). cbv zeta.
  assert (Hsend : forall w1,
            match http_NewRequest env (baseURL (client w) +:+ endpoint) with
            | Some e0 => (Err (Errorf "quote0: build request: %w" e0), w1)
            | None => (exchange env (request (client w) (baseURL (client w) +:+ endpoint) body),
                       addEvent w1 (EvHTTPDo (request (client w)
                                                (baseURL (client w) +:+ endpoint) body)))
            end = (Ok out, w') ->
            exchange env (request (client w) (baseURL (client w) +:+ endpoint) body) = Ok out).
  { intros w1. destruct (http_NewRequest env _); [discriminate|]. intros [= H _]. exact H. }
  destruct (limiter (client w)) as [l|].
  - destruct (RateLimiter_Wait l _ _ _) as [l' [e1|]]; [discriminate|].
    intros H. exists body. split; [exact Hm | eapply Hsend, H].
  - intros H. exists body. split; [exact Hm | eapply Hsend, H].
Qed.

(** X5.  A dispatch makes at most one request, after at most one wait on
    the limiter (exactly one if the client has a limiter): it never
    retries.  A dispatch that succeeds has made its request. *)
Theorem dispatch_makes_at_most_one_request (env : Env) (ctx : option context.Context)
    (endpoint : string) (p : payload) (w w' : World) (r : result APIResponse.t) :
  doJSON env ctx endpoint p w = (r, w') ->
  exists waits sends,
    trace w' = trace w ++ waits ++ sends
    /\ waits = match limiter (client w) with
               | Some _ => [EvLimiterWait (orBackground ctx)]
               | None => []
               end
    /\ (sends = []
        \/ exists body,
             json_Marshal p = Ok body
             /\ sends = [EvHTTPDo (request (client w) (baseURL (client w) +:+ endpoint) body)])
    /\ (forall out, r = Ok out -> sends <> []).
Proof.
  destruct (json_Marshal_total p) as [body Hm].
  rewrite (doJSON_unfold env ctx endpoint p w body Hm). cbv zeta.
  set (url := baseURL (client w) +:+ endpoint). set (req := request (client w) url body).
  assert (Hsend : forall w1 waits,
            trace w1 = trace w ++ waits ->
            match http_NewRequest env url with
            | Some e0 => (Err (Errorf "quote0: build request: %w" e0), w1)
            | None => (exchange env req, addEvent w1 (EvHTTPDo req))
            end = (r, w') ->
            exists sends,
              trace w' = trace w ++ waits ++ sends
              /\ (sends = [] \/ exists body, json_Marshal p = Ok body
                                             /\ sends = [EvHTTPDo (request (client w) url body)])
              /\ (forall out, r = Ok out -> sends <> [])).
  { intros w1 waits Hw1. destruct (http_NewRequest env url) as [e0|].
    - intros [= <- <-]. exists []. rewrite app_nil_r. split; [exact Hw1|].
      split; [left; reflexivity | intros out H; discriminate].
    - intros [= <- <-]. exists [EvHTTPDo req]. cbn [addEvent trace]. rewrite Hw1, app_assoc.
      split; [reflexivity|]. split; [right; exists body; auto | intros; discriminate]. }
  destruct (limiter (client w)) as [l|].
  - destruct (RateLimiter_Wait l _ _ _) as [l' [e1|]].
    + intros [= <- <-]. exists [EvLimiterWait (orBackground ctx)], []. cbn [trace].
      split; [rewrite app_nil_r; reflexivity|]. split; [reflexivity|].
      split; [left; reflexivity | intros; discriminate].
    + intros H. apply (Hsend _ [EvLimiterWait (orBackground ctx)]) in H; [|reflexivity].
      destruct H as (sends & H1 & H2 & H3). exists [EvLimiterWait (orBackground ctx)], sends. auto.
  - intros H. apply (Hsend _ []) in H; [|rewrite app_nil_r; reflexivity].
    destruct H as (sends & H1 & H2 & H3). exists [], sends. auto.
Qed.

Lemma dispatch_makes_at_most_one_request_witness :
  trace (snd (SendText Fixture.env None emptyText Fixture.throttled))
  = [EvLimiterWait context.Background;
     EvHTTPDo (request Fixture.limited "https://dot.mindreset.tech/api/open/text"
                       [("deviceId", WString "DEF")])].
Proof.
  destruct (dispatch_makes_at_most_one_request Fixture.env None textEndpoint
              (TextPayload (TextRequest.withDeviceID emptyText "DEF"))
              Fixture.throttled
              (snd (SendText Fixture.env None emptyText Fixture.throttled))
              (fst (SendText Fixture.env None emptyText Fixture.throttled)) eq_refl)
    as (waits & sends & H1 & H2 & H3 & H4).
  rewrite H1, H2.
  destruct H3 as [->|(body & [= <-] & ->)].
  - exfalso. apply (H4 _ eq_refl). reflexivity.
  - reflexivity.
Defined.

(** X6.  The errors of [doJSON]: the error of the limiter, as it is; a URL
    that makes no request; a failure of the transport; a failure while
    reading the body; or an [APIError] for a status outside 200..299.
    Encoding the request never fails. *)
Theorem dispatch_error_kinds (env : Env) (ctx : option context.Context)
    (endpoint : string) (p : payload) (w w' : World) (e : error) :
  doJSON env ctx endpoint p w = (Err e, w') ->
  (exists l l', limiter (client w) = Some l
                /\ RateLimiter_Wait l (time_Now env) (select_race env) (orBackground ctx)
                   = (l', Some e))
  \/ (exists e0, http_NewRequest env (baseURL (client w) +:+ endpoint) = Some e0
                 /\ e = Errorf "quote0: build request: %w" e0)
  \/ (exists e0, e = Errorf "quote0: execute request: %w" e0)
  \/ (exists e0, e = Errorf "quote0: read response: %w" e0)
  \/ (exists status raw, (status < 200 \/ 300 <= status) /\ e = buildAPIError status raw).
Proof.
  destruct (json_Marshal_total p) as [body Hm].
  rewrite (doJSON_unfold env ctx endpoint p w body Hm). cbv zeta.
  assert (Hsend : forall w1,
            match http_NewRequest env (baseURL (client w) +:+ endpoint) with
            | Some e0 => (Err (Errorf "quote0: build request: %w" e0), w1)
            | None => (exchange env (request (client w) (baseURL (client w) +:+ endpoint) body),
                       addEvent w1 (EvHTTPDo (request (client w)
                                                (baseURL (client w) +:+ endpoint) body)))
            end = (Err e, w') ->
            (exists e0, http_NewRequest env (baseURL (client w) +:+ endpoint) = Some e0
                        /\ e = Errorf "quote0: build request: %w" e0)
            \/ (exists e0, e = Errorf "quote0: execute request: %w" e0)
            \/ (exists e0, e = Errorf "quote0: read response: %w" e0)
            \/ (exists status raw, (status < 200 \/ 300 <= status)
                                   /\ e = buildAPIError status raw)).
  { intros w1. destruct (http_NewRequest env _) as [e0|].
    - intros [= <- _]. left. eauto.
    - intros [= H _]. right. apply exchange_Err in H.
      destruct H as [(e0 & _ & ->) | [(resp & e0 & _ & _ & ->) | (resp & raw & _ & _ & Hs & ->)]].
      + left. eauto.
      + right. left. eauto.
      + right. right. eauto. }
  destruct (limiter (client w)) as [l|].
  - destruct (RateLimiter_Wait l _ _ _) as [l' [e1|]] eqn:Ew.
    + intros [= <- _]. left. eauto.
    + intros H. right. eapply Hsend, H.
  - intros H. right. eapply Hsend, H.
Qed.

(** [TestSendText_PlainErrorChinese], in ASCII: the error of the dispatch
    is the [APIError] of the answer. *)
Lemma dispatch_error_kinds_witness :
  let e := buildAPIError 429 (go_bytes "too many requests") in
  exists status raw, (status < 200 \/ 300 <= status) /\ e = buildAPIError status raw.
Proof.
  intros e.
  destruct (dispatch_error_kinds Cases.busy None textEndpoint (TextPayload emptyText)
              Fixture.world
              (addEvent Fixture.world
                 (EvHTTPDo (request Fixture.defClient
                              "https://dot.mindreset.tech/api/open/text"
                              [("deviceId", WString "")])))
              e eq_refl)
    as [(l & l' & H & _) | [(e0 & H & _) | [(e0 & H) | [(e0 & H) | H]]]];
    try discriminate H.
  exact H.
Defined.

(** X7.  When the limiter refuses, the dispatch ends with the error of the
    limiter itself, not wrapped; the limiter has advanced, and no request
    was made. *)
Theorem limiter_error_stops_dispatch (env : Env) (ctx : option context.Context)
    (endpoint : string) (p : payload) (w : World) (l l' : RateLimiter) (e : error) :
  limiter (client w) = Some l ->
  RateLimiter_Wait l (time_Now env) (select_race env) (orBackground ctx) = (l', Some e) ->
  doJSON env ctx endpoint p w
  = (Err e, {| client := withLimiter (client w) l';
               trace := trace w ++ [EvLimiterWait (orBackground ctx)] |}).
Proof.
  intros Hl Hw. destruct (json_Marshal_total p) as [body Hm].
  rewrite (doJSON_unfold env ctx endpoint p w body Hm). cbv zeta.
  rewrite Hl, Hw. reflexivity.
Qed.

Lemma limiter_error_stops_dispatch_witness :
  SendText Fixture.env (Some Fixture.cancelled) emptyText Cases.queued
  = (Err context.Canceled,
     {| client := withLimiter Fixture.defClient
                    (FixedInterval {| next := 5000 + time.Second; minInterval := time.Second |});
        trace := [EvLimiterWait Fixture.cancelled] |}).
Proof.
  exact (limiter_error_stops_dispatch Fixture.env (Some Fixture.cancelled) textEndpoint
           (TextPayload (TextRequest.withDeviceID emptyText "DEF")) Cases.queued
           (FixedInterval {| next := 5000; minInterval := time.Second |})
           (FixedInterval {| next := 5000 + time.Second; minInterval := time.Second |})
           context.Canceled eq_refl eq_refl).
Defined.

(** X8.  A dispatch on a client with a fixed-interval limiter takes a slot
    whatever becomes of it: once [Wait] was called, the next instant of the
    limiter is the slot of this dispatch plus the interval, whether the
    wait was cancelled, the request could not be made, the transport
    failed, or the server answered. *)
Theorem dispatch_takes_a_slot (env : Env) (ctx : option context.Context)
    (endpoint : string) (p : payload) (w : World) (l : fixedIntervalLimiter) :
  limiter (client w) = Some (FixedInterval l) ->
  limiter (client (snd (doJSON env ctx endpoint p w)))
  = Some (FixedInterval {| next := allotted l (time_Now env) + minInterval l;
                           minInterval := minInterval l |}).
Proof.
  intros Hl. destruct (json_Marshal_total p) as [body Hm].
  rewrite (doJSON_unfold env ctx endpoint p w body Hm). cbv zeta. rewrite Hl.
  cbn [RateLimiter_Wait].
  pose proof (Wait_next l (time_Now env) (select_race env) (orBackground ctx)) as [Hn Hi].
  destruct (fixedIntervalLimiter_Wait l _ _ _) as [l' err]. cbn [fst] in Hn, Hi.
  assert (El : l' = {| next := allotted l (time_Now env) + minInterval l;
                       minInterval := minInterval l |})
    by (destruct l'; cbn in Hn, Hi; subst; reflexivity).
  rewrite <- El.
  destruct err as [e|]; [reflexivity|].
  destruct (http_NewRequest env _); reflexivity.
Qed.

Lemma dispatch_takes_a_slot_witness :
  limiter (client (snd (SendText Cases.offline None emptyText Fixture.throttled)))
  = Some (FixedInterval {| next := 1000 + time.Second; minInterval := time.Second |}).
Proof.
  exact (dispatch_takes_a_slot Cases.offline None textEndpoint
           (TextPayload (TextRequest.withDeviceID emptyText "DEF")) Fixture.throttled
           {| next := 0; minInterval := time.Second |} eq_refl).
Defined.

Lemma sameConfig_refl c : sameConfig c c.
Proof. repeat split; auto. Qed.

Lemma sameConfig_withLimiter c l l0 :
  limiter c = Some l0 -> sameConfig c (withLimiter c l).
Proof. intros H. repeat split; try reflexivity; rewrite H; discriminate. Qed.

Lemma doJSON_sameConfig env ctx endpoint p w r w' :
  doJSON env ctx endpoint p w = (r, w') -> sameConfig (client w) (client w').
Proof.
  destruct (json_Marshal_total p) as [body Hm].
  rewrite (doJSON_unfold env ctx endpoint p w body Hm). cbv zeta.
  destruct (limiter (client w)) as [l|] eqn:El.
  - destruct (RateLimiter_Wait l _ _ _) as [l' [e1|]].
    + intros [= _ <-]. eapply sameConfig_withLimiter, El.
    + destruct (http_NewRequest env _); intros [= _ <-];
        eapply sameConfig_withLimiter, El.
  - destruct (http_NewRequest env _); intros [= _ <-]; apply sameConfig_refl.
Qed.

Lemma resolveDeviceID_world explicit w r w' :
  resolveDeviceID explicit w = (r, w') -> w' = w.
Proof.
  destruct r as [did|e]; intros H.
  - apply resolveDeviceID_Ok in H. tauto.
  - apply resolveDeviceID_Err in H. tauto.
Qed.

Lemma normalizeImage_client env p w r w' :
  normalizeImage env p w = (r, w') -> client w' = client w.
Proof.
  unfold normalizeImage.
  destruct (String.eqb _ ""); [|intros [= _ <-]; reflexivity].
  destruct (0 <? length _)%nat; [intros [= _ <-]; reflexivity|].
  destruct (nonEmpty _); [|intros [= _ <-]; reflexivity].
  unfold bind, readFile, bind, emit.
  destruct (os_ReadFile env _); cbn; intros [= _ <-]; reflexivity.
Qed.

(** X9.  A dispatch leaves the configuration of the client as it was: the
    base URL, the token, the user agent and the default device; only the
    state of the limiter moves.  In particular the device an operation
    names is not remembered. *)
Theorem dispatch_keeps_configuration (env : Env) (ctx : option context.Context)
    (w : World) :
  (forall p, sameConfig (client w) (client (snd (SendText env ctx p w))))
  /\ (forall p, sameConfig (client w) (client (snd (SendImage env ctx p w))))
  /\ (forall d p, defaultDevice (client (snd (SendTextToDevice env ctx d p w)))
                  = defaultDevice (client w)).
Proof.
  assert (HT : forall p, sameConfig (client w) (client (snd (SendText env ctx p w)))).
  { intros p. unfold SendText, bind at 1.
    destruct (resolveDeviceID _ w) as [[did|e] w1] eqn:Er;
      apply resolveDeviceID_world in Er; subst w1; [|apply sameConfig_refl].
    unfold bind at 1. destruct (TextRequest_validate _); [apply sameConfig_refl|].
    cbn [check ret]. eapply doJSON_sameConfig. apply surjective_pairing. }
  split; [exact HT|]. split.
  - intros p. unfold SendImage, bind at 1.
    destruct (resolveDeviceID _ w) as [[did|e] w1] eqn:Er;
      apply resolveDeviceID_world in Er; subst w1; [|apply sameConfig_refl].
    unfold bind at 1.
    destruct (normalizeImage env _ w) as [[q|e] w1] eqn:En;
      apply normalizeImage_client in En; [|cbn; rewrite En; apply sameConfig_refl].
    unfold bind at 1. destruct (ImageRequest_validate q).
    + cbn. rewrite En. apply sameConfig_refl.
    + cbn [check ret]. rewrite <- En. eapply doJSON_sameConfig. apply surjective_pairing.
  - intros d p. unfold SendTextToDevice.
    destruct (HT (TextRequest.withDeviceID p d)) as (_ & _ & _ & H & _). symmetry. exact H.
Qed.

(** X10.  The [RawBody] of a successful dispatch is the body of the response
    up to the first 4 MiB, never more; the status is that of the
    response. *)
Theorem raw_body_is_capped (env : Env) (ctx : option context.Context)
    (endpoint : string) (p : payload) (w w' : World) (out : APIResponse.t) :
  doJSON env ctx endpoint p w = (Ok out, w') ->
  exists body resp,
    json_Marshal p = Ok body
    /\ http_Do env (request (client w) (baseURL (client w) +:+ endpoint) body) = Ok resp
    /\ APIResponse.StatusCode out = Response.StatusCode resp
    /\ APIResponse.RawBody out = take (Z.to_nat maxResponseBodySize) (Response.Body resp)
    /\ Z.of_nat (length (APIResponse.RawBody out)) <= maxResponseBodySize.
Proof.
  intros H. apply doJSON_Ok in H. destruct H as (body & Hm & He).
  apply exchange_Ok in He. destruct He as (resp & Hd & _ & Hs & Hr).
  exists body, resp. repeat split; try assumption.
  rewrite Hr, length_take. unfold maxResponseBodySize. lia.
Qed.

(** [TestSendText_SuccessJSON]: the envelope keeps the body as it came. *)
Lemma raw_body_is_capped_witness :
  let req := request Fixture.defClient "https://dot.mindreset.tech/api/open/text"
               [("deviceId", WString "DEF")] in
  let out := APIResponse.mk 0 "ok" [] 200 (Response.Body Fixture.okResponse) in
  doJSON Fixture.env None textEndpoint
    (TextPayload (TextRequest.withDeviceID emptyText "DEF")) Fixture.world
  = (Ok out, addEvent Fixture.world (EvHTTPDo req))
  /\ Z.of_nat (length (APIResponse.RawBody out)) <= maxResponseBodySize.
Proof.
  intros req out.
  assert (E : doJSON Fixture.env None textEndpoint
                (TextPayload (TextRequest.withDeviceID emptyText "DEF")) Fixture.world
              = (Ok out, addEvent Fixture.world (EvHTTPDo req)))
    by (vm_compute; reflexivity).
  split; [exact E|].
  destruct (raw_body_is_capped _ _ _ _ _ _ _ E) as (body & resp & _ & _ & _ & _ & H).
  exact H.
Defined.

(** X11.  A successful response that declares JSON but whose body is not a
    JSON object: the body [null] decodes to the empty envelope, with no
    message; any other JSON value (an array, a string with its quotes, a
    number, a boolean) and any text that is not JSON become the message,
    trimmed, as for a response in plain text. *)
Theorem json_body_that_is_no_object (env : Env) (resp : Response.t) (raw : list byte) :
  200 <= Response.StatusCode resp < 300 -> raw <> [] -> declaresJSON env resp = true ->
  let empty := APIResponse.mk 0 "" [] (Response.StatusCode resp) raw in
  let text := APIResponse.withMessage empty (strings.TrimSpace (go_string raw)) in
  (json.parse raw = Some json.Null -> decodeResponse env resp raw = Ok empty)
  /\ (forall v, json.parse raw = Some v ->
        match v with json.Null | json.Object _ => False | _ => True end ->
        decodeResponse env resp raw = Ok text)
  /\ (json.parse raw = None -> decodeResponse env resp raw = Ok text).
Proof.
  intros Hs Hne Hd empty text. unfold decodeResponse.
  replace ((Response.StatusCode resp <? 200) || (300 <=? Response.StatusCode resp)) with false
    by (symmetry; apply orb_false_iff; split; [apply Z.ltb_ge | apply Z.leb_gt]; lia).
  destruct raw as [|b raw']; [contradiction|]. cbn [length Nat.eqb].
  unfold declaresJSON in Hd. rewrite Hd. fold empty. unfold Unmarshal_APIResponse.
  split; [|split].
  - intros ->. reflexivity.
  - intros v -> Hv. destruct v; try contradiction; reflexivity.
  - intros ->. reflexivity.
Qed.

Lemma json_body_that_is_no_object_witness :
  decodeResponse Fixture.env Fixture.okResponse (go_bytes "null")
  = Ok (APIResponse.mk 0 "" [] 200 (go_bytes "null"))
  /\ decodeResponse Fixture.env Fixture.okResponse (go_bytes " [1,2] ")
     = Ok (APIResponse.mk 0 "[1,2]" [] 200 (go_bytes " [1,2] "))
  /\ decodeResponse Fixture.env Fixture.okResponse (go_bytes "done")
     = Ok (APIResponse.mk 0 "done" [] 200 (go_bytes "done")).
Proof.
  destruct (json_body_that_is_no_object Fixture.env Fixture.okResponse (go_bytes "null"))
    as (H1 & _); [cbn; lia | discriminate | reflexivity |].
  destruct (json_body_that_is_no_object Fixture.env Fixture.okResponse (go_bytes " [1,2] "))
    as (_ & H2 & _); [cbn; lia | discriminate | reflexivity |].
  destruct (json_body_that_is_no_object Fixture.env Fixture.okResponse (go_bytes "done"))
    as (_ & _ & H3); [cbn; lia | discriminate | reflexivity |].
  split; [apply H1; vm_compute; reflexivity|].
  split; [|apply H3; vm_compute; reflexivity].
  eapply H2; [vm_compute; reflexivity | exact I].
Defined.

(** ** Errors *)

(** X12.  [IsRateLimitError] holds of the error of a dispatch only when it is
    the limiter that returned that error, or when the server answered 429.
    A failure of the transport or of reading the body is never classified,
    whatever error it wraps. *)
Theorem rate_limit_error_means_429 (env : Env) (ctx : option context.Context)
    (endpoint : string) (p : payload) (w w' : World) (e : error) :
  doJSON env ctx endpoint p w = (Err e, w') ->
  IsRateLimitError (Some e) = Some true ->
  (exists l l', limiter (client w) = Some l
                /\ RateLimiter_Wait l (time_Now env) (select_race env) (orBackground ctx)
                   = (l', Some e))
  \/ (exists body resp,
        json_Marshal p = Ok body
        /\ http_Do env (request (client w) (baseURL (client w) +:+ endpoint) body) = Ok resp
        /\ Response.StatusCode resp = 429).
Proof.
  destruct (json_Marshal_total p) as [body Hm].
  rewrite (doJSON_unfold env ctx endpoint p w body Hm). cbv zeta.
  set (req := request (client w) (baseURL (client w) +:+ endpoint) body).
  assert (Hsend : forall w1,
            match http_NewRequest env (baseURL (client w) +:+ endpoint) with
            | Some e0 => (Err (Errorf "quote0: build request: %w" e0), w1)
            | None => (exchange env req, addEvent w1 (EvHTTPDo req))
            end = (Err e, w') ->
            IsRateLimitError (Some e) = Some true ->
            exists resp, http_Do env req = Ok resp /\ Response.StatusCode resp = 429).
  { intros w1. destruct (http_NewRequest env _) as [e0|].
    - intros [= <- _] H. discriminate.
    - intros [= H _] Hc. apply exchange_Err in H.
      destruct H as [(e0 & _ & ->) | [(resp & e0 & _ & _ & ->) | (resp & raw & Hd & _ & _ & ->)]];
        try discriminate.
      exists resp. split; [exact Hd|].
      destruct (buildAPIError_status (Response.StatusCode resp) raw) as (ae & Hb & Hs).
      rewrite Hb in Hc. cbn in Hc. rewrite Hs in Hc. injection Hc as Hc.
      apply Z.eqb_eq. exact Hc. }
  destruct (limiter (client w)) as [l|].
  - destruct (RateLimiter_Wait l _ _ _) as [l' [e1|]] eqn:Ew.
    + intros [= <- _] _. left. eauto.
    + intros H Hc. right. destruct (Hsend _ H Hc) as (resp & H1 & H2). eauto.
  - intros H Hc. right. destruct (Hsend _ H Hc) as (resp & H1 & H2). eauto.
Qed.

Lemma rate_limit_error_means_429_witness :
  exists body resp,
    json_Marshal (TextPayload emptyText) = Ok body
    /\ http_Do Cases.busy
         (request Fixture.defClient (baseURL Fixture.defClient +:+ textEndpoint) body) = Ok resp
    /\ Response.StatusCode resp = 429.
Proof.
  destruct (rate_limit_error_means_429 Cases.busy None textEndpoint (TextPayload emptyText)
              Fixture.world
              (addEvent Fixture.world
                 (EvHTTPDo (request Fixture.defClient
                              "https://dot.mindreset.tech/api/open/text"
                              [("deviceId", WString "")])))
              (buildAPIError 429 (go_bytes "too many requests")) eq_refl eq_refl)
    as [(l & l' & H & _) | H]; [discriminate H | exact H].
Defined.

(** X13.  The text of the error made from a body that does not look like a
    JSON object: the status, then the body trimmed, if anything is left of
    it. *)
Theorem error_text_of_plain_body (status : Z) (body : list byte) :
  let trimmed := strings.TrimSpace (go_string body) in
  isJSONObject trimmed = false ->
  exists ae, buildAPIError status body = APIErrorPtr (Some ae)
             /\ APIError_Error ae
                = "quote0: API error (status=" +:+ strconv.Itoa status +:+ ")"
                  +:+ (if String.eqb trimmed "" then "" else ": " +:+ trimmed).
Proof.
  intros trimmed H. unfold buildAPIError. fold trimmed. rewrite H.
  eexists. split; [reflexivity|].
  unfold APIError_Error. cbn [APIError.StatusCode APIError.Code APIError.Message].
  unfold trimmed at 1 2. rewrite TrimSpace_idem. fold trimmed.
  unfold nonEmpty. cbn [String.eqb negb].
  destruct (String.eqb trimmed ""); cbn [negb].
  - rewrite append_assoc. reflexivity.
  - rewrite !append_assoc. reflexivity.
Qed.

Lemma error_text_of_plain_body_witness :
  exists ae, buildAPIError 429 (go_bytes " too many requests ") = APIErrorPtr (Some ae)
             /\ APIError_Error ae = "quote0: API error (status=429): too many requests".
Proof.
  destruct (error_text_of_plain_body 429 (go_bytes " too many requests ")) as (ae & H1 & H2).
  - reflexivity.
  - exists ae. split; [exact H1|]. rewrite H2. reflexivity.
Defined.

(** The code [formatCode] returns needs no trimming. *)
Lemma formatCode_trimmed v : strings.TrimSpace (formatCode v) = formatCode v.
Proof.
  destruct v; try reflexivity.
  - apply TrimSpace_all_plain, Itoa_plain.
  - apply TrimSpace_idem.
Qed.

(** X14.  The [Code] of the error [buildAPIError] makes never has white space
    around it: it is empty, a string member trimmed, or the decimal text of
    a number. *)
Theorem api_error_code_is_trimmed (status : Z) (body : list byte) :
  exists ae, buildAPIError status body = APIErrorPtr (Some ae)
             /\ strings.TrimSpace (APIError.Code ae) = APIError.Code ae.
Proof.
  unfold buildAPIError. eexists. split; [reflexivity|].
  destruct (isJSONObject _); [|reflexivity].
  destruct (tryParseJSON body) as [obj|]; [|reflexivity].
  unfold extractErrorFields. cbn [APIError.Code].
  destruct (obj !! "code"); [apply formatCode_trimmed | reflexivity].
Qed.

(** ** The limiter, idle and under a burst *)

(** X15.  [Wait] fails in one way only: with the error of the context of the
    caller.  With a context that is never done, [context.Background] among
    them, it does not fail. *)
Theorem wait_fails_only_with_context_error (l : fixedIntervalLimiter) (now : Z)
    (race : SelectCase) (ctx : context.Context) :
  (snd (fixedIntervalLimiter_Wait l now race ctx) = None
   \/ snd (fixedIntervalLimiter_Wait l now race ctx) = Some (context.Err ctx))
  /\ (context.DoneAt ctx = None -> snd (fixedIntervalLimiter_Wait l now race ctx) = None)
  /\ snd (fixedIntervalLimiter_Wait l now race context.Background) = None.
Proof.
  rewrite !fixedIntervalLimiter_Wait_eq.
  destruct (reserve l now) as [[wait start] l'].
  destruct (wait <=? 0); [repeat split; auto|].
  unfold select. cbn [context.DoneAt context.Background].
  split; [|split].
  - destruct (context.DoneAt ctx) as [d|]; [|left; reflexivity].
    destruct (d <? now + wait); [right; reflexivity|].
    destruct race; [right | left]; reflexivity.
  - intros ->. reflexivity.
  - reflexivity.
Qed.

Lemma wait_fails_only_with_context_error_witness :
  let l := {| next := 5000; minInterval := time.Second |} in
  snd (fixedIntervalLimiter_Wait l 1000 CtxDone (context.mk None context.Canceled)) = None.
Proof.
  intros l.
  apply (proj1 (proj2 (wait_fails_only_with_context_error l 1000 CtxDone
                         (context.mk None context.Canceled)))).
  reflexivity.
Defined.

(** X16.  An idle limiter (one never used, or whose next instant has come)
    lets the caller through without a wait and without looking at its
    context: the call returns nil even for a context that is already
    cancelled, and the instant it takes is the current time. *)
Theorem idle_limiter_does_not_wait (l : fixedIntervalLimiter) (now : Z)
    (race : SelectCase) (ctx : context.Context) :
  next l = 0 \/ next l <= now ->
  fixedIntervalLimiter_Wait l now race ctx
  = ({| next := now + minInterval l; minInterval := minInterval l |}, None)
  /\ allotted l now = now.
Proof.
  intros H. rewrite fixedIntervalLimiter_Wait_eq. unfold allotted, reserve.
  unfold time.IsZero, time.Before, time.Add.
  assert (E : negb (next l =? 0) && (now <? next l) = false).
  { destruct H as [H|H].
    - rewrite H. reflexivity.
    - apply andb_false_iff. right. apply Z.ltb_ge. exact H. }
  rewrite E. split; reflexivity.
Qed.

(** [TestRateLimiter_InvalidInterval]: the first call on a new limiter. *)
Lemma idle_limiter_does_not_wait_witness :
  NewFixedIntervalLimiter 0 = FixedInterval {| next := 0; minInterval := time.Second |}
  /\ fixedIntervalLimiter_Wait {| next := 0; minInterval := time.Second |} 1000 CtxDone
       Fixture.cancelled
     = ({| next := 1000 + time.Second; minInterval := time.Second |}, None).
Proof.
  split; [reflexivity|].
  apply (idle_limiter_does_not_wait {| next := 0; minInterval := time.Second |} 1000
           CtxDone Fixture.cancelled).
  left. reflexivity.
Defined.

Lemma burst_from l now (calls : list call) :
  0 < minInterval l -> 0 <= next l -> 0 < now ->
  Forall (fun c : call => c.1.1 = now) calls ->
  forall k s, allotments l calls !! k = Some s ->
              s = Z.max now (next l) + Z.of_nat k * minInterval l.
Proof.
  intros Hi Hn Hnow Hall. revert l Hi Hn.
  induction Hall as [|[[now' race] ctx] rest Hc _ IH]; intros l Hi Hn k s Hk.
  - destruct k; discriminate.
  - cbn in Hc. subst now'. cbn [allotments] in Hk.
    destruct (Wait_next l now race ctx) as [Hnext Hmin].
    assert (Ha : allotted l now = Z.max now (next l))
      by (unfold allotted; rewrite (reserve_max l now Hn Hnow); reflexivity).
    destruct k as [|k]; cbn in Hk.
    + injection Hk as <-. rewrite Ha. lia.
    + apply IH in Hk; [|rewrite Hmin; lia|rewrite Hnext, Ha; lia].
      rewrite Hk, Hnext, Hmin, Ha. lia.
Qed.

(** X17.  A burst: calls that all take the lock at the same reading of the
    clock, on a limiter that is idle by then, are released one interval
    after another, the first at once: call number [k] (from 0) at
    [now + k * minInterval], neither earlier nor later. *)
Theorem burst_is_released_one_interval_apart (l : fixedIntervalLimiter) (now : Z)
    (calls : list call) :
  0 < minInterval l -> 0 <= next l <= now -> 0 < now ->
  Forall (fun c : call => c.1.1 = now) calls ->
  forall (k : nat) (s : Z),
    allotments l calls !! k = Some s -> s = now + Z.of_nat k * minInterval l.
Proof.
  intros Hi Hn Hnow Hall k s Hk.
  rewrite (burst_from l now calls Hi ltac:(lia) Hnow Hall k s Hk). lia.
Qed.

Lemma burst_is_released_one_interval_apart_witness :
  let calls := [(1000, TimerC, context.Background); (1000, TimerC, context.Background);
                (1000, CtxDone, Fixture.cancelled)] in
  allotments {| next := 0; minInterval := time.Second |} calls
  = [1000; 1000 + time.Second; 1000 + 2 * time.Second]
  /\ 2000001000 = 1000 + Z.of_nat 2 * time.Second.
Proof.
  intros calls. split; [reflexivity|].
  apply (burst_is_released_one_interval_apart
           {| next := 0; minInterval := time.Second |} 1000 calls).
  - reflexivity.
  - cbn. lia.
  - lia.
  - repeat constructor.
  - reflexivity.
Defined.

(** ** The convenience operations *)

Lemma SendText_resolved env ctx p w did :
  resolveDeviceID (TextRequest.DeviceID p) w = (Ok did, w) ->
  SendText env ctx p w
  = doJSON env ctx textEndpoint (TextPayload (TextRequest.withDeviceID p did)) w.
Proof.
  intros H. destruct (resolveDeviceID_Ok _ _ _ _ H) as (_ & Ht & Hne).
  unfold SendText, bind at 1. rewrite H. unfold bind at 1.
  rewrite (TextRequest_validate_resolved p did Ht Hne). reflexivity.
Qed.

(** X18.  [SendTextToDevice] puts its device argument in the place of the
    [DeviceID] of the request, which is never looked at: a device argument
    that is not blank is the target (trimmed), and a blank one selects the
    default device of the client even when the request named a device. *)
Theorem SendTextToDevice_replaces_the_device (env : Env) (ctx : option context.Context)
    (w : World) (deviceID : string) (p : TextRequest.t) :
  (~ blank deviceID ->
   SendTextToDevice env ctx deviceID p w
   = doJSON env ctx textEndpoint
       (TextPayload (TextRequest.withDeviceID p (strings.TrimSpace deviceID))) w)
  /\ (blank deviceID -> ~ blank (defaultDevice (client w)) ->
      SendTextToDevice env ctx deviceID p w
      = doJSON env ctx textEndpoint
          (TextPayload (TextRequest.withDeviceID p
                          (strings.TrimSpace (defaultDevice (client w))))) w)
  /\ (blank deviceID -> blank (defaultDevice (client w)) ->
      SendTextToDevice env ctx deviceID p w = (Err ErrDeviceIDMissing, w)).
Proof.
  unfold SendTextToDevice. split; [|split].
  - intros H.
    rewrite (SendText_resolved env ctx (TextRequest.withDeviceID p deviceID) w
               (strings.TrimSpace deviceID)); [reflexivity|].
    apply resolveDeviceID_explicit. exact H.
  - intros H Hd.
    rewrite (SendText_resolved env ctx (TextRequest.withDeviceID p deviceID) w
               (strings.TrimSpace (defaultDevice (client w)))); [reflexivity|].
    apply resolveDeviceID_default; assumption.
  - intros H Hd. unfold SendText, bind at 1.
    cbn [TextRequest.DeviceID TextRequest.withDeviceID].
    rewrite (resolveDeviceID_missing deviceID w H Hd). reflexivity.
Qed.

Lemma SendTextToDevice_replaces_the_device_witness :
  let p := TextRequest.mk None "OVR" "t" "m" "" "" "" in
  SendTextToDevice Fixture.env None " DEV " p Fixture.world
  = doJSON Fixture.env None textEndpoint
      (TextPayload (TextRequest.mk None "DEV" "t" "m" "" "" "")) Fixture.world
  /\ SendTextToDevice Fixture.env None "" p Fixture.world
     = doJSON Fixture.env None textEndpoint
         (TextPayload (TextRequest.mk None "DEF" "t" "m" "" "" "")) Fixture.world
  /\ SendTextToDevice Fixture.env None "" p Fixture.nobody
     = (Err ErrDeviceIDMissing, Fixture.nobody).
Proof.
  intros p.
  destruct (SendTextToDevice_replaces_the_device Fixture.env None Fixture.world " DEV " p)
    as (H1 & _).
  destruct (SendTextToDevice_replaces_the_device Fixture.env None Fixture.world "" p)
    as (_ & H2 & _).
  destruct (SendTextToDevice_replaces_the_device Fixture.env None Fixture.nobody "" p)
    as (_ & _ & H3).
  split; [|split].
  - apply H1. vm_compute. discriminate.
  - apply H2; [reflexivity | vm_compute; discriminate].
  - apply H3; reflexivity.
Defined.



(** X20.  [SendImageBytes] sends the bytes it is given, whatever [Image] and
    [ImagePath] the request carries: [Image] is cleared first, and no file
    is read.  Handed no bytes, with no path in the request, it fails with
    [ErrImagePayloadMissing], even when the request held an [Image]. *)
Theorem SendImageBytes_sends_the_bytes (env : Env) (ctx : option context.Context)
    (w : World) (png : list byte) (meta : ImageRequest.t) (did : string) :
  resolveDeviceID (ImageRequest.DeviceID meta) w = (Ok did, w) ->
  (png <> [] ->
   SendImageBytes env ctx png meta w
   = doJSON env ctx imageEndpoint
       (ImagePayload (ImageRequest.withImage (ImageRequest.withDeviceID meta did)
                        (encodeBase64 png))) w)
  /\ (png = [] -> blank (ImageRequest.ImagePath meta) ->
      SendImageBytes env ctx png meta w = (Err ErrImagePayloadMissing, w)).
Proof.
  intros Hr. unfold SendImageBytes. split.
  - intros Hpng.
    rewrite (SendImage_steps env ctx
               (ImageRequest.withImageBytes (ImageRequest.withImage meta "") png) w did
               (ImageRequest.withImage
                  (ImageRequest.withDeviceID
                     (ImageRequest.withImageBytes (ImageRequest.withImage meta "") png) did)
                  (encodeBase64 png)) w Hr).
    + apply doJSON_marshal_ext. reflexivity.
    + apply normalizeImage_bytes; [reflexivity | exact Hpng].
    + reflexivity.
    + apply encodeBase64_not_blank. exact Hpng.
  - intros -> Hp.
    apply (SendImage_no_source env ctx
             (ImageRequest.withImageBytes (ImageRequest.withImage meta "") []) w did Hr);
      [reflexivity | reflexivity | exact Hp].
Qed.

Lemma SendImageBytes_sends_the_bytes_witness :
  let meta := ImageRequest.mk None "" "stale" [] "missing.png" "" 0 "" "" in
  SendImageBytes Fixture.env None Fixture.png meta Fixture.world
  = doJSON Fixture.env None imageEndpoint
      (ImagePayload (ImageRequest.mk None "DEF" "iVBORw==" [] "missing.png" "" 0 "" ""))
      Fixture.world
  /\ SendImageBytes Fixture.env None []
       (ImageRequest.mk None "" "stale" [] "" "" 0 "" "") Fixture.world
     = (Err ErrImagePayloadMissing, Fixture.world).
Proof.
  intros meta. split.
  - refine (proj1 (SendImageBytes_sends_the_bytes Fixture.env None Fixture.world Fixture.png
                     meta "DEF" eq_refl) _). discriminate.
  - refine (proj2 (SendImageBytes_sends_the_bytes Fixture.env None Fixture.world []
                     (ImageRequest.mk None "" "stale" [] "" "" 0 "" "") "DEF" eq_refl)
                  eq_refl eq_refl).
Defined.

(** X21.  [SendImageFile] does not read the file when the request carries
    [ImageBytes]: those are sent.  Only without them is the file, named by
    the path trimmed, read and sent. *)
Theorem SendImageFile_prefers_bytes (env : Env) (ctx : option context.Context)
    (w : World) (path : string) (meta : ImageRequest.t) (did : string) :
  resolveDeviceID (ImageRequest.DeviceID meta) w = (Ok did, w) ->
  (ImageRequest.ImageBytes meta <> [] ->
   SendImageFile env ctx path meta w
   = doJSON env ctx imageEndpoint
       (ImagePayload (ImageRequest.withImage (ImageRequest.withDeviceID meta did)
                        (encodeBase64 (ImageRequest.ImageBytes meta)))) w)
  /\ (ImageRequest.ImageBytes meta = [] -> ~ blank path ->
      forall data, os_ReadFile env (strings.TrimSpace path) = Ok data -> data <> [] ->
      SendImageFile env ctx path meta w
      = doJSON env ctx imageEndpoint
          (ImagePayload (ImageRequest.withImage (ImageRequest.withDeviceID meta did)
                           (encodeBase64 data)))
          (addEvent w (EvReadFile (strings.TrimSpace path)))).
Proof.
  intros Hr. unfold SendImageFile.
  set (m := ImageRequest.withImagePath (ImageRequest.withImage meta "") path).
  split.
  - intros Hb.
    rewrite (SendImage_steps env ctx m w did
               (ImageRequest.withImage (ImageRequest.withDeviceID m did)
                  (encodeBase64 (ImageRequest.ImageBytes meta))) w Hr).
    + apply doJSON_marshal_ext. reflexivity.
    + apply (normalizeImage_bytes env (ImageRequest.withDeviceID m did) w);
        [reflexivity | exact Hb].
    + reflexivity.
    + apply encodeBase64_not_blank. exact Hb.
  - intros Hb Hp data Hd Hne.
    rewrite (SendImage_steps env ctx m w did
               (ImageRequest.withImage (ImageRequest.withDeviceID m did) (encodeBase64 data))
               (addEvent w (EvReadFile (strings.TrimSpace path))) Hr).
    + apply doJSON_marshal_ext. reflexivity.
    + rewrite (normalizeImage_path env (ImageRequest.withDeviceID m did) w);
        [|reflexivity|exact Hb|exact Hp].
      cbn [ImageRequest.ImagePath ImageRequest.withDeviceID]. subst m.
      cbn [ImageRequest.ImagePath ImageRequest.withImagePath]. rewrite Hd. reflexivity.
    + reflexivity.
    + apply encodeBase64_not_blank. exact Hne.
Qed.

Lemma SendImageFile_prefers_bytes_witness :
  let meta := ImageRequest.mk None "" "" [x68; x69] "" "" 0 "" "" in
  SendImageFile Fixture.env None "img.png" meta Fixture.world
  = doJSON Fixture.env None imageEndpoint
      (ImagePayload (ImageRequest.mk None "DEF" "aGk=" [x68; x69] "" "" 0 "" ""))
      Fixture.world
  /\ SendImageFile Fixture.env None " img.png " Fixture.image Fixture.world
     = doJSON Fixture.env None imageEndpoint
         (ImagePayload (ImageRequest.mk None "DEF" "iVBORw==" [] "" "" 0 "" ""))
         (addEvent Fixture.world (EvReadFile "img.png")).
Proof.
  intros meta. split.
  - refine (proj1 (SendImageFile_prefers_bytes Fixture.env None Fixture.world "img.png"
                     meta "DEF" eq_refl) _). discriminate.
  - refine (proj2 (SendImageFile_prefers_bytes Fixture.env None Fixture.world " img.png "
                     Fixture.image "DEF" eq_refl) eq_refl _ Fixture.png eq_refl _).
    + vm_compute. discriminate.
    + discriminate.
Defined.

(** X22.  A file that is read but holds nothing counts as no image: the
    dispatch ends with [ErrImagePayloadMissing], not with a read error,
    after the file was read and without a request. *)
Theorem empty_file_is_a_missing_payload (env : Env) (ctx : option context.Context)
    (w : World) (p : ImageRequest.t) (did : string) :
  resolveDeviceID (ImageRequest.DeviceID p) w = (Ok did, w) ->
  blank (ImageRequest.Image p) -> ImageRequest.ImageBytes p = [] ->
  ~ blank (ImageRequest.ImagePath p) ->
  os_ReadFile env (strings.TrimSpace (ImageRequest.ImagePath p)) = Ok [] ->
  SendImage env ctx p w
  = (Err ErrImagePayloadMissing,
     addEvent w (EvReadFile (strings.TrimSpace (ImageRequest.ImagePath p)))).
Proof.
  intros Hr Hi Hb Hp Hd.
  apply (SendImage_missing env ctx p w did
           (ImageRequest.withImage (ImageRequest.withDeviceID p did) (encodeBase64 []))
           _ Hr).
  - rewrite (normalizeImage_path env (ImageRequest.withDeviceID p did) w Hi Hb Hp).
    cbn [ImageRequest.ImagePath ImageRequest.withDeviceID]. rewrite Hd. reflexivity.
  - reflexivity.
  - reflexivity.
Qed.

Lemma empty_file_is_a_missing_payload_witness :
  SendImage Cases.hollow None (viaFile Fixture.image "empty.png") Fixture.world
  = (Err ErrImagePayloadMissing, addEvent Fixture.world (EvReadFile "empty.png")).
Proof.
  apply (empty_file_is_a_missing_payload Cases.hollow None Fixture.world
           (viaFile Fixture.image "empty.png") "DEF"); try reflexivity.
  vm_compute. discriminate.
Defined.

(** ** The request body, read back *)

Lemma optional_inj a b : optional a = optional b -> a = b.
Proof.
  unfold optional.
  destruct (String.eqb_spec a ""), (String.eqb_spec b ""); congruence.
Qed.

Lemma omitted_int_inj (a b : Z) :
  (if a =? 0 then None else Some (WInt a)) = (if b =? 0 then None else Some (WInt b)) ->
  a = b.
Proof. destruct (Z.eqb_spec a 0), (Z.eqb_spec b 0); congruence. Qed.

Lemma option_map_WBool_inj (a b : option bool) :
  option_map WBool a = option_map WBool b -> a = b.
Proof. destruct a, b; simpl; congruence. Qed.

Lemma Marshal_TextRequest_members r :
  let obj := Marshal_TextRequest r in
  member "deviceId" obj = Some (WString (TextRequest.DeviceID r))
  /\ member "refreshNow" obj = option_map WBool (TextRequest.RefreshNow r)
  /\ member "title" obj = optional (TextRequest.Title r)
  /\ member "message" obj = optional (TextRequest.Message r)
  /\ member "signature" obj = optional (TextRequest.Signature r)
  /\ member "icon" obj = optional (TextRequest.Icon r)
  /\ member "link" obj = optional (TextRequest.Link r).
Proof.
  intros obj. subst obj. unfold Marshal_TextRequest, optional.
  repeat split; member_solve.
Qed.

Lemma Marshal_ImageRequest_members r :
  let obj := Marshal_ImageRequest r in
  member "deviceId" obj = Some (WString (ImageRequest.DeviceID r))
  /\ member "image" obj = Some (WString (ImageRequest.Image r))
  /\ member "refreshNow" obj = option_map WBool (ImageRequest.RefreshNow r)
  /\ member "link" obj = optional (ImageRequest.Link r)
  /\ member "border" obj
     = (if ImageRequest.Border r =? 0 then None else Some (WInt (ImageRequest.Border r)))
  /\ member "ditherType" obj = optional (ImageRequest.DitherType r)
  /\ member "ditherKernel" obj = optional (ImageRequest.DitherKernel r).
Proof.
  intros obj. subst obj. unfold Marshal_ImageRequest, optional.
  repeat split; member_solve.
Qed.

(** The object laid out for a request determines the request, up to the
    two fields of an image request that are never written. *)
Lemma Marshal_TextRequest_inj (r r' : TextRequest.t) :
  Marshal_TextRequest r = Marshal_TextRequest r' -> r = r'.
Proof.
  intros H.
  destruct (Marshal_TextRequest_members r) as (A1 & A2 & A3 & A4 & A5 & A6 & A7).
  destruct (Marshal_TextRequest_members r') as (B1 & B2 & B3 & B4 & B5 & B6 & B7).
  cbv zeta in *. rewrite H in A1, A2, A3, A4, A5, A6, A7.
  rewrite B1 in A1. rewrite B2 in A2. rewrite B3 in A3. rewrite B4 in A4.
  rewrite B5 in A5. rewrite B6 in A6. rewrite B7 in A7.
  apply option_map_WBool_inj in A2.
  apply optional_inj in A3, A4, A5, A6, A7. injection A1 as A1.
  destruct r, r'. cbn in *. congruence.
Qed.

Lemma Marshal_ImageRequest_inj (r r' : ImageRequest.t) :
  Marshal_ImageRequest r = Marshal_ImageRequest r'
  <-> noSource r = noSource r' /\ ImageRequest.Image r = ImageRequest.Image r'.
Proof.
  split.
  - intros H.
    destruct (Marshal_ImageRequest_members r) as (A1 & A2 & A3 & A4 & A5 & A6 & A7).
    destruct (Marshal_ImageRequest_members r') as (B1 & B2 & B3 & B4 & B5 & B6 & B7).
    cbv zeta in *. rewrite H in A1, A2, A3, A4, A5, A6, A7.
    rewrite B1 in A1. rewrite B2 in A2. rewrite B3 in A3. rewrite B4 in A4.
    rewrite B5 in A5. rewrite B6 in A6. rewrite B7 in A7.
    apply option_map_WBool_inj in A3. apply omitted_int_inj in A5.
    apply optional_inj in A4, A6, A7. injection A1 as A1. injection A2 as A2.
    destruct r, r'. cbn in A1, A2, A3, A4, A5, A6, A7. subst.
    split; reflexivity.
  - intros [H Hi]. destruct r, r'. unfold noSource in H. cbn in H, Hi.
    injection H as -> -> -> -> -> ->. subst. reflexivity.
Qed.

(** A well-formed string is written as it is. *)
Lemma coerceUTF8_valid p : forall k, utf8.valid k p = true -> coerceUTF8 k p = p.
Proof.
  induction p as [|b p IH]; intros k H; [reflexivity|].
  destruct k as [|k].
  - change (coerceUTF8 0 (b :: p))
      with (let '(r, size) := utf8.DecodeRune (b :: p) in
            if (r =? utf8.RuneError) && (size =? 1)%nat
            then utf8.AppendRune utf8.RuneError ++ coerceUTF8 0 p
            else b :: coerceUTF8 (size - 1) p).
    change (utf8.valid 0 (b :: p))
      with (let '(r, size) := utf8.DecodeRune (b :: p) in
            if (r =? utf8.RuneError) && (size =? 1)%nat then false
            else utf8.valid (size - 1) p) in H.
    destruct (utf8.DecodeRune (b :: p)) as [r size].
    destruct ((r =? utf8.RuneError) && (size =? 1)%nat); [discriminate|].
    f_equal. apply IH. exact H.
  - change (coerceUTF8 (S k) (b :: p)) with (b :: coerceUTF8 k p).
    f_equal. apply IH. exact H.
Qed.

Lemma coerceString_valid s : utf8.ValidString s = true -> coerceString s = s.
Proof.
  intros H. unfold coerceString. rewrite (coerceUTF8_valid _ 0 H).
  apply go_string_bytes.
Qed.

Lemma writtenBody_app a b : writtenBody (a ++ b) = writtenBody a ++ writtenBody b.
Proof. apply map_app. Qed.

Lemma writtenBody_omitempty_string name v :
  utf8.ValidString v = true ->
  writtenBody (omitempty_string name v) = omitempty_string name v.
Proof.
  intros H. unfold omitempty_string. destruct (String.eqb v ""); [reflexivity|].
  cbn. rewrite (coerceString_valid v H). reflexivity.
Qed.

Lemma writtenBody_omitempty_ptr name v :
  writtenBody (omitempty_ptr name v) = omitempty_ptr name v.
Proof. destruct v; reflexivity. Qed.

Lemma writtenBody_omitempty_int name v :
  writtenBody (omitempty_int name v) = omitempty_int name v.
Proof. unfold omitempty_int. destruct (v =? 0); reflexivity. Qed.

Lemma writtenBody_WString name v :
  utf8.ValidString v = true ->
  writtenBody [(name, WString v)] = [(name, WString v)].
Proof. intros H. cbn. rewrite (coerceString_valid v H). reflexivity. Qed.

Lemma writtenBody_text r :
  wellFormedText r -> writtenBody (Marshal_TextRequest r) = Marshal_TextRequest r.
Proof.
  unfold wellFormedText. intros H.
  repeat match goal with
         | H : Forall _ (_ :: _) |- _ =>
             let V := fresh "V" in apply Forall_cons in H as [V H]
         end.
  unfold Marshal_TextRequest.
  rewrite !writtenBody_app, writtenBody_omitempty_ptr, writtenBody_WString,
    !writtenBody_omitempty_string by assumption.
  reflexivity.
Qed.

Lemma writtenBody_image r :
  wellFormedImage r -> writtenBody (Marshal_ImageRequest r) = Marshal_ImageRequest r.
Proof.
  unfold wellFormedImage. intros H.
  repeat match goal with
         | H : Forall _ (_ :: _) |- _ =>
             let V := fresh "V" in apply Forall_cons in H as [V H]
         end.
  unfold Marshal_ImageRequest.
  rewrite !writtenBody_app, writtenBody_omitempty_ptr, !writtenBody_WString,
    writtenBody_omitempty_int, !writtenBody_omitempty_string by assumption.
  reflexivity.
Qed.

(** X23.  Leaving out the unset fields loses nothing, for requests whose
    strings are well-formed UTF-8: two such text requests whose bodies
    spell the same object are the same request, and two such image requests
    differ at most in [ImageBytes] and [ImagePath], which are never
    written: they agree on [Image] and on every field [noSource] leaves in
    place.  The strings have to be well formed: every byte that belongs to
    no encoding is written as the replacement rune, so the titles of one
    byte [ff] and of one byte [fe] give the same body. *)
Theorem body_determines_request :
  (forall r r' : TextRequest.t,
     wellFormedText r -> wellFormedText r' ->
     writtenBody (Marshal_TextRequest r) = writtenBody (Marshal_TextRequest r') -> r = r')
  /\ (forall r r' : ImageRequest.t,
        wellFormedImage r -> wellFormedImage r' ->
        (writtenBody (Marshal_ImageRequest r) = writtenBody (Marshal_ImageRequest r')
         <-> noSource r = noSource r' /\ ImageRequest.Image r = ImageRequest.Image r'))
  /\ (let r := TextRequest.mk None "DEF" (go_string [xff]) "" "" "" "" in
      let r' := TextRequest.mk None "DEF" (go_string [xfe]) "" "" "" "" in
      r <> r'
      /\ writtenBody (Marshal_TextRequest r) = writtenBody (Marshal_TextRequest r')
      /\ writtenBody (Marshal_TextRequest r)
         = [("deviceId", WString "DEF");
            ("title", WString (go_string (utf8.AppendRune utf8.RuneError)))]).
Proof.
  split; [|split].
  - intros r r' V V' H.
    rewrite (writtenBody_text r V), (writtenBody_text r' V') in H.
    apply Marshal_TextRequest_inj. exact H.
  - intros r r' V V'.
    rewrite (writtenBody_image r V), (writtenBody_image r' V').
    apply Marshal_ImageRequest_inj.
  - split; [|split].
    + vm_compute. discriminate.
    + vm_compute. reflexivity.
    + vm_compute. reflexivity.
Qed.

(** [TestTextRequest_OmitEmptyFields]: the request is read back from its
    body. *)
Lemma body_determines_request_witness :
  let r := TextRequest.mk None "DEF" "" "hello" "" "" "" in
  writtenBody (Marshal_TextRequest r)
  = [("deviceId", WString "DEF"); ("message", WString "hello")]
  /\ TextRequest.mk None "DEF" "" "hello" "" "" "" = r.
Proof.
  intros r. split; [reflexivity|].
  apply (proj1 body_determines_request).
  - repeat constructor.
  - repeat constructor.
  - reflexivity.
Defined.

(** X24.  No member is written twice: the names in a body are all
    different, so a member is found under its name without ambiguity. *)
Theorem body_has_no_duplicate_member :
  (forall r : TextRequest.t, NoDup (map fst (Marshal_TextRequest r)))
  /\ (forall r : ImageRequest.t, NoDup (map fst (Marshal_ImageRequest r))).
Proof.
  split.
  - intros [rn d t m s i l]. unfold Marshal_TextRequest, omitempty_string, omitempty_ptr.
    cbn [TextRequest.RefreshNow TextRequest.DeviceID TextRequest.Title TextRequest.Message
         TextRequest.Signature TextRequest.Icon TextRequest.Link].
    destruct rn; destruct (String.eqb t ""); destruct (String.eqb m "");
      destruct (String.eqb s ""); destruct (String.eqb i ""); destruct (String.eqb l "");
      cbn [app map fst]; refine (bool_decide_unpack _ _); vm_compute; reflexivity.
  - intros [rn d im ib ip l b dt dk].
    unfold Marshal_ImageRequest, omitempty_string, omitempty_ptr, omitempty_int.
    cbn [ImageRequest.RefreshNow ImageRequest.DeviceID ImageRequest.Image ImageRequest.Link
         ImageRequest.Border ImageRequest.DitherType ImageRequest.DitherKernel].
    destruct rn; destruct (String.eqb l ""); destruct (b =? 0);
      destruct (String.eqb dt ""); destruct (String.eqb dk "");
      cbn [app map fst]; refine (bool_decide_unpack _ _); vm_compute; reflexivity.
Qed.

(** ** Base64 *)

Lemma encode_length_bounded (n : nat) :
  forall src, (length src <= n)%nat ->
              length (base64.encode src) = (4 * ((length src + 2) / 3))%nat.
Proof.
  induction n as [n IH] using lt_wf_ind. intros src Hn.
  destruct src as [|b0 [|b1 [|b2 rest]]]; try reflexivity.
  cbn [base64.encode length].
  rewrite (IH (length rest)) by (cbn [length] in Hn; lia).
  replace (S (S (S (length rest))) + 2)%nat with ((length rest + 2) + 1 * 3)%nat by lia.
  rewrite Nat.div_add by lia. lia.
Qed.

(** X25.  The base64 text of [n] bytes has [4 * ceil(n / 3)] characters: four
    for each group of three bytes, the last group padded. *)
Theorem encodeBase64_length (b : list byte) :
  String.length (encodeBase64 b) = (4 * ((length b + 2) / 3))%nat.
Proof.
  unfold encodeBase64, base64.EncodeToString. rewrite length_of_chars.
  apply (encode_length_bounded (length b)). lia.
Qed.

Lemma byte_code_range b : 0 <= byte_code b < 256.
Proof.
  unfold byte_code. pose proof (Byte.to_N_bounded b). lia.
Qed.

Lemma byte_code_inj a b : byte_code a = byte_code b -> a = b.
Proof.
  unfold byte_code. intros H. apply N2Z.inj in H.
  pose proof (Byte.of_to_N a) as Ha. pose proof (Byte.of_to_N b) as Hb.
  rewrite H in Ha. congruence.
Qed.

Lemma lor_shiftl_add a b n :
  0 <= n -> 0 <= b < 2 ^ n -> Z.lor (Z.shiftl a n) b = a * 2 ^ n + b.
Proof.
  intros Hn Hb. rewrite Z.shiftl_mul_pow2 by exact Hn.
  assert (Hl : Z.land (a * 2 ^ n) b = 0).
  { apply Z.bits_inj'. intros i Hi. rewrite Z.land_spec, Z.bits_0.
    destruct (Z.lt_ge_cases i n) as [L|L].
    - rewrite Z.mul_pow2_bits_low by exact L. reflexivity.
    - destruct (Z.eq_dec b 0) as [->|Hb0]; [rewrite Z.bits_0; apply andb_false_r|].
      assert (Hlog : Z.log2 b < i).
      { assert (Z.log2 b < n) by (apply Z.log2_lt_pow2; lia). lia. }
      rewrite (Z.bits_above_log2 b i (proj1 Hb) Hlog). apply andb_false_r. }
  rewrite <- Z.lxor_lor by exact Hl. symmetry. apply Z.add_nocarry_lxor. exact Hl.
Qed.

Lemma sextet_mod v : base64.sextet v = nth (Z.to_nat (v mod 64)) (chars base64.encodeStd) base64.padChar.
Proof.
  unfold base64.sextet. change 63 with (Z.ones 6). rewrite Z.land_ones by lia. reflexivity.
Qed.

Lemma alphabet_inj (i j : nat) :
  (i < 64)%nat -> (j < 64)%nat ->
  nth i (chars base64.encodeStd) base64.padChar = nth j (chars base64.encodeStd) base64.padChar ->
  i = j.
Proof.
  intros Hi Hj H.
  assert (C : forallb (fun i => forallb (fun j =>
                implb (Ascii.eqb (nth i (chars base64.encodeStd) base64.padChar)
                                 (nth j (chars base64.encodeStd) base64.padChar))
                      (Nat.eqb i j)) (seq 0 64)) (seq 0 64) = true) by (vm_compute; reflexivity).
  rewrite forallb_forall in C. specialize (C i ltac:(apply in_seq; lia)).
  rewrite forallb_forall in C. specialize (C j ltac:(apply in_seq; lia)).
  apply Ascii.eqb_eq in H. rewrite H in C. apply Nat.eqb_eq. exact C.
Qed.

Lemma alphabet_not_pad (i : nat) :
  (i < 64)%nat -> nth i (chars base64.encodeStd) base64.padChar <> base64.padChar.
Proof.
  intros Hi H.
  assert (C : forallb (fun i => negb (Ascii.eqb (nth i (chars base64.encodeStd) base64.padChar)
                                                 base64.padChar)) (seq 0 64) = true)
    by (vm_compute; reflexivity).
  rewrite forallb_forall in C. specialize (C i ltac:(apply in_seq; lia)).
  apply Ascii.eqb_eq in H. rewrite H in C. discriminate.
Qed.

Lemma sextet_inj v v' : base64.sextet v = base64.sextet v' -> v mod 64 = v' mod 64.
Proof.
  rewrite !sextet_mod. intros H.
  pose proof (Z.mod_pos_bound v 64 ltac:(lia)). pose proof (Z.mod_pos_bound v' 64 ltac:(lia)).
  apply alphabet_inj in H; lia.
Qed.

Lemma sextet_not_pad v : base64.sextet v <> base64.padChar.
Proof.
  rewrite sextet_mod. pose proof (Z.mod_pos_bound v 64 ltac:(lia)).
  apply alphabet_not_pad. lia.
Qed.

Lemma group3 b0 b1 b2 :
  Z.lor (Z.lor (Z.shiftl (byte_code b0) 16) (Z.shiftl (byte_code b1) 8)) (byte_code b2)
  = byte_code b0 * 65536 + byte_code b1 * 256 + byte_code b2.
Proof.
  pose proof (byte_code_range b0). pose proof (byte_code_range b1).
  pose proof (byte_code_range b2).
  rewrite (Z.shiftl_mul_pow2 (byte_code b1) 8) by lia.
  rewrite (lor_shiftl_add (byte_code b0) (byte_code b1 * 2 ^ 8) 16) by lia.
  replace (byte_code b0 * 2 ^ 16 + byte_code b1 * 2 ^ 8)
    with ((byte_code b0 * 256 + byte_code b1) * 2 ^ 8) by lia.
  rewrite <- Z.shiftl_mul_pow2 by lia.
  rewrite lor_shiftl_add by lia. lia.
Qed.

Lemma group2 b0 b1 :
  Z.lor (Z.shiftl (byte_code b0) 16) (Z.shiftl (byte_code b1) 8)
  = byte_code b0 * 65536 + byte_code b1 * 256.
Proof.
  pose proof (byte_code_range b0). pose proof (byte_code_range b1).
  rewrite (Z.shiftl_mul_pow2 (byte_code b1) 8) by lia.
  rewrite (lor_shiftl_add (byte_code b0) (byte_code b1 * 2 ^ 8) 16) by lia. lia.
Qed.

Lemma encode_inj_bounded (n : nat) :
  forall a b, (length a <= n)%nat -> base64.encode a = base64.encode b -> a = b.
Proof.
  induction n as [n IH] using lt_wf_ind. intros a b Hn H.
  destruct a as [|a0 [|a1 [|a2 ra]]]; destruct b as [|b0 [|b1 [|b2 rb]]];
    cbn [base64.encode] in H; try discriminate H; try reflexivity.
  - (* one byte each *)
    injection H as H0 H1. apply sextet_inj in H0, H1.
    rewrite !Z.shiftr_div_pow2, !Z.shiftl_mul_pow2 in H0, H1 by lia.
    pose proof (byte_code_range a0). pose proof (byte_code_range b0).
    f_equal. apply byte_code_inj.
    change (2 ^ 16) with 65536 in *. change (2 ^ 18) with 262144 in *.
    change (2 ^ 12) with 4096 in *. Z.div_mod_to_equations. lia.
  - injection H as _ _ H2. symmetry in H2. apply sextet_not_pad in H2. contradiction.
  - injection H as _ _ H2. symmetry in H2. apply sextet_not_pad in H2. contradiction.
  - injection H as _ _ H2. apply sextet_not_pad in H2. contradiction.
  - (* two bytes each *)
    injection H as H0 H1 H2. apply sextet_inj in H0, H1, H2.
    rewrite !group2 in H0, H1, H2. rewrite !Z.shiftr_div_pow2 in H0, H1, H2 by lia.
    pose proof (byte_code_range a0). pose proof (byte_code_range a1).
    pose proof (byte_code_range b0). pose proof (byte_code_range b1).
    change (2 ^ 18) with 262144 in *. change (2 ^ 12) with 4096 in *.
    change (2 ^ 6) with 64 in *.
    assert (E : byte_code a0 = byte_code b0 /\ byte_code a1 = byte_code b1)
      by (Z.div_mod_to_equations; lia).
    destruct E as [E0 E1]. apply byte_code_inj in E0, E1. congruence.
  - injection H as _ _ _ H3. symmetry in H3. apply sextet_not_pad in H3. contradiction.
  - injection H as _ _ H2. apply sextet_not_pad in H2. contradiction.
  - injection H as _ _ _ H3. apply sextet_not_pad in H3. contradiction.
  - (* a full group each *)
    injection H as H0 H1 H2 H3 Hr. apply sextet_inj in H0, H1, H2, H3.
    rewrite !group3 in H0, H1, H2, H3. rewrite !Z.shiftr_div_pow2 in H0, H1, H2 by lia.
    pose proof (byte_code_range a0). pose proof (byte_code_range a1).
    pose proof (byte_code_range a2).
    pose proof (byte_code_range b0). pose proof (byte_code_range b1).
    pose proof (byte_code_range b2).
    change (2 ^ 18) with 262144 in *. change (2 ^ 12) with 4096 in *.
    change (2 ^ 6) with 64 in *.
    assert (E : byte_code a0 = byte_code b0 /\ byte_code a1 = byte_code b1
                /\ byte_code a2 = byte_code b2)
      by (Z.div_mod_to_equations; lia).
    destruct E as (E0 & E1 & E2). apply byte_code_inj in E0, E1, E2.
    apply (IH (length ra)) in Hr; [|cbn [length] in Hn; lia|lia]. congruence.
Qed.

(** X26.  Base64 loses nothing: different bytes never give the same [image]
    (or icon) text. *)
Theorem encodeBase64_is_injective (a b : list byte) :
  encodeBase64 a = encodeBase64 b -> a = b.
Proof.
  unfold encodeBase64, base64.EncodeToString. intros H.
  apply (f_equal chars) in H. rewrite !chars_of_chars in H.
  apply (encode_inj_bounded (length a)); [lia | exact H].
Qed.

Lemma encodeBase64_is_injective_witness :
  encodeBase64 Fixture.png = "iVBORw==" /\ Fixture.png = [x89; x50; x4e; x47].
Proof.
  split; [reflexivity|].
  apply (encodeBase64_is_injective Fixture.png [x89; x50; x4e; x47]). reflexivity.
Defined.

(** ** The command-line tool *)

(** X27.  [loadBase64] reads at most one file, and none when the value is
    given inline or when both are given (which is an error); what it
    returns has no white space around it: the inline value trimmed, the
    base64 text of the file, or nothing. *)
Theorem loadBase64_reads_at_most_one_file (env : Env) (raw file label : string)
    (r : result string) (evs : list Event) :
  q0.loadBase64 env raw file label = (r, evs) ->
  (evs = [] \/ (blank raw /\ ~ blank file /\ evs = [EvReadFile (strings.TrimSpace file)]))
  /\ (~ blank raw -> evs = [])
  /\ (forall s, r = Ok s -> strings.TrimSpace s = s)
  /\ (~ blank raw -> ~ blank file -> exists e, r = Err e).
Proof.
  unfold q0.loadBase64, blank, nonEmpty.
  destruct (String.eqb_spec (strings.TrimSpace raw) "") as [Hr|Hr];
    destruct (String.eqb_spec (strings.TrimSpace file) "") as [Hf|Hf]; cbn [negb andb].
  - intros [= <- <-]. repeat split; auto; try contradiction. intros s [= <-]. reflexivity.
  - destruct (os_ReadFile env (strings.TrimSpace file)) as [data|e]; intros [= <- <-].
    + repeat split; auto; try contradiction.
      intros s [= <-]. apply TrimSpace_encodeBase64.
    + repeat split; auto; try contradiction. intros s H. discriminate.
  - intros [= <- <-]. repeat split; auto; try contradiction.
    intros s [= <-]. apply TrimSpace_idem.
  - intros [= <- <-]. repeat split; auto; try contradiction;
      [intros s H; discriminate | eauto].
Qed.

Lemma loadBase64_reads_at_most_one_file_witness :
  q0.loadBase64 Fixture.env "" " img.png" "icon" = (Ok "iVBORw==", [EvReadFile "img.png"])
  /\ strings.TrimSpace "iVBORw==" = "iVBORw=="
  /\ q0.loadBase64 Fixture.env " aGk= " "img.png" "icon"
     = (Err (OtherError "provide either -icon or -icon-file, not both"), []).
Proof.
  split; [reflexivity|]. split; [|reflexivity].
  destruct (loadBase64_reads_at_most_one_file Fixture.env "" " img.png" "icon"
              (Ok "iVBORw==") [EvReadFile "img.png"] eq_refl) as (_ & _ & H & _).
  apply H. reflexivity.
Defined.

(** The client the tool makes: the defaults of [NewClient] with the device
    of the flag as default device. *)
Lemma NewClient_tool env token device :
  ~ blank token ->
  NewClient env token [Some (WithDefaultDeviceID device)]
  = Ok {| baseURL := DefaultBaseURL; apiKey := strings.TrimSpace token;
          limiter := Some (NewFixedIntervalLimiter time.Second);
          userAgent := buildDefaultUserAgent env;
          defaultDevice := strings.TrimSpace device |}.
Proof.
  intros H. unfold NewClient. apply String.eqb_neq in H. rewrite H. reflexivity.
Qed.

(** A dispatch on a client fresh from [NewClient]: its limiter is idle, so
    the request follows the wait at once. *)
Lemma doJSON_fresh env ctx endpoint p c evs body :
  limiter c = Some (NewFixedIntervalLimiter time.Second) ->
  json_Marshal p = Ok body ->
  http_NewRequest env (baseURL c +:+ endpoint) = None ->
  let req := request c (baseURL c +:+ endpoint) body in
  exists w',
    doJSON env ctx endpoint p {| client := c; trace := evs |} = (exchange env req, w')
    /\ trace w' = evs ++ [EvLimiterWait (orBackground ctx); EvHTTPDo req].
Proof.
  intros Hl Hm Hu req.
  rewrite (doJSON_unfold env ctx endpoint p _ body Hm). cbv zeta.
  cbn [client trace]. rewrite Hl, Hu. cbn.
  eexists. split; [reflexivity|]. cbn. rewrite <- app_assoc. reflexivity.
Qed.

(** X28.  The commands check their arguments before they do anything: with
    no token, no device, or (for [image]) with both or neither of
    [-image] and [-image-file], the command fails having read no file and
    sent nothing, and prints nothing on standard output. *)
Theorem tool_checks_arguments_first (sh : Shell) (env : Env) (args : list string) :
  (forall f, parseText sh args = Ok f ->
     blank (TextFlags.token f) \/ blank (TextFlags.device f) ->
     exists e, q0.runText sh env args = Outcome.mk (Some e) [] "")
  /\ (forall f, parseImage sh args = Ok f ->
        blank (ImageFlags.token f) \/ blank (ImageFlags.device f)
        \/ (blank (ImageFlags.image f) <-> blank (ImageFlags.imageFile f)) ->
        exists e, q0.runImage sh env args = Outcome.mk (Some e) [] "").
Proof.
  split.
  - intros f Hf H. unfold q0.runText. rewrite Hf. unfold blank in H.
    destruct (String.eqb_spec (strings.TrimSpace (TextFlags.token f)) "") as [Ht|Ht];
      [eexists; reflexivity|].
    destruct (String.eqb_spec (strings.TrimSpace (TextFlags.device f)) "") as [Hd|Hd];
      [eexists; reflexivity|].
    tauto.
  - intros f Hf H. unfold q0.runImage. rewrite Hf. cbv zeta. unfold blank in H.
    destruct (String.eqb_spec (strings.TrimSpace (ImageFlags.token f)) "") as [Ht|Ht];
      [eexists; reflexivity|].
    destruct (String.eqb_spec (strings.TrimSpace (ImageFlags.device f)) "") as [Hd|Hd];
      [eexists; reflexivity|].
    destruct (String.eqb_spec (strings.TrimSpace (ImageFlags.image f)) "") as [Hi|Hi];
      destruct (String.eqb_spec (strings.TrimSpace (ImageFlags.imageFile f)) "") as [Hp|Hp];
      cbn [negb andb]; try (eexists; reflexivity); tauto.
Qed.

Lemma tool_checks_arguments_first_witness :
  (exists e,
     q0.runText (Cases.shell (TextFlags.mk "  " "DEV" "t" "m" "" false "" "" "" true)
                   Cases.imageFlags) Fixture.env ["-title"; "t"]
     = Outcome.mk (Some e) [] "")
  /\ (exists e,
        q0.runImage (Cases.shell Cases.textFlags
                       (ImageFlags.mk "tok" "DEV" "iVBORw==" "img.png" "" 0 "" "" true))
          Fixture.env ["-image"; "iVBORw=="; "-image-file"; "img.png"]
        = Outcome.mk (Some e) [] "").
Proof.
  split.
  - apply (proj1 (tool_checks_arguments_first
                    (Cases.shell (TextFlags.mk "  " "DEV" "t" "m" "" false "" "" "" true)
                       Cases.imageFlags) Fixture.env ["-title"; "t"])
                 _ eq_refl).
    left. reflexivity.
  - apply (proj2 (tool_checks_arguments_first
                    (Cases.shell Cases.textFlags
                       (ImageFlags.mk "tok" "DEV" "iVBORw==" "img.png" "" 0 "" "" true))
                    Fixture.env ["-image"; "iVBORw=="; "-image-file"; "img.png"])
                 _ eq_refl).
    right. right. split; intros H; vm_compute in H; discriminate.
Defined.

(** X29.  [image] with an inline image and valid arguments: one dispatch on
    a new client.  The request goes to the default host with the token of
    [-token] trimmed, to the device of [-device] trimmed, with the image
    as given and the dither flags trimmed and in upper case; the limiter
    of the new client does not hold it back.  The command fails as the
    exchange does, and never for want of a device or an image. *)
Theorem image_command_sends_the_inline_image (sh : Shell) (env : Env)
    (args : list string) (f : ImageFlags.t) :
  parseImage sh args = Ok f ->
  ~ blank (ImageFlags.token f) -> ~ blank (ImageFlags.device f) ->
  ~ blank (ImageFlags.image f) -> blank (ImageFlags.imageFile f) ->
  http_NewRequest env (DefaultBaseURL +:+ imageEndpoint) = None ->
  let body :=
    Marshal_ImageRequest
      (ImageRequest.mk (Some (ImageFlags.refresh f))
         (strings.TrimSpace (ImageFlags.device f)) (ImageFlags.image f) [] ""
         (ImageFlags.link f) (ImageFlags.border f)
         (strings_ToUpper sh (strings.TrimSpace (ImageFlags.ditherType f)))
         (strings_ToUpper sh (strings.TrimSpace (ImageFlags.ditherKernel f)))) in
  let req :=
    {| Method := "POST"; URL := "https://dot.mindreset.tech/api/open/image";
       Header := [("Authorization", "Bearer " +:+ strings.TrimSpace (ImageFlags.token f));
                  ("Content-Type", "application/json");
                  ("User-Agent", buildDefaultUserAgent env)];
       Body := body |} in
  let out := q0.runImage sh env args in
  Outcome.events out = [EvLimiterWait context.Background; EvHTTPDo req]
  /\ match exchange env req with
     | Ok resp =>
         Outcome.err out = None
         /\ Outcome.stdout out
            = "Image sent (code=" +:+ strconv.Itoa (APIResponse.Code resp)
              +:+ " message=" +:+ APIResponse.Message resp +:+ ")" +:+ q0.newline
     | Err e => Outcome.err out = Some e /\ Outcome.stdout out = ""
     end.
Proof.
  intros Hf Ht Hd Hi Hp Hu body req out. subst out. unfold q0.runImage. rewrite Hf. cbv zeta.
  unfold blank in *.
  apply String.eqb_neq in Ht, Hd. rewrite Ht, Hd.
  pose proof Hi as Hi'. apply String.eqb_neq in Hi'. rewrite Hi', Hp. cbn [negb andb String.eqb].
  apply String.eqb_neq in Ht, Hd.
  rewrite (NewClient_tool env _ _ Ht).
  set (c := {| baseURL := DefaultBaseURL; apiKey := _; limiter := _; userAgent := _;
               defaultDevice := _ |}).
  set (r := ImageRequest.withImage _ _).
  set (w0 := {| client := c; trace := [] |}).
  set (did := strings.TrimSpace (ImageFlags.device f)).
  assert (Hr : resolveDeviceID (ImageRequest.DeviceID r) w0 = (Ok did, w0)).
  { rewrite (resolveDeviceID_default (ImageRequest.DeviceID r) w0).
    - cbn [client defaultDevice w0 c]. fold did. unfold did. rewrite TrimSpace_idem.
      reflexivity.
    - reflexivity.
    - unfold blank. cbn [client defaultDevice w0 c]. rewrite TrimSpace_idem. exact Hd. }
  rewrite (SendImage_steps env (Some context.Background) r w0 did
             (ImageRequest.withDeviceID r did) w0 Hr);
    [|apply normalizeImage_preset; exact Hi|reflexivity|exact Hi].
  destruct (doJSON_fresh env (Some context.Background) imageEndpoint
              (ImagePayload (ImageRequest.withDeviceID r did))
              c [] body eq_refl eq_refl Hu) as (w' & Hj & Htr).
  fold w0 in Hj. rewrite Hj.
  assert (Hreq : request c (baseURL c +:+ imageEndpoint) body = req).
  { unfold request, req. cbn [userAgent apiKey baseURL c].
    destruct (buildDefaultUserAgent_trimmed env) as [-> Hne].
    apply String.eqb_neq in Hne. unfold nonEmpty. rewrite Hne. reflexivity. }
  rewrite Hreq in *.
  destruct (exchange env req) as [resp|e]; cbn [Outcome.events Outcome.err Outcome.stdout q0.failed];
    rewrite Htr; repeat split; reflexivity.
Qed.

Lemma image_command_sends_the_inline_image_witness :
  let out := q0.runImage (Cases.shell Cases.textFlags Cases.imageFlags) Fixture.env [] in
  Outcome.events out
  = [EvLimiterWait context.Background;
     EvHTTPDo
       {| Method := "POST"; URL := "https://dot.mindreset.tech/api/open/image";
          Header := [("Authorization", "Bearer tok"); ("Content-Type", "application/json");
                     ("User-Agent",
                      "quote0-go-sdk/1.0 (+https://github.com/1set/quote0; Go1.22.0; linux/amd64)")];
          Body := [("refreshNow", WBool true); ("deviceId", WString "DEV");
                   ("image", WString "iVBORw=="); ("border", WInt 1);
                   ("ditherType", WString "DIFFUSION")] |}]
  /\ Outcome.err out = None.
Proof.
  intros out.
  destruct (image_command_sends_the_inline_image
              (Cases.shell Cases.textFlags Cases.imageFlags) Fixture.env [] Cases.imageFlags
              eq_refl) as [H1 H2]; try reflexivity; try (vm_compute; discriminate).
  split; [exact H1 | exact (proj1 H2)].
Defined.

(** X30.  [text] with valid arguments: one dispatch on a new client, after
    the icon file, if any, was read.  The request goes to the device of
    [-device] trimmed, with the title and the message as given, the icon
    [loadBase64] returned, and as signature the flag trimmed, or, when
    that is blank, the generated one if [-auto-signature] is set and none
    otherwise.  The command fails as the exchange does. *)
Theorem text_command_sends_the_text (sh : Shell) (env : Env) (args : list string)
    (f : TextFlags.t) (iconData : string) (evs : list Event) :
  parseText sh args = Ok f ->
  ~ blank (TextFlags.token f) -> ~ blank (TextFlags.device f) ->
  q0.loadBase64 env (TextFlags.icon f) (TextFlags.iconFile f) "icon" = (Ok iconData, evs) ->
  http_NewRequest env (DefaultBaseURL +:+ textEndpoint) = None ->
  let sig :=
    if String.eqb (strings.TrimSpace (TextFlags.signature f)) ""
    then (if TextFlags.autoSignature f then q0.autoSignature sh else "")
    else strings.TrimSpace (TextFlags.signature f) in
  let body :=
    Marshal_TextRequest
      (TextRequest.mk (Some (TextFlags.refresh f)) (strings.TrimSpace (TextFlags.device f))
         (TextFlags.title f) (TextFlags.message f) sig iconData (TextFlags.link f)) in
  let req :=
    {| Method := "POST"; URL := "https://dot.mindreset.tech/api/open/text";
       Header := [("Authorization", "Bearer " +:+ strings.TrimSpace (TextFlags.token f));
                  ("Content-Type", "application/json");
                  ("User-Agent", buildDefaultUserAgent env)];
       Body := body |} in
  let out := q0.runText sh env args in
  Outcome.events out = evs ++ [EvLimiterWait context.Background; EvHTTPDo req]
  /\ match exchange env req with
     | Ok resp =>
         Outcome.err out = None
         /\ Outcome.stdout out
            = "Text sent (code=" +:+ strconv.Itoa (APIResponse.Code resp)
              +:+ " message=" +:+ APIResponse.Message resp +:+ ")" +:+ q0.newline
     | Err e => Outcome.err out = Some e /\ Outcome.stdout out = ""
     end.
Proof.
  intros Hf Ht Hd Hicon Hu sig body req out. subst out. unfold q0.runText.
  rewrite Hf. unfold blank in *.
  apply String.eqb_neq in Ht, Hd. rewrite Ht, Hd. rewrite Hicon.
  apply String.eqb_neq in Ht, Hd.
  rewrite (NewClient_tool env _ _ Ht). cbv zeta.
  set (c := {| baseURL := DefaultBaseURL; apiKey := _; limiter := _; userAgent := _;
               defaultDevice := _ |}).
  assert (Hsig : (if String.eqb (strings.TrimSpace (TextFlags.signature f)) ""
                     && TextFlags.autoSignature f
                  then q0.autoSignature sh else strings.TrimSpace (TextFlags.signature f))
                 = sig).
  { subst sig. destruct (String.eqb_spec (strings.TrimSpace (TextFlags.signature f)) "") as [E|E];
      cbn [andb]; [|reflexivity].
    destruct (TextFlags.autoSignature f); [reflexivity | exact E]. }
  rewrite Hsig.
  set (r := TextRequest.mk _ "" _ _ sig iconData _).
  set (w0 := {| client := c; trace := evs |}).
  set (did := strings.TrimSpace (TextFlags.device f)).
  assert (Hr : resolveDeviceID (TextRequest.DeviceID r) w0 = (Ok did, w0)).
  { rewrite (resolveDeviceID_default (TextRequest.DeviceID r) w0).
    - cbn [client defaultDevice w0 c]. fold did. unfold did. rewrite TrimSpace_idem.
      reflexivity.
    - reflexivity.
    - unfold blank. cbn [client defaultDevice w0 c]. rewrite TrimSpace_idem. exact Hd. }
  assert (Hs : SendText env (Some context.Background) r w0
               = doJSON env (Some context.Background) textEndpoint
                   (TextPayload (TextRequest.withDeviceID r did)) w0).
  { destruct (resolveDeviceID_Ok _ _ _ _ Hr) as (_ & Htr & Hne).
    unfold SendText, bind at 1. rewrite Hr. unfold bind at 1.
    rewrite (TextRequest_validate_resolved r did Htr Hne). reflexivity. }
  rewrite Hs.
  destruct (doJSON_fresh env (Some context.Background) textEndpoint
              (TextPayload (TextRequest.withDeviceID r did))
              c evs body eq_refl eq_refl Hu) as (w' & Hj & Htr).
  fold w0 in Hj. rewrite Hj.
  assert (Hreq : request c (baseURL c +:+ textEndpoint) body = req).
  { unfold request, req. cbn [userAgent apiKey baseURL c].
    destruct (buildDefaultUserAgent_trimmed env) as [-> Hne].
    apply String.eqb_neq in Hne. unfold nonEmpty. rewrite Hne. reflexivity. }
  rewrite Hreq in *.
  destruct (exchange env req) as [resp|e]; cbn [Outcome.events Outcome.err Outcome.stdout q0.failed];
    rewrite Htr; repeat split; reflexivity.
Qed.

Lemma text_command_sends_the_text_witness :
  let out := q0.runText (Cases.shell Cases.textFlags Cases.imageFlags) Fixture.env [] in
  Outcome.events out
  = [EvLimiterWait context.Background;
     EvHTTPDo
       {| Method := "POST"; URL := "https://dot.mindreset.tech/api/open/text";
          Header := [("Authorization", "Bearer tok"); ("Content-Type", "application/json");
                     ("User-Agent",
                      "quote0-go-sdk/1.0 (+https://github.com/1set/quote0; Go1.22.0; linux/amd64)")];
          Body := [("refreshNow", WBool true); ("deviceId", WString "DEV");
                   ("title", WString "Title"); ("message", WString "Hello");
                   ("signature", WString "localhost@03-07 09:05:00")] |}]
  /\ Outcome.stdout out = "Text sent (code=0 message=ok)" +:+ q0.newline.
Proof.
  intros out.
  destruct (text_command_sends_the_text
              (Cases.shell Cases.textFlags Cases.imageFlags) Fixture.env [] Cases.textFlags
              "" [] eq_refl) as [H1 H2]; try reflexivity; try (vm_compute; discriminate).
  split; [exact H1 | exact (proj2 H2)].
Defined.
